(** * ZaiZaiCat-Checkin: the request envelope of the HuaRunTong client

    A shallow embedding of [script/huaruntong/huaruntong_wx/api.py]
    (class [HuaRunTongAPI]) together with the parts of the Python run time
    that the class calls: [str], [json.dumps], [sorted], [str.join],
    [urllib.parse.quote], [str.encode], [hmac]/[hashlib.md5],
    [base64.b64encode], CBC mode and the dict objects it mutates.

    Conventions.
    - A Python [str] is a [string]; each [ascii] is the character with that
      code point, so the texts of the model are those of the code points
      U+0000..U+00FF.  Every such text has a UTF-8 encoding; a text with a
      lone surrogate, on which [str.encode] raises UnicodeEncodeError, is
      not a text of the model.
    - A Python [bytes] is a [list byte].
    - A Python [int] is a [Z]; a [float] is given by its sign, its shortest
      decimal digits and the place of its decimal point.
    - A Python [dict] is an association list in insertion order, with [str]
      keys.
    - Values are trees: a list or dict that holds itself, on which
      [json.dumps] raises ValueError, is not a value of the model.
    - Exceptions are the [Raise] results of type [result].
    - The interpreter's recursion limit enters as two numbers of the world:
      how deep [json.dumps] and how deep [str] can go at the calls that
      [_crypto_data] makes.  The calls whose depth does not depend on the
      data ([quote], [hmac], the ciphers) are taken to fit. *)

Set Warnings "-register-all".
From Stdlib Require Import ZArith NArith Lia List Bool.
From Stdlib Require Import String Ascii Strings.Byte DecimalString.
From Stdlib Require Import Sorting.Mergesort Sorting.Sorted Sorting.Permutation.
From Stdlib Require Import RelationClasses.
Import ListNotations.

Local Open Scope string_scope.
Local Open Scope list_scope.

(** String concatenation, Python's [+] on [str]. *)
Local Infix "+++" := String.append (right associativity, at level 60).

(** ** Results and exceptions *)

Inductive exn : Type :=
| TypeError          (* json.dumps on an object it cannot serialize *)
| ValueError         (* bytes() out of range, wrong key/IV/data length *)
| ZeroDivisionError  (* [%] by zero *)
| RecursionError     (* json.dumps or str() on a value nested too deep *)
| OverflowError      (* [l * n] with an n that is no index *)
| MemoryError        (* [l * n] longer than a list can be *)
| SystemError.       (* a dangling reference; unreachable from Python *)

Inductive result (A : Type) : Type :=
| Ok (a : A)
| Raise (e : exn).

Arguments Ok {A} a.
Arguments Raise {A} e.

Definition bytes := list byte.

(** ** Python values *)

(** A float, as the conversion to the shortest decimal text that reads
    back as the same float ([repr], CPython's [_Py_dg_dtoa] in mode 0)
    gives it: the sign, the decimal digits as a number and the place of the
    decimal point, counted from the first digit.  1.5 is
    [FFinite false 15 1], 1e16 is [FFinite false 1 17] and 0.0 is
    [FFinite false 0 1]. *)
Inductive pyfloat : Type :=
| FNan
| FInf (negative : bool)
| FFinite (negative : bool) (digits : N) (decpt : Z).

(** [VObject repr] is any object of another type, one that [json.dumps]
    does not know; [repr] is the text that [repr()] and [str()] give for
    it. *)
Inductive value : Type :=
| VNone
| VBool (b : bool)
| VInt (n : Z)
| VFloat (f : pyfloat)
| VStr (s : string)
| VList (items : list value)
| VTuple (items : list value)
| VDict (items : list (string * value))
| VObject (repr : string).

Definition dict := list (string * value).

(** Characters that cannot be written inside a literal. *)
Definition DQUOTE : ascii := ascii_of_nat 34.
Definition BACKSLASH : ascii := ascii_of_nat 92.
Definition chr (n : nat) : string := String (ascii_of_nat n) EmptyString.

(** [x in d] and [d[k] = v]: an assignment to an existing key keeps the
    key's position, a new key goes last. *)
Fixpoint dict_contains (d : dict) (k : string) : bool :=
  match d with
  | [] => false
  | (k', _) :: d' => if String.eqb k' k then true else dict_contains d' k
  end.

Fixpoint dict_get (d : dict) (k : string) : option value :=
  match d with
  | [] => None
  | (k', v) :: d' => if String.eqb k' k then Some v else dict_get d' k
  end.

Fixpoint dict_set (d : dict) (k : string) (v : value) : dict :=
  match d with
  | [] => [(k, v)]
  | (k', v') :: d' =>
      if String.eqb k' k then (k, v) :: d' else (k', v') :: dict_set d' k v
  end.

Definition keys (d : dict) : list string := map fst d.

(** ** [str()] and formatting *)

(** [str(n)] for an int. *)
Definition str_of_int (n : Z) : string := NilZero.string_of_int (Z.to_int n).

(** One hexadecimal digit, lower case as [hexdigest] and [\uXXXX] print it,
    upper case as [quote] prints it. *)
Definition hex_digit (upper : bool) (n : N) : ascii :=
  if (n <? 10)%N then ascii_of_N (48 + n)
  else ascii_of_N ((if upper then 55 else 87) + n).

Definition hex_byte (upper : bool) (b : byte) : string :=
  let n := Byte.to_N b in
  String (hex_digit upper (n / 16)) (String (hex_digit upper (n mod 16)) EmptyString).

(** [bytes.hex()] *)
Definition hex (bs : bytes) : string :=
  String.concat EmptyString (map (hex_byte false) bs).

(** ["0" * n] *)
Fixpoint zeros (n : nat) : string :=
  match n with
  | O => EmptyString
  | S n' => String "0" (zeros n')
  end.

(** [repr(f)] for a float ([float_repr_style] short, format code [r]): the
    digits with the point put in when the point lies within 16 places
    to the right and 3 places to the left of the first digit, and
    otherwise one digit, the others after a point, and the exponent with its
    sign and at least two digits. *)
Definition float_repr (f : pyfloat) : string :=
  match f with
  | FNan => "nan"
  | FInf negative => if negative then "-inf" else "inf"
  | FFinite negative digits decpt =>
      let ds := str_of_int (Z.of_N digits) in
      let n := String.length ds in
      let body :=
        if ((decpt <=? -4) || (16 <? decpt))%Z%bool then
          let e := (decpt - 1)%Z in
          String.substring 0 1 ds
            +++ (if Nat.ltb 1 n then "." +++ String.substring 1 (n - 1) ds
                 else EmptyString)
            +++ "e" +++ (if (e <? 0)%Z then "-" else "+")
            +++ (if (Z.abs e <? 10)%Z then "0" else EmptyString)
            +++ str_of_int (Z.abs e)
        else if (decpt <=? 0)%Z then
          "0." +++ zeros (Z.to_nat (- decpt)) +++ ds
        else if (decpt <? Z.of_nat n)%Z then
          String.substring 0 (Z.to_nat decpt) ds +++ "."
            +++ String.substring (Z.to_nat decpt) (n - Z.to_nat decpt) ds
        else ds +++ zeros (Z.to_nat decpt - n) +++ ".0" in
      (if negative then "-" else EmptyString) +++ body
  end.

(** [repr(s)] for a str: single quotes, unless the text holds a single quote
    and no double quote; the quote in use and the backslash are escaped,
    tab, newline and return are written [\t], [\n], [\r], and the other
    characters that are not printable (the controls, U+007F..U+00A0 and the
    soft hyphen U+00AD) as [\xhh]. *)
Definition SQUOTE : ascii := ascii_of_nat 39.

Fixpoint contains (c : ascii) (s : string) : bool :=
  match s with
  | EmptyString => false
  | String c' s' => (Ascii.eqb c' c || contains c s')%bool
  end.

Definition repr_char (quote c : ascii) : string :=
  let n := nat_of_ascii c in
  if (Ascii.eqb c quote || Nat.eqb n 92)%bool
  then String BACKSLASH (String c EmptyString)
  else if Nat.eqb n 9 then String BACKSLASH "t"
  else if Nat.eqb n 10 then String BACKSLASH "n"
  else if Nat.eqb n 13 then String BACKSLASH "r"
  else if (Nat.ltb n 32 || (Nat.leb 127 n && Nat.leb n 160)
           || Nat.eqb n 173)%bool
  then String BACKSLASH ("x" +++ hex_byte false (byte_of_ascii c))
  else String c EmptyString.

Fixpoint repr_chars (quote : ascii) (s : string) : string :=
  match s with
  | EmptyString => EmptyString
  | String c s' => repr_char quote c +++ repr_chars quote s'
  end.

Definition repr_str (s : string) : string :=
  let quote :=
    if (contains SQUOTE s && negb (contains DQUOTE s))%bool then DQUOTE
    else SQUOTE in
  String quote (repr_chars quote s +++ String quote EmptyString).

(** [repr(v)].  Every call of [repr], on a scalar too, takes one level of
    the interpreter's recursion; [depth] is the number of levels left, and
    a call without a level left raises RecursionError.  A tuple of one item
    is written with a comma after the item. *)
Fixpoint py_repr (depth : nat) (v : value) {struct v} : result string :=
  match depth with
  | O => Raise RecursionError
  | S depth' =>
      match v with
      | VNone => Ok "None"
      | VBool true => Ok "True"
      | VBool false => Ok "False"
      | VInt n => Ok (str_of_int n)
      | VFloat f => Ok (float_repr f)
      | VStr s => Ok (repr_str s)
      | VList items =>
          let fix each (xs : list value) : result (list string) :=
            match xs with
            | [] => Ok []
            | x :: xs' =>
                match py_repr depth' x with
                | Raise e => Raise e
                | Ok s =>
                    match each xs' with
                    | Raise e => Raise e
                    | Ok ss => Ok (s :: ss)
                    end
                end
            end in
          match each items with
          | Raise e => Raise e
          | Ok ss => Ok ("[" +++ String.concat ", " ss +++ "]")
          end
      | VTuple items =>
          let fix each (xs : list value) : result (list string) :=
            match xs with
            | [] => Ok []
            | x :: xs' =>
                match py_repr depth' x with
                | Raise e => Raise e
                | Ok s =>
                    match each xs' with
                    | Raise e => Raise e
                    | Ok ss => Ok (s :: ss)
                    end
                end
            end in
          match each items with
          | Raise e => Raise e
          | Ok [s] => Ok ("(" +++ s +++ ",)")
          | Ok ss => Ok ("(" +++ String.concat ", " ss +++ ")")
          end
      | VDict entries =>
          let fix each (xs : list (string * value)) : result (list string) :=
            match xs with
            | [] => Ok []
            | (k, x) :: xs' =>
                match py_repr depth' x with
                | Raise e => Raise e
                | Ok s =>
                    match each xs' with
                    | Raise e => Raise e
                    | Ok ss => Ok ((repr_str k +++ ": " +++ s) :: ss)
                    end
                end
            end in
          match each entries with
          | Raise e => Raise e
          | Ok ss => Ok ("{" +++ String.concat ", " ss +++ "}")
          end
      | VObject repr => Ok repr
      end
  end.

(** [str(v)], which is what an f-string field [{v}] prints: a str as it
    is, any other value by its [repr]. *)
Definition py_str (depth : nat) (v : value) : result string :=
  match v with
  | VStr s => Ok s
  | _ => py_repr depth v
  end.

(** ** [json.dumps] *)

(** [json.encoder.encode_basestring_ascii] on one character:
    [ESCAPE_ASCII] matches the quote, the backslash and everything outside
    [' '..'~']; [ESCAPE_DCT] names seven of them, the others print as
    [\uXXXX]. *)
Definition escape_char (c : ascii) : string :=
  let n := nat_of_ascii c in
  if Nat.eqb n 34 then String BACKSLASH (String DQUOTE EmptyString)
  else if Nat.eqb n 92 then String BACKSLASH (String BACKSLASH EmptyString)
  else if Nat.eqb n 10 then String BACKSLASH "n"
  else if Nat.eqb n 13 then String BACKSLASH "r"
  else if Nat.eqb n 9 then String BACKSLASH "t"
  else if Nat.eqb n 12 then String BACKSLASH "f"
  else if Nat.eqb n 8 then String BACKSLASH "b"
  else if (Nat.leb 32 n && Nat.leb n 126)%bool then String c EmptyString
  else String BACKSLASH ("u00" +++ hex_byte false (byte_of_ascii c)).

Fixpoint escape_chars (s : string) : string :=
  match s with
  | EmptyString => EmptyString
  | String c s' => escape_char c +++ escape_chars s'
  end.

Definition encode_basestring_ascii (s : string) : string :=
  String DQUOTE (escape_chars s +++ String DQUOTE EmptyString).

(** A float in JSON ([allow_nan] is on): [float.__repr__], and the three
    names that JavaScript has for the values that are no numbers. *)
Definition float_json (f : pyfloat) : string :=
  match f with
  | FNan => "NaN"
  | FInf negative => if negative then "-Infinity" else "Infinity"
  | FFinite _ _ _ => float_repr f
  end.

(** [json.dumps(v, separators=(item_separator, key_separator))] with the
    defaults [ensure_ascii=True], [skipkeys=False], [sort_keys=False],
    [allow_nan=True]: a list or a tuple is written as an array and a dict as
    an object, items and entries in their own order, and the first object
    the encoder does not know raises TypeError.  The encoder takes one
    level of the interpreter's recursion for each list, tuple or dict it
    enters and for the object it hands to [default]; [depth] is the number
    of levels left, and entering without a level left raises
    RecursionError. *)
Fixpoint json_dumps (item_separator key_separator : string) (depth : nat)
    (v : value) {struct v} : result string :=
  match v with
  | VNone => Ok "null"
  | VBool true => Ok "true"
  | VBool false => Ok "false"
  | VInt n => Ok (str_of_int n)
  | VFloat f => Ok (float_json f)
  | VStr s => Ok (encode_basestring_ascii s)
  | VList items | VTuple items =>
      match depth with
      | O => Raise RecursionError
      | S depth' =>
          let fix chunks (xs : list value) : result (list string) :=
            match xs with
            | [] => Ok []
            | x :: xs' =>
                match json_dumps item_separator key_separator depth' x with
                | Raise e => Raise e
                | Ok s =>
                    match chunks xs' with
                    | Raise e => Raise e
                    | Ok ss => Ok (s :: ss)
                    end
                end
            end in
          match chunks items with
          | Raise e => Raise e
          | Ok ss => Ok ("[" +++ String.concat item_separator ss +++ "]")
          end
      end
  | VDict entries =>
      match depth with
      | O => Raise RecursionError
      | S depth' =>
          let fix chunks (xs : list (string * value)) : result (list string) :=
            match xs with
            | [] => Ok []
            | (k, x) :: xs' =>
                match json_dumps item_separator key_separator depth' x with
                | Raise e => Raise e
                | Ok s =>
                    match chunks xs' with
                    | Raise e => Raise e
                    | Ok ss =>
                        Ok ((encode_basestring_ascii k +++ key_separator +++ s)
                              :: ss)
                    end
                end
            end in
          match chunks entries with
          | Raise e => Raise e
          | Ok ss => Ok ("{" +++ String.concat item_separator ss +++ "}")
          end
      end
  | VObject _ =>
      match depth with
      | O => Raise RecursionError
      | S _ => Raise TypeError
      end
  end.

(** The call the client makes: [json.dumps(v, separators=(',', ':'))]. *)
Definition json_compact (depth : nat) (v : value) : result string :=
  json_dumps "," ":" depth v.

(** ** [sorted] on a list of [str] *)

Module StrOrder <: Orders.TotalLeBool.
Definition t := string.
Definition leb := String.leb.
Theorem leb_total : forall a1 a2, leb a1 a2 = true \/ leb a2 a1 = true.
Proof. exact String.leb_total. Qed.
End StrOrder.

Module StrSort := Sort StrOrder.

(** [sorted(parts)]: a stable merge sort under [<=] on [str], which compares
    code point by code point and puts a proper prefix first. *)
Definition sorted (parts : list string) : list string := StrSort.sort parts.

(** ["sep".join(parts)] *)
Definition join (sep : string) (parts : list string) : string :=
  String.concat sep parts.

(** ** Bytes *)

Definition byte_of_N (n : N) : byte :=
  match Byte.of_N (n mod 256) with
  | Some b => b
  | None => x00
  end.

Definition byte_xor (a b : byte) : byte :=
  byte_of_N (N.lxor (Byte.to_N a) (Byte.to_N b)).

(** [bytes(x ^ y for x, y in zip(xs, ys))] *)
Definition xor_bytes (xs ys : bytes) : bytes :=
  map (fun p => byte_xor (fst p) (snd p)) (combine xs ys).

(** [s.encode('utf-8')] on code points below 256: one byte below 128, two
    bytes from 128 on. *)
Definition utf8_char (c : ascii) : bytes :=
  let n := N_of_ascii c in
  if (n <? 128)%N then [byte_of_N n]
  else [byte_of_N (192 + n / 64); byte_of_N (128 + n mod 64)].

Fixpoint utf8_encode (s : string) : bytes :=
  match s with
  | EmptyString => []
  | String c s' => utf8_char c ++ utf8_encode s'
  end.

(** [urllib.parse.quote(s, safe='')]: the UTF-8 bytes of [s], each one kept
    when it is a letter, a digit or one of [_.-~] and written [%XX]
    otherwise. *)
Definition always_safe (b : byte) : bool :=
  let n := Byte.to_N b in
  ((65 <=? n) && (n <=? 90) || (97 <=? n) && (n <=? 122)
   || (48 <=? n) && (n <=? 57)
   || (n =? 95) || (n =? 46) || (n =? 45) || (n =? 126))%N%bool.

Definition quote_byte (b : byte) : string :=
  if always_safe b then String (ascii_of_byte b) EmptyString
  else String "%" (hex_byte true b).

Definition quote (s : string) : string :=
  String.concat EmptyString (map quote_byte (utf8_encode s)).

(** [l[i:i+n] for i in range(0, len(l), n)] *)
Fixpoint chunks_fuel {A : Type} (fuel n : nat) (l : list A) : list (list A) :=
  match fuel with
  | O => []
  | S fuel' =>
      match l with
      | [] => []
      | _ => firstn n l :: chunks_fuel fuel' n (skipn n l)
      end
  end.

Definition chunks {A : Type} (n : nat) (l : list A) : list (list A) :=
  chunks_fuel (List.length l) n l.

(** ** [hashlib.md5] (RFC 1321) *)

Module MD5.
Local Open Scope N_scope.

Definition mask32 : N := 0xFFFFFFFF.
Definition add32 (x y : N) : N := N.land (x + y) mask32.
Definition not32 (x : N) : N := N.lxor x mask32.
Definition rotl32 (x s : N) : N :=
  N.land (N.lor (N.shiftl x s) (N.shiftr x (32 - s))) mask32.

Definition K : list N :=
  [0xd76aa478; 0xe8c7b756; 0x242070db; 0xc1bdceee;
   0xf57c0faf; 0x4787c62a; 0xa8304613; 0xfd469501;
   0x698098d8; 0x8b44f7af; 0xffff5bb1; 0x895cd7be;
   0x6b901122; 0xfd987193; 0xa679438e; 0x49b40821;
   0xf61e2562; 0xc040b340; 0x265e5a51; 0xe9b6c7aa;
   0xd62f105d; 0x02441453; 0xd8a1e681; 0xe7d3fbc8;
   0x21e1cde6; 0xc33707d6; 0xf4d50d87; 0x455a14ed;
   0xa9e3e905; 0xfcefa3f8; 0x676f02d9; 0x8d2a4c8a;
   0xfffa3942; 0x8771f681; 0x6d9d6122; 0xfde5380c;
   0xa4beea44; 0x4bdecfa9; 0xf6bb4b60; 0xbebfbc70;
   0x289b7ec6; 0xeaa127fa; 0xd4ef3085; 0x04881d05;
   0xd9d4d039; 0xe6db99e5; 0x1fa27cf8; 0xc4ac5665;
   0xf4292244; 0x432aff97; 0xab9423a7; 0xfc93a039;
   0x655b59c3; 0x8f0ccc92; 0xffeff47d; 0x85845dd1;
   0x6fa87e4f; 0xfe2ce6e0; 0xa3014314; 0x4e0811a1;
   0xf7537e82; 0xbd3af235; 0x2ad7d2bb; 0xeb86d391].

Definition S : list N :=
  [7; 12; 17; 22; 7; 12; 17; 22; 7; 12; 17; 22; 7; 12; 17; 22;
   5; 9; 14; 20; 5; 9; 14; 20; 5; 9; 14; 20; 5; 9; 14; 20;
   4; 11; 16; 23; 4; 11; 16; 23; 4; 11; 16; 23; 4; 11; 16; 23;
   6; 10; 15; 21; 6; 10; 15; 21; 6; 10; 15; 21; 6; 10; 15; 21].

Definition state : Type := N * N * N * N.

Definition init : state := (0x67452301, 0xefcdab89, 0x98badcfe, 0x10325476).

(** Little-endian word of four bytes, and back. *)
Definition word_of_bytes (bs : bytes) : N :=
  fold_right (fun b acc => Byte.to_N b + 256 * acc) 0 bs.

Fixpoint bytes_of_word (n : nat) (x : N) : bytes :=
  match n with
  | O => []
  | Datatypes.S n' => byte_of_N x :: bytes_of_word n' (x / 256)
  end.

Definition step (M : list N) (st : state) (i : nat) : state :=
  let '(a, b, c, d) := st in
  let i' := N.of_nat i in
  let '(f, g) :=
    if i' <? 16 then (N.lor (N.land b c) (N.land (not32 b) d), i')
    else if i' <? 32 then
      (N.lor (N.land d b) (N.land (not32 d) c), (5 * i' + 1) mod 16)
    else if i' <? 48 then (N.lxor b (N.lxor c d), (3 * i' + 5) mod 16)
    else (N.lxor c (N.lor b (not32 d)), (7 * i') mod 16) in
  let F := add32 (add32 (add32 f a) (nth i K 0)) (nth (N.to_nat g) M 0) in
  (d, add32 b (rotl32 F (nth i S 0)), b, c).

Definition compress (st : state) (block : bytes) : state :=
  let M := map word_of_bytes (chunks 4 block) in
  let '(a, b, c, d) := fold_left (step M) (seq 0 64) st in
  let '(a0, b0, c0, d0) := st in
  (add32 a0 a, add32 b0 b, add32 c0 c, add32 d0 d).

Definition pad (msg : bytes) : bytes :=
  let len := N.of_nat (List.length msg) in
  msg ++ [x80] ++ repeat x00 (N.to_nat ((119 - len mod 64) mod 64))
      ++ bytes_of_word 8 ((8 * len) mod 2 ^ 64).

Definition digest (msg : bytes) : bytes :=
  let '(a, b, c, d) := fold_left compress (chunks 64 (pad msg)) init in
  bytes_of_word 4 a ++ bytes_of_word 4 b ++ bytes_of_word 4 c
    ++ bytes_of_word 4 d.

Definition block_size : nat := 64.
End MD5.

(** ** [hmac.new(key, msg, hashlib.md5)] (RFC 2104) *)

Definition ljust (n : nat) (bs : bytes) : bytes :=
  bs ++ repeat x00 (n - List.length bs).

Definition hmac_md5 (key msg : bytes) : bytes :=
  let key := if Nat.ltb MD5.block_size (List.length key) then MD5.digest key else key in
  let key := ljust MD5.block_size key in
  let inner := MD5.digest (map (byte_xor x36) key ++ msg) in
  MD5.digest (map (byte_xor x5c) key ++ inner).

(** [hmac.new(key, msg, hashlib.md5).hexdigest()] *)
Definition hmac_md5_hexdigest (key msg : bytes) : string :=
  hex (hmac_md5 key msg).

(** ** [base64] (RFC 4648) *)

Definition b64_alphabet : string :=
  "ABCDEFGHIJKLMNOPQRSTUVWXYZabcdefghijklmnopqrstuvwxyz0123456789+/".

Definition b64_char (n : N) : ascii :=
  nth (N.to_nat n) (list_ascii_of_string b64_alphabet) "="%char.

Fixpoint index_of (c : ascii) (l : list ascii) : option N :=
  match l with
  | [] => None
  | c' :: l' =>
      if Ascii.eqb c' c then Some 0%N else option_map N.succ (index_of c l')
  end.

Definition b64_index (c : ascii) : option N :=
  index_of c (list_ascii_of_string b64_alphabet).

(** [base64.b64encode(bs).decode('utf-8')]: the encoding, read as a [str]
    (its bytes are ASCII, one character each). *)
Fixpoint b64encode (bs : bytes) : string :=
  match bs with
  | [] => EmptyString
  | [a] =>
      let n := (Byte.to_N a * 65536)%N in
      String (b64_char (n / 262144))
        (String (b64_char ((n / 4096) mod 64)) "==")
  | [a; b] =>
      let n := (Byte.to_N a * 65536 + Byte.to_N b * 256)%N in
      String (b64_char (n / 262144))
        (String (b64_char ((n / 4096) mod 64))
           (String (b64_char ((n / 64) mod 64)) "="))
  | a :: b :: c :: rest =>
      let n := (Byte.to_N a * 65536 + Byte.to_N b * 256 + Byte.to_N c)%N in
      String (b64_char (n / 262144))
        (String (b64_char ((n / 4096) mod 64))
           (String (b64_char ((n / 64) mod 64))
              (String (b64_char (n mod 64)) (b64encode rest))))
  end.

(** [base64.b64decode(s)] on canonical input: groups of four characters of
    the alphabet, the last group padded with [=]; anything else is [None]. *)
Fixpoint b64decode (s : string) : option bytes :=
  match s with
  | EmptyString => Some []
  | String c1 (String c2 (String c3 (String c4 rest))) =>
      match b64_index c1, b64_index c2 with
      | Some n1, Some n2 =>
          match b64_index c3, b64_index c4, rest with
          | Some n3, Some n4, _ =>
              let n := (n1 * 262144 + n2 * 4096 + n3 * 64 + n4)%N in
              option_map
                (fun bs => byte_of_N (n / 65536) :: byte_of_N (n / 256)
                             :: byte_of_N n :: bs)
                (b64decode rest)
          | Some n3, None, EmptyString =>
              if Ascii.eqb c4 "="%char then
                let n := (n1 * 262144 + n2 * 4096 + n3 * 64)%N in
                Some [byte_of_N (n / 65536); byte_of_N (n / 256)]
              else None
          | None, None, EmptyString =>
              if (Ascii.eqb c3 "="%char && Ascii.eqb c4 "="%char)%bool then
                Some [byte_of_N ((n1 * 262144 + n2 * 4096) / 65536)]
              else None
          | _, _, _ => None
          end
      | _, _ => None
      end
  | _ => None
  end.

(** ** PKCS#7 padding: [HuaRunTongAPI._pad_pkcs7] *)

(** [bytes([n] * n)] on a 64-bit CPython.  [[n] * n] raises OverflowError
    when [n] is no index (outside -2^63..2^63-1), is the empty list for
    [n <= 0], and raises MemoryError when [n] references are more than a
    list can hold (2^60 and more; a shorter list is taken to fit into the
    memory there is).  [bytes(l)] raises ValueError for an item above
    255. *)
Definition bytes_repeat (n : Z) : result bytes :=
  if ((n <? - 2 ^ 63) || (2 ^ 63 <=? n))%Z%bool then Raise OverflowError
  else if (n <=? 0)%Z then Ok []
  else if (2 ^ 60 <=? n)%Z then Raise MemoryError
  else if (255 <? n)%Z then Raise ValueError
  else Ok (repeat (byte_of_N (Z.to_N n)) (Z.to_nat n)).

Definition _pad_pkcs7 (data : bytes) (block_size : Z) : result bytes :=
  if (block_size =? 0)%Z then Raise ZeroDivisionError
  else
    let padding_len := (block_size - (Z.of_nat (List.length data) mod block_size))%Z in
    match bytes_repeat padding_len with
    | Raise e => Raise e
    | Ok padding => Ok (data ++ padding)
    end.

(** Removing the padding, as the specification words it: strip as many
    trailing bytes as the last byte says. *)
Definition unpad_pkcs7 (padded : bytes) : bytes :=
  match rev padded with
  | [] => []
  | last :: _ => firstn (List.length padded - N.to_nat (Byte.to_N last)) padded
  end.

(** ** The world: objects, clock, randomness and the calls made *)

(** A reference to a dict object. *)
Definition ref := nat.

(** The library calls a run makes, in order. *)
Inductive event : Type :=
| EvTime (ms : Z)                      (* time.time() *)
| EvHmac (key msg : bytes)             (* hmac.new(key, msg, md5).hexdigest() *)
| EvUrandom (out : bytes)              (* os.urandom(n), also inside OAEP *)
| EvAesNew (key iv : bytes)            (* AES.new(key, AES.MODE_CBC, iv) *)
| EvAesEncrypt (data : bytes)          (* cipher_aes.encrypt(data) *)
| EvRsaImportKey (pem : string)        (* RSA.import_key(pem) *)
| EvOaepNew                            (* PKCS1_OAEP.new(rsa_key) *)
| EvOaepEncrypt (message : bytes)      (* cipher_rsa.encrypt(message) *)
| EvHttpPost (url : string).           (* requests.post(url, ...) *)

(** [heap] holds the dict objects; [clock n] is what the n-th reading of
    [int(time.time() * 1000)] gives and [entropy n] the n-th byte the
    operating system's random source hands out.  [json_depth] and
    [repr_depth] are what the interpreter's recursion limit leaves to the
    calls that [_crypto_data] makes: the number of lists, tuples and dicts,
    one inside the other, that [json.dumps] can enter, and the number of
    calls of [repr], one inside the other, that an f-string field can
    make. *)
Record world : Type := mkWorld {
  heap : list dict;
  clock : nat -> Z;
  ticks : nat;
  entropy : nat -> byte;
  drawn : nat;
  trace : list event;
  json_depth : nat;
  repr_depth : nat
}.

Definition M (A : Type) : Type := world -> result A * world.

Definition ret {A : Type} (a : A) : M A := fun w => (Ok a, w).

Definition bind {A B : Type} (m : M A) (k : A -> M B) : M B :=
  fun w =>
    match m w with
    | (Ok a, w') => k a w'
    | (Raise e, w') => (Raise e, w')
    end.

Definition lift {A : Type} (r : result A) : M A := fun w => (r, w).

Notation "x <- m ;; k" := (bind m (fun x => k))
  (at level 61, m at next level, right associativity).
Notation "m ;;; k" := (bind m (fun _ => k))
  (at level 61, right associativity).

Definition emit (ev : event) : M unit :=
  fun w => (Ok tt, mkWorld (heap w) (clock w) (ticks w) (entropy w) (drawn w)
                           (trace w ++ [ev]) (json_depth w) (repr_depth w)).

Definition with_heap (w : world) (h : list dict) : world :=
  mkWorld h (clock w) (ticks w) (entropy w) (drawn w) (trace w)
    (json_depth w) (repr_depth w).

(** A call whose outcome depends on the recursion levels that are left. *)
Definition at_depth {A : Type} (f : nat -> nat -> result A) : M A :=
  fun w => (f (json_depth w) (repr_depth w), w).

Fixpoint heap_set (h : list dict) (r : ref) (d : dict) : list dict :=
  match h, r with
  | [], _ => []
  | _ :: h', O => d :: h'
  | d' :: h', S r' => d' :: heap_set h' r' d
  end.

(** [{...}] and [d.copy()]: a new object. *)
Definition new_dict (d : dict) : M ref :=
  fun w => (Ok (List.length (heap w)), with_heap w (heap w ++ [d])).

(** The entries of the object behind a reference. *)
Definition dict_items (r : ref) : M dict :=
  fun w =>
    match nth_error (heap w) r with
    | Some d => (Ok d, w)
    | None => (Raise SystemError, w)
    end.

(** [r[k] = v] *)
Definition setitem (r : ref) (k : string) (v : value) : M unit :=
  d <- dict_items r ;;
  fun w => (Ok tt, with_heap w (heap_set (heap w) r (dict_set d k v))).

(** [r.copy()]: a new dict with the same entries. *)
Definition dict_copy (r : ref) : M ref :=
  d <- dict_items r ;; new_dict d.

(** [int(time.time() * 1000)] *)
Definition time_ms : M Z :=
  fun w =>
    let t := clock w (ticks w) in
    (Ok t, mkWorld (heap w) (clock w) (S (ticks w)) (entropy w) (drawn w)
                   (trace w ++ [EvTime t]) (json_depth w) (repr_depth w)).

(** [os.urandom(n)] *)
Definition urandom (n : nat) : M bytes :=
  fun w =>
    let out := map (entropy w) (seq (drawn w) n) in
    (Ok out, mkWorld (heap w) (clock w) (ticks w) (entropy w) (drawn w + n)
                     (trace w ++ [EvUrandom out]) (json_depth w)
                     (repr_depth w)).

(** [hmac.new(key, msg, hashlib.md5).hexdigest()] *)
Definition hmac_new_md5_hexdigest (key msg : bytes) : M string :=
  emit (EvHmac key msg) ;;; ret (hmac_md5_hexdigest key msg).

(** ** The signing loop of [_crypto_data]

    [for key, value in params.items()]: a [None] is skipped, a dict or list
    (and nothing else: line 78 tests for these two types) goes through
    [json.dumps], and what is there then is printed by the f-string, a
    text as it is. *)
Fixpoint sign_parts (json_depth repr_depth : nat) (items : dict)
    (parts : list string) : result (list string) :=
  match items with
  | [] => Ok parts
  | (key, value) :: items' =>
      match value with
      | VNone => sign_parts json_depth repr_depth items' parts
      | VList _ | VDict _ =>
          match json_compact json_depth value with
          | Raise e => Raise e
          | Ok value' =>
              sign_parts json_depth repr_depth items'
                (parts ++ [key +++ "=" +++ value'])
          end
      | _ =>
          match py_str repr_depth value with
          | Raise e => Raise e
          | Ok value' =>
              sign_parts json_depth repr_depth items'
                (parts ++ [key +++ "=" +++ value'])
          end
      end
  end.

(** Lines 75-82 of [_crypto_data]: the loop, then
    ["&".join(sorted(parts))]. *)
Definition sign_string (json_depth repr_depth : nat) (items : dict)
  : result string :=
  match sign_parts json_depth repr_depth items [] with
  | Raise e => Raise e
  | Ok parts => Ok (join "&" (sorted parts))
  end.

(** ** The client *)

Section Client.

(** *** Crypto.Cipher.AES: the block cipher, as a function of the key and
    one 16-byte block. *)
Variable aes_encrypt_block : bytes -> bytes -> bytes.

(** *** Crypto.PublicKey.RSA and Crypto.Cipher.PKCS1_OAEP: the imported
    key, and the encryption as a function of the key, the seed it draws
    and the message. *)
Variable rsa_key : Type.
Variable rsa_import_key : string -> result rsa_key.
Variable oaep_encrypt : rsa_key -> bytes -> bytes -> result bytes.

(** *** requests.post followed by raise_for_status and json: the parsed
    body, or the text of the RequestException. *)
Variable http_post : string -> dict -> dict -> string + value.

(** CBC mode: each block is xored with the previous ciphertext block (the
    IV for the first) and encrypted. *)
Fixpoint cbc_encrypt_blocks (key prev : bytes) (blocks : list bytes) : bytes :=
  match blocks with
  | [] => []
  | p :: blocks' =>
      let c := aes_encrypt_block key (xor_bytes p prev) in
      c ++ cbc_encrypt_blocks key c blocks'
  end.

Record cbc_cipher : Type := mkCipher { cipher_key : bytes; cipher_iv : bytes }.

(** [AES.new(key, AES.MODE_CBC, iv)] *)
Definition AES_new_cbc (key iv : bytes) : M cbc_cipher :=
  emit (EvAesNew key iv) ;;;
  if negb (existsb (Nat.eqb (List.length key)) [16; 24; 32])
  then lift (Raise ValueError)
  else if negb (Nat.eqb (List.length iv) 16) then lift (Raise ValueError)
  else ret (mkCipher key iv).

(** [cipher.encrypt(data)] *)
Definition cbc_encrypt (cipher : cbc_cipher) (data : bytes) : M bytes :=
  emit (EvAesEncrypt data) ;;;
  if negb (Nat.eqb (List.length data mod 16) 0) then lift (Raise ValueError)
  else ret (cbc_encrypt_blocks (cipher_key cipher) (cipher_iv cipher)
              (chunks 16 data)).

(** [RSA.import_key(pem)] *)
Definition RSA_import_key (pem : string) : M rsa_key :=
  emit (EvRsaImportKey pem) ;;; lift (rsa_import_key pem).

(** [PKCS1_OAEP.new(key)]: SHA-1, so the seed has 20 bytes. *)
Definition PKCS1_OAEP_new (key : rsa_key) : M rsa_key :=
  emit EvOaepNew ;;; ret key.

(** [cipher_rsa.encrypt(message)] *)
Definition oaep_cipher_encrypt (cipher : rsa_key) (message : bytes) : M bytes :=
  emit (EvOaepEncrypt message) ;;;
  seed <- urandom 20 ;;
  lift (oaep_encrypt cipher seed message).

(** *** class HuaRunTongAPI *)

Definition SECRET : string := "c274fc67-19f9-47ba-bb84-585a2e3a1f6a".
Definition PUB_KEY : string := "-----BEGIN PUBLIC KEY-----
MIGfMA0GCSqGSIb3DQEBAQUAA4GNADCBiQKBgQDuAiqDmvn9Rf15o21qkDxN0rUf
ZsX6rVBrtfgY6tamN2Yn+1D3eHZJuKNlucyqeBr6nmfN2srYAX+oyCXr5vWwFclj
PuWh8aSASqyk7MfbAv5Q4VqYS7lsYUQRdw4plZG0NASDeBvHWi3lsHjGfNb7iUvg
rk312EDfBHtRgDvB0QIDAQAB
-----END PUBLIC KEY-----".
Definition APP_ID : string := "API_AUTH_WEB".
Definition HOST : string := "https://mid.huaruntong.cn".

Record HuaRunTongAPI : Type := mkAPI {
  token : string;
  answer_result : Z;
  channel_id : string;
  merchant_code : string;
  store_code : string;
  sys_id : string;
  transaction_uuid : string;
  invite_code : string;
  user_agent : string
}.

Definition default_user_agent : string :=
  "Mozilla/5.0 (iPhone; CPU iPhone OS 16_6 like Mac OS X) AppleWebKit/605.1.15 (KHTML, like Gecko) Version/16.6 Mobile/15E148 Safari/604.1".

(** [__init__]; [user_agent or default] takes the default for [None] and
    for the empty string. *)
Definition __init__ (token : string) (answer_result : Z)
    (channel_id merchant_code store_code sys_id transaction_uuid
       invite_code : string) (user_agent : option string) : HuaRunTongAPI :=
  mkAPI token answer_result channel_id merchant_code store_code sys_id
    transaction_uuid invite_code
    match user_agent with
    | Some (String c s) => String c s
    | _ => default_user_agent
    end.

Definition _generate_aes_key : M bytes := urandom 16.

Definition _crypto_data (params : ref) (api_path : string) : M dict :=
  setitem params "apiPath" (VStr (quote api_path)) ;;;
  setitem params "appId" (VStr APP_ID) ;;;
  timestamp <- time_ms ;;
  setitem params "timestamp" (VInt timestamp) ;;;
  items <- dict_items params ;;
  sign_str <- at_depth (fun json_depth repr_depth =>
                          sign_string json_depth repr_depth items) ;;
  signature <- hmac_new_md5_hexdigest (utf8_encode SECRET)
                 (utf8_encode sign_str) ;;
  setitem params "signature" (VStr signature) ;;;
  aes_key <- _generate_aes_key ;;
  let iv := repeat x00 16 in
  cipher_aes <- AES_new_cbc aes_key iv ;;
  entries <- dict_items params ;;
  plaintext <- at_depth (fun json_depth _ =>
                           json_compact json_depth (VDict entries)) ;;
  padded <- lift (_pad_pkcs7 (utf8_encode plaintext) 16) ;;
  encrypted_data <- cbc_encrypt cipher_aes padded ;;
  let data_b64 := b64encode encrypted_data in
  rsa_key <- RSA_import_key PUB_KEY ;;
  cipher_rsa <- PKCS1_OAEP_new rsa_key ;;
  encrypted_key <- oaep_cipher_encrypt cipher_rsa aes_key ;;
  let key_b64 := b64encode encrypted_key in
  ret [("key", VStr key_b64); ("data", VStr data_b64)].

Definition _get_headers (self : HuaRunTongAPI) : dict :=
  [("User-Agent", VStr (user_agent self));
   ("Accept", VStr "application/json, text/plain, */*");
   ("Content-Type", VStr "application/json;charset=UTF-8");
   ("X-HRT-MID-NEWRISK", VStr "newRisk");
   ("X-Hrt-Mid-Appid", VStr APP_ID);
   ("Origin", VStr "https://cloud.huaruntong.cn");
   ("Referer", VStr "https://cloud.huaruntong.cn/")].

Definition _send_request (self : HuaRunTongAPI) (api_path : string)
    (payload : ref) : M value :=
  let url := HOST +++ api_path in
  copy <- dict_copy payload ;;
  encrypted <- _crypto_data copy api_path ;;
  emit (EvHttpPost url) ;;;
  match http_post url encrypted (_get_headers self) with
  | inr body => ret body
  | inl e => ret (VDict [("success", VBool false); ("error", VStr e)])
  end.

Definition sign_in (self : HuaRunTongAPI) : M value :=
  payload <- new_dict
    [("answerResult", VInt (answer_result self));
     ("channelId", VStr (channel_id self));
     ("merchantCode", VStr (merchant_code self));
     ("storeCode", VStr (store_code self));
     ("sysId", VStr (sys_id self));
     ("transactionUuid", VStr (transaction_uuid self));
     ("inviteCode", VStr (invite_code self));
     ("token", VStr (token self))] ;;
  let api_path := "/api/points/saveQuestionSignin" in
  _send_request self api_path payload.

End Client.

(** ** The canonical string, in the specification's words *)

Definition is_None (v : value) : bool :=
  match v with
  | VNone => true
  | _ => false
  end.

(** The values that are written as compact JSON: mappings and sequences
    in the specification's words, dicts and lists (no tuples) in the
    code. *)
Definition is_mapping_or_sequence (v : value) : bool :=
  match v with
  | VList _ | VTuple _ | VDict _ => true
  | _ => false
  end.

Definition is_dict_or_list (v : value) : bool :=
  match v with
  | VList _ | VDict _ => true
  | _ => false
  end.

Definition is_tuple (v : value) : bool :=
  match v with
  | VTuple _ => true
  | _ => false
  end.

(** The composite values as compact JSON, the others in their literal
    string form. *)
Definition serialize_value (composite : value -> bool)
    (json_depth repr_depth : nat) (v : value) : result string :=
  if composite v then json_compact json_depth v else py_str repr_depth v.

Definition key_value_of (composite : value -> bool)
    (json_depth repr_depth : nat) (entry : string * value) : result string :=
  match serialize_value composite json_depth repr_depth (snd entry) with
  | Raise e => Raise e
  | Ok s => Ok (fst entry +++ "=" +++ s)
  end.

(** The pair of an entry, with dicts and lists as the composite values. *)
Definition key_value : nat -> nat -> string * value -> result string :=
  key_value_of is_dict_or_list.

Fixpoint collect {A B : Type} (f : A -> result B) (l : list A)
  : result (list B) :=
  match l with
  | [] => Ok []
  | a :: l' =>
      match f a with
      | Raise e => Raise e
      | Ok b =>
          match collect f l' with
          | Raise e => Raise e
          | Ok bs => Ok (b :: bs)
          end
      end
  end.

Definition non_null (d : dict) : dict :=
  filter (fun entry => negb (is_None (snd entry))) d.

Definition Canonicalize_of (composite : value -> bool)
    (json_depth repr_depth : nat) (d : dict) : result string :=
  match
    collect (key_value_of composite json_depth repr_depth) (non_null d)
  with
  | Raise e => Raise e
  | Ok pairs => Ok (join "&" (sorted pairs))
  end.

(** The canonical string as the specification words it, every mapping and
    sequence written as JSON, and as it is once tuples are left to their
    literal string form. *)
Definition Canonicalize_spec : nat -> nat -> dict -> result string :=
  Canonicalize_of is_mapping_or_sequence.

Definition Canonicalize : nat -> nat -> dict -> result string :=
  Canonicalize_of is_dict_or_list.

(** Two outcomes agree when both are the same text or both are an
    exception. *)
Definition same_outcome (r1 r2 : result string) : Prop :=
  match r1, r2 with
  | Ok s1, Ok s2 => s1 = s2
  | Raise _, Raise _ => True
  | _, _ => False
  end.

(** ** CBC decryption, the inverse the data field is read back with *)

Section CBCDecrypt.
Variable aes_decrypt_block : bytes -> bytes -> bytes.

Fixpoint cbc_decrypt_blocks (key prev : bytes) (blocks : list bytes) : bytes :=
  match blocks with
  | [] => []
  | c :: blocks' =>
      xor_bytes (aes_decrypt_block key c) prev
        ++ cbc_decrypt_blocks key c blocks'
  end.

Definition cbc_decrypt (key iv data : bytes) : bytes :=
  cbc_decrypt_blocks key iv (chunks 16 data).
End CBCDecrypt.

(** ** What a run of [_crypto_data] is expected to hold *)

(** The parameter map after lines 70-72. *)
Definition assembled (d : dict) (api_path : string) (timestamp : Z) : dict :=
  dict_set
    (dict_set (dict_set d "apiPath" (VStr (quote api_path)))
       "appId" (VStr APP_ID))
    "timestamp" (VInt timestamp).

(** The Signer: HMAC-MD5 of the canonical string under the secret, as
    lower-case hexadecimal text. *)
Definition sign (secret canonical : string) : string :=
  hex (hmac_md5 (utf8_encode secret) (utf8_encode canonical)).

Definition zero_iv : bytes := repeat x00 16.

(** The padded plaintext: [n] bytes of value [n], with [n] between 1 and
    16. *)
Definition padded16 (data : bytes) : bytes :=
  let n := (16 - List.length data mod 16)%nat in
  data ++ repeat (byte_of_N (N.of_nat n)) n.

(** [n] bytes of the random source, from position [from]. *)
Definition draw (w : world) (from n : nat) : bytes :=
  map (entropy w) (seq from n).

(** One entry of a dict in compact JSON: ["key":value]. *)
Definition json_entry (depth : nat) (entry : string * value) : result string :=
  match json_compact depth (snd entry) with
  | Raise e => Raise e
  | Ok s => Ok (encode_basestring_ascii (fst entry) +++ ":" +++ s)
  end.

(** The keys of a dict after [d[k] = ...] for each [k] of [new], in order. *)
Definition keys_after (ks new : list string) : list string :=
  fold_left
    (fun ks k => if existsb (String.eqb k) ks then ks else ks ++ [k]) new ks.

Definition injected_keys : list string :=
  ["apiPath"; "appId"; "timestamp"; "signature"].

(** The calls that create a cipher, encrypt or wrap a key. *)
Definition is_cipher_call (ev : event) : bool :=
  match ev with
  | EvAesNew _ _ | EvAesEncrypt _ | EvRsaImportKey _ | EvOaepNew
  | EvOaepEncrypt _ => true
  | _ => false
  end.

(** The calls that encrypt data or wrap a key. *)
Definition is_encryption (ev : event) : bool :=
  match ev with
  | EvAesEncrypt _ | EvRsaImportKey _ | EvOaepNew | EvOaepEncrypt _ => true
  | _ => false
  end.

Definition is_urandom (ev : event) : bool :=
  match ev with
  | EvUrandom _ => true
  | _ => false
  end.

Definition is_clock_read (ev : event) : bool :=
  match ev with
  | EvTime _ => true
  | _ => false
  end.

Definition is_lower_hex (c : ascii) : bool :=
  existsb (Ascii.eqb c) (list_ascii_of_string "0123456789abcdef").

(** ** A concrete setting for the examples

    The scenario of the specification: the parameters
    {"answerResult":1,"channelId":"APP"}, the sign-in path, the clock at
    1700000000000 ms, and a random source that counts 0, 1, 2, ...  The
    libraries that are taken as parameters are instantiated with stand-ins
    that satisfy the contracts used: a block cipher that xors the block with
    the key, and a key wrap that prepends its seed. *)

Definition xor_block (key block : bytes) : bytes := xor_bytes block key.

Definition import_pem (pem : string) : result unit := Ok tt.

Definition seed_wrap (_ : unit) (seed message : bytes) : result bytes :=
  Ok (seed ++ message).

Definition seed_unwrap (_ : unit) (c : bytes) : option bytes :=
  Some (skipn 20 c).

Definition no_network (url : string) (body headers : dict) : string + value :=
  inl "connection refused".

Definition golden_path : string := "/api/points/saveQuestionSignin".

Definition golden_params : dict :=
  [("answerResult", VInt 1); ("channelId", VStr "APP")].

Definition counting (n : nat) : byte := byte_of_N (N.of_nat n).

(** The recursion levels that are left, for [json.dumps] and for [str]: in
    the order of what a CPython with the default limit of 1000 leaves to a
    call made near the top of the stack. *)
Definition deep : nat := 990.

Definition golden_world : world :=
  mkWorld [golden_params] (fun _ => 1700000000000%Z) 0 counting 0 [] deep deep.

Definition golden_run : result dict * world :=
  _crypto_data xor_block unit import_pem seed_wrap 0 golden_path golden_world.

Definition golden_envelope : dict :=
  match fst golden_run with
  | Ok envelope => envelope
  | Raise _ => []
  end.

(** The same key bytes, another seed. *)
Definition reseeded (n : nat) : byte :=
  if Nat.ltb n 16 then counting n else x2a.

Definition reseeded_world : world :=
  mkWorld [golden_params] (fun _ => 1700000000001%Z) 0 reseeded 0 [] deep deep.

Definition reseeded_run : result dict * world :=
  _crypto_data xor_block unit import_pem seed_wrap 0 golden_path
    reseeded_world.

Definition reseeded_envelope : dict :=
  match fst reseeded_run with
  | Ok envelope => envelope
  | Raise _ => []
  end.

(** Parameters with a None, and parameters with an object that
    [json.dumps] does not know. *)
Definition null_params : dict :=
  [("answerResult", VInt 1); ("inviteCode", VNone)].

Definition null_world : world :=
  mkWorld [null_params] (fun _ => 1700000000000%Z) 0 counting 0 [] deep deep.

Definition null_run : result dict * world :=
  _crypto_data xor_block unit import_pem seed_wrap 0 golden_path null_world.

Definition null_envelope : dict :=
  match fst null_run with
  | Ok envelope => envelope
  | Raise _ => []
  end.

Definition object_params : dict :=
  [("answerResult", VInt 1); ("token", VObject "<object object at 0x7f>")].

Definition object_world : world :=
  mkWorld [object_params] (fun _ => 1700000000000%Z) 0 counting 0 [] deep deep.

Definition golden_self : HuaRunTongAPI :=
  __init__ "eyJ0eXAiOiJKV1QifQ" 1 "APP" "1641000001532" "qiandaosonjifen"
    "T0000001" EmptyString EmptyString None.

Definition golden_request : result value * world :=
  _send_request xor_block unit import_pem seed_wrap no_network golden_self
    golden_path 0 golden_world.

(** A text with each apostrophe read as a double quote, to write JSON
    down. *)
Fixpoint json_text (s : string) : string :=
  match s with
  | EmptyString => EmptyString
  | String c s' =>
      String (if Ascii.eqb c "'"%char then DQUOTE else c) (json_text s')
  end.

Definition golden_canonical : string :=
  "answerResult=1&apiPath=%2Fapi%2Fpoints%2FsaveQuestionSignin&appId=API_AUTH_WEB&channelId=APP&timestamp=1700000000000".

Definition golden_signature : string := "188165ebbd0600bbe50cf488631cd76f".

Definition golden_plaintext : string :=
  json_text "{'answerResult':1,'channelId':'APP','apiPath':'%2Fapi%2Fpoints%2FsaveQuestionSignin','appId':'API_AUTH_WEB','timestamp':1700000000000,'signature':'188165ebbd0600bbe50cf488631cd76f'}".

(** The order [sorted] sorts by: [<=] on [str]. *)
Definition str_le (a b : string) : Prop := is_true (String.leb a b).

(** Two results agree up to the order of what they collected. *)
Definition same_up_to_order (r1 r2 : result (list string)) : Prop :=
  match r1, r2 with
  | Ok l1, Ok l2 => Permutation l1 l2
  | Raise _, Raise _ => True
  | _, _ => False
  end.

(** ** Induction on values, through lists and dicts *)

Section ValueInd.
Variable P : value -> Prop.
Hypothesis HNone : P VNone.
Hypothesis HBool : forall b, P (VBool b).
Hypothesis HInt : forall n, P (VInt n).
Hypothesis HFloat : forall f, P (VFloat f).
Hypothesis HStr : forall s, P (VStr s).
Hypothesis HList : forall items, Forall P items -> P (VList items).
Hypothesis HTuple : forall items, Forall P items -> P (VTuple items).
Hypothesis HDict :
  forall entries, Forall (fun e => P (snd e)) entries -> P (VDict entries).
Hypothesis HObject : forall repr, P (VObject repr).

Fixpoint value_nested_ind (v : value) : P v :=
  match v with
  | VNone => HNone
  | VBool b => HBool b
  | VInt n => HInt n
  | VFloat f => HFloat f
  | VStr s => HStr s
  | VList items =>
      HList items
        ((fix go (xs : list value) : Forall P xs :=
            match xs with
            | [] => Forall_nil P
            | x :: xs' => Forall_cons x (value_nested_ind x) (go xs')
            end) items)
  | VTuple items =>
      HTuple items
        ((fix go (xs : list value) : Forall P xs :=
            match xs with
            | [] => Forall_nil P
            | x :: xs' => Forall_cons x (value_nested_ind x) (go xs')
            end) items)
  | VDict entries =>
      HDict entries
        ((fix go (xs : list (string * value))
            : Forall (fun e => P (snd e)) xs :=
            match xs with
            | [] => Forall_nil _
            | e :: xs' =>
                Forall_cons e (value_nested_ind (snd e)) (go xs')
            end) entries)
  | VObject repr => HObject repr
  end.
End ValueInd.

(** Parameters with a None under a key that the client sets itself. *)
Definition unsigned_params : dict :=
  [("answerResult", VInt 1); ("signature", VNone)].

Definition unsigned_world : world :=
  mkWorld [unsigned_params] (fun _ => 1700000000000%Z) 0 counting 0 [] deep deep.

Definition unsigned_run : result dict * world :=
  _crypto_data xor_block unit import_pem seed_wrap 0 golden_path
    unsigned_world.

Definition unsigned_envelope : dict :=
  match fst unsigned_run with
  | Ok envelope => envelope
  | Raise _ => []
  end.

(** ** Character classes for the further properties *)

(** The characters [quote] can produce: the unreserved ones and [%]. *)
Definition is_url_safe (c : ascii) : bool :=
  (always_safe (byte_of_ascii c) || Ascii.eqb c "%"%char)%bool.

(** The printable ASCII characters, [' '..'~']. *)
Definition is_printable (c : ascii) : bool :=
  (Nat.leb 32 (nat_of_ascii c) && Nat.leb (nat_of_ascii c) 126)%bool.


Definition is_http_post (ev : event) : bool :=
  match ev with
  | EvHttpPost _ => true
  | _ => false
  end.

(** Further settings for the examples: the run that follows the golden one
    in the same world, and a world with the golden clock and another random
    source. *)
Definition second_run : result dict * world :=
  _crypto_data xor_block unit import_pem seed_wrap 0 golden_path
    (snd golden_run).

Definition second_envelope : dict :=
  match fst second_run with
  | Ok envelope => envelope
  | Raise _ => []
  end.




Definition golden_sign_in : result value * world :=
  sign_in xor_block unit import_pem seed_wrap no_network golden_self
    golden_world.

(** Two maps that differ and are signed alike, and a map with a tuple. *)
Definition joined_params : dict := [("z", VStr "1&zz=2")].

Definition joined_world : world :=
  mkWorld [joined_params] (fun _ => 1700000000000%Z) 0 counting 0 [] deep
    deep.

Definition joined_run : result dict * world :=
  _crypto_data xor_block unit import_pem seed_wrap 0 golden_path joined_world.

Definition joined_envelope : dict :=
  match fst joined_run with
  | Ok envelope => envelope
  | Raise _ => []
  end.

Definition split_params : dict := [("z", VStr "1"); ("zz", VStr "2")].

Definition split_world : world :=
  mkWorld [split_params] (fun _ => 1700000000000%Z) 0 counting 0 [] deep deep.

Definition split_run : result dict * world :=
  _crypto_data xor_block unit import_pem seed_wrap 0 golden_path split_world.

Definition split_envelope : dict :=
  match fst split_run with
  | Ok envelope => envelope
  | Raise _ => []
  end.

Definition tuple_params : dict :=
  [("answerResult", VInt 1); ("position", VTuple [VInt 1; VInt 2])].

Definition tuple_world : world :=
  mkWorld [tuple_params] (fun _ => 1700000000000%Z) 0 counting 0 [] deep deep.

Definition tuple_run : result dict * world :=
  _crypto_data xor_block unit import_pem seed_wrap 0 golden_path tuple_world.

Definition tuple_envelope : dict :=
  match fst tuple_run with
  | Ok envelope => envelope
  | Raise _ => []
  end.

(** A list nested two deep, in a world that leaves [json.dumps] two
    levels. *)
Definition nested_params : dict :=
  [("answerResult", VInt 1); ("path", VList [VList [VInt 1]])].

Definition shallow_world : world :=
  mkWorld [nested_params] (fun _ => 1700000000000%Z) 0 counting 0 [] 2 deep.

Definition accented : value :=
  VDict [("k", VStr (String (ascii_of_nat 233) EmptyString))].

(** The characters of a Base64 text: the alphabet and the padding [=]. *)
Definition is_base64_char (c : ascii) : bool :=
  (existsb (Ascii.eqb c) (list_ascii_of_string b64_alphabet)
   || Ascii.eqb c "="%char)%bool.

(** * Proofs *)

(** ** Collecting results *)

Lemma collect_Ok_Forall2 :
  forall (A B : Type) (f : A -> result B) l bs,
    collect f l = Ok bs -> Forall2 (fun a b => f a = Ok b) l bs.
Proof.
  induction l as [|a l IH]; simpl; intros bs H.
  - inversion H. constructor.
  - destruct (f a) eqn:Ea; [|discriminate].
    destruct (collect f l) eqn:El; [|discriminate].
    inversion H; subst. constructor; auto.
Qed.

Lemma collect_Ok_In :
  forall (A B : Type) (f : A -> result B) l bs a b,
    collect f l = Ok bs -> In a l -> f a = Ok b -> In b bs.
Proof.
  intros A B f l bs a b H. apply collect_Ok_Forall2 in H.
  induction H as [|x y l bs Hxy HF IH]; intros HIn Ha; [contradiction|].
  destruct HIn as [->|HIn].
  - left. congruence.
  - right. auto.
Qed.

Lemma collect_In_Raise :
  forall (A B : Type) (f : A -> result B) l a e,
    In a l -> f a = Raise e -> exists e', collect f l = Raise e'.
Proof.
  induction l as [|x l IH]; intros a e HIn Ha; [contradiction|]. simpl.
  destruct HIn as [->|HIn].
  - rewrite Ha. eauto.
  - destruct (f x); [|eauto].
    destruct (IH a e HIn Ha) as [e' He']. rewrite He'. eauto.
Qed.

Lemma collect_ext_Ok :
  forall (A B : Type) (f g : A -> result B) l bs,
    Forall (fun a => forall b, f a = Ok b -> g a = Ok b) l ->
    collect f l = Ok bs -> collect g l = Ok bs.
Proof.
  intros A B f g l. induction l as [|a l IH]; intros bs HF H; [exact H|].
  inversion HF as [|? ? Ha Hl]; subst. simpl in *.
  destruct (f a) as [b|] eqn:Ea; [|discriminate].
  destruct (collect f l) as [bs'|] eqn:El; [|discriminate].
  rewrite (Ha b eq_refl), (IH bs' Hl eq_refl). exact H.
Qed.

Lemma collect_ext :
  forall (A B : Type) (f g : A -> result B) l,
    Forall (fun a => f a = g a) l -> collect f l = collect g l.
Proof.
  intros A B f g l. induction 1 as [|a l Ha Hl IH]; [reflexivity|].
  simpl. now rewrite Ha, IH.
Qed.

(** ** [json.dumps] and [repr] item by item *)

Lemma json_compact_list :
  forall depth items,
    json_compact (S depth) (VList items) =
    match collect (json_compact depth) items with
    | Raise e => Raise e
    | Ok chunks => Ok ("[" +++ join "," chunks +++ "]")
    end.
Proof.
  intros depth items. unfold json_compact at 1. cbn [json_dumps].
  match goal with
  | |- match ?c items with _ => _ end = _ =>
      assert (Hc : c items = collect (json_compact depth) items)
  end.
  { induction items as [|x items IH]; [reflexivity|].
    cbn [collect]. fold (json_compact depth x).
    destruct (json_compact depth x); [|reflexivity].
    now rewrite IH. }
  now rewrite Hc.
Qed.

Lemma json_compact_tuple :
  forall depth items,
    json_compact depth (VTuple items) = json_compact depth (VList items).
Proof. reflexivity. Qed.

Lemma json_compact_dict :
  forall depth d,
    json_compact (S depth) (VDict d) =
    match collect (json_entry depth) d with
    | Raise e => Raise e
    | Ok items => Ok ("{" +++ join "," items +++ "}")
    end.
Proof.
  intros depth d. unfold json_compact at 1. cbn [json_dumps].
  match goal with
  | |- match ?c d with _ => _ end = _ =>
      assert (Hc : c d = collect (json_entry depth) d)
  end.
  { induction d as [|[k x] d IH]; [reflexivity|].
    cbn [collect]. unfold json_entry at 1. cbn [fst snd].
    fold (json_compact depth x). destruct (json_compact depth x); [|reflexivity].
    now rewrite IH. }
  now rewrite Hc.
Qed.

(** More levels do not change what [json.dumps] returns. *)
Lemma json_compact_more_levels :
  forall v depth depth' s,
    json_compact depth v = Ok s -> (depth <= depth')%nat ->
    json_compact depth' v = Ok s.
Proof.
  induction v as [|b|n|f|s0|items IH|items IH|entries IH|repr]
    using value_nested_ind; intros depth depth' s Hs Hle;
    try exact Hs.
  - destruct depth as [|depth]; [discriminate|].
    destruct depth' as [|depth']; [lia|].
    rewrite json_compact_list in *.
    destruct (collect (json_compact depth) items) as [chunks|] eqn:Ec;
      [|discriminate].
    rewrite (collect_ext_Ok _ _ (json_compact depth) (json_compact depth') _ _ ltac:(
               eapply Forall_impl; [|exact IH]; cbv beta;
               intros a Ha b Hb; apply (Ha depth); [exact Hb|lia]) Ec).
    exact Hs.
  - rewrite json_compact_tuple in *.
    destruct depth as [|depth]; [discriminate|].
    destruct depth' as [|depth']; [lia|].
    rewrite json_compact_list in *.
    destruct (collect (json_compact depth) items) as [chunks|] eqn:Ec;
      [|discriminate].
    rewrite (collect_ext_Ok _ _ (json_compact depth) (json_compact depth') _ _ ltac:(
               eapply Forall_impl; [|exact IH]; cbv beta;
               intros a Ha b Hb; apply (Ha depth); [exact Hb|lia]) Ec).
    exact Hs.
  - destruct depth as [|depth]; [discriminate|].
    destruct depth' as [|depth']; [lia|].
    rewrite json_compact_dict in *.
    destruct (collect (json_entry depth) entries) as [chunks|] eqn:Ec;
      [|discriminate].
    rewrite (collect_ext_Ok _ _ (json_entry depth) (json_entry depth') _ _ ltac:(
               eapply Forall_impl; [|exact IH]; cbv beta;
               intros [k x] Ha b; unfold json_entry; cbn [fst snd] in *;
               destruct (json_compact depth x) as [sx|] eqn:Ex;
               [|intros Hb; discriminate Hb];
               rewrite (Ha depth depth' sx Ex ltac:(lia)); auto) Ec).
    exact Hs.
  - destruct depth; discriminate.
Qed.

(** So what it returns does not depend on the levels, and with fewer levels
    a value that it rejects is still rejected. *)
Lemma json_compact_same_text :
  forall v depth1 depth2 s1 s2,
    json_compact depth1 v = Ok s1 -> json_compact depth2 v = Ok s2 -> s1 = s2.
Proof.
  intros v depth1 depth2 s1 s2 H1 H2.
  apply (json_compact_more_levels _ _ (Nat.max depth1 depth2)) in H1; [|lia].
  apply (json_compact_more_levels _ _ (Nat.max depth1 depth2)) in H2; [|lia].
  congruence.
Qed.

Lemma json_compact_fewer_levels :
  forall v depth depth' e,
    json_compact depth v = Raise e -> (depth' <= depth)%nat ->
    exists e', json_compact depth' v = Raise e'.
Proof.
  intros v depth depth' e He Hle.
  destruct (json_compact depth' v) as [s|e'] eqn:E; [|eauto].
  rewrite (json_compact_more_levels _ _ _ _ E Hle) in He. discriminate.
Qed.

Lemma py_repr_list :
  forall depth items,
    py_repr (S depth) (VList items) =
    match collect (py_repr depth) items with
    | Raise e => Raise e
    | Ok ss => Ok ("[" +++ join ", " ss +++ "]")
    end.
Proof.
  intros depth items. cbn [py_repr].
  match goal with
  | |- match ?c items with _ => _ end = _ =>
      assert (Hc : c items = collect (py_repr depth) items)
  end.
  { induction items as [|x items IH]; [reflexivity|].
    cbn [collect]. destruct (py_repr depth x); [|reflexivity].
    now rewrite IH. }
  now rewrite Hc.
Qed.

Lemma py_repr_tuple :
  forall depth items,
    py_repr (S depth) (VTuple items) =
    match collect (py_repr depth) items with
    | Raise e => Raise e
    | Ok [s] => Ok ("(" +++ s +++ ",)")
    | Ok ss => Ok ("(" +++ join ", " ss +++ ")")
    end.
Proof.
  intros depth items. cbn [py_repr].
  match goal with
  | |- match ?c items with _ => _ end = _ =>
      assert (Hc : c items = collect (py_repr depth) items)
  end.
  { induction items as [|x items IH]; [reflexivity|].
    cbn [collect]. destruct (py_repr depth x); [|reflexivity].
    now rewrite IH. }
  now rewrite Hc.
Qed.

(** The text of one entry in the [repr] of a dict. *)
Lemma py_repr_dict :
  forall depth entries,
    py_repr (S depth) (VDict entries) =
    match
      collect (fun entry : string * value =>
                 match py_repr depth (snd entry) with
                 | Raise e => Raise e
                 | Ok s => Ok (repr_str (fst entry) +++ ": " +++ s)
                 end) entries
    with
    | Raise e => Raise e
    | Ok ss => Ok ("{" +++ join ", " ss +++ "}")
    end.
Proof.
  intros depth entries. cbn [py_repr].
  match goal with
  | |- match ?c entries with _ => _ end = match collect ?f _ with _ => _ end =>
      assert (Hc : c entries = collect f entries)
  end.
  { induction entries as [|[k x] entries IH]; [reflexivity|].
    cbn [collect fst snd]. destruct (py_repr depth x); [|reflexivity].
    now rewrite IH. }
  now rewrite Hc.
Qed.

(** More levels do not change what [repr] and [str] return. *)
Lemma py_repr_more_levels :
  forall v depth depth' s,
    py_repr depth v = Ok s -> (depth <= depth')%nat -> py_repr depth' v = Ok s.
Proof.
  induction v as [|b|n|f|s0|items IH|items IH|entries IH|repr]
    using value_nested_ind; intros depth depth' s Hs Hle;
    (destruct depth as [|depth]; [discriminate|]);
    (destruct depth' as [|depth']; [lia|]); try exact Hs.
  - rewrite py_repr_list in *.
    destruct (collect (py_repr depth) items) as [ss|] eqn:Ec; [|discriminate].
    rewrite (collect_ext_Ok _ _ (py_repr depth) (py_repr depth') _ _ ltac:(
               eapply Forall_impl; [|exact IH]; cbv beta;
               intros a Ha b Hb; apply (Ha depth); [exact Hb|lia]) Ec).
    exact Hs.
  - rewrite py_repr_tuple in *.
    destruct (collect (py_repr depth) items) as [ss|] eqn:Ec; [|discriminate].
    rewrite (collect_ext_Ok _ _ (py_repr depth) (py_repr depth') _ _ ltac:(
               eapply Forall_impl; [|exact IH]; cbv beta;
               intros a Ha b Hb; apply (Ha depth); [exact Hb|lia]) Ec).
    exact Hs.
  - rewrite py_repr_dict in *.
    match type of Hs with
    | match collect ?f entries with _ => _ end = _ =>
        destruct (collect f entries) as [ss|] eqn:Ec; [|discriminate]
    end.
    match type of Ec with
    | collect ?f entries = _ =>
    match goal with
    | |- match collect ?g entries with _ => _ end = _ =>
        rewrite (collect_ext_Ok _ _ f g _ _ ltac:(
                   eapply Forall_impl; [|exact IH]; cbv beta;
                   intros [k x] Ha b; cbn [fst snd] in *;
                   destruct (py_repr depth x) as [sx|] eqn:Ex;
                   [|intros Hb; discriminate Hb];
                   rewrite (Ha depth depth' sx Ex ltac:(lia)); auto) Ec)
    end end.
    exact Hs.
Qed.

Lemma py_str_more_levels :
  forall v depth depth' s,
    py_str depth v = Ok s -> (depth <= depth')%nat -> py_str depth' v = Ok s.
Proof.
  intros v depth depth' s Hs Hle.
  destruct v; try exact Hs; cbn [py_str] in *;
    eapply py_repr_more_levels; eassumption.
Qed.

Lemma py_str_same_text :
  forall v depth1 depth2 s1 s2,
    py_str depth1 v = Ok s1 -> py_str depth2 v = Ok s2 -> s1 = s2.
Proof.
  intros v depth1 depth2 s1 s2 H1 H2.
  apply (py_str_more_levels _ _ (Nat.max depth1 depth2)) in H1; [|lia].
  apply (py_str_more_levels _ _ (Nat.max depth1 depth2)) in H2; [|lia].
  congruence.
Qed.

(** ** The order on [str] and the uniqueness of a sorted arrangement *)

Lemma ascii_compare_trans_gt :
  forall a b c, Ascii.compare a b <> Gt -> Ascii.compare b c <> Gt ->
                Ascii.compare a c <> Gt.
Proof.
  unfold Ascii.compare. intros a b c H1 H2.
  rewrite N.compare_gt_iff in *. lia.
Qed.

Lemma str_le_trans : Transitive str_le.
Proof.
  unfold Transitive, str_le, is_true, String.leb.
  intros x. induction x as [|a x IH]; intros y z Hxy Hyz.
  - destruct z; reflexivity.
  - destruct y as [|b y]; [discriminate|].
    destruct z as [|c z]; [simpl in Hyz; discriminate|].
    simpl in *.
    destruct (Ascii.compare a b) eqn:Eab; try discriminate;
      destruct (Ascii.compare b c) eqn:Ebc; try discriminate.
    + apply Ascii.compare_eq_iff in Eab, Ebc. subst.
      replace (Ascii.compare c c) with Eq
        by (symmetry; unfold Ascii.compare; apply N.compare_refl).
      now apply (IH y z).
    + apply Ascii.compare_eq_iff in Eab. subst. now rewrite Ebc.
    + apply Ascii.compare_eq_iff in Ebc. subst. now rewrite Eab.
    + unfold Ascii.compare in *. rewrite N.compare_lt_iff in Eab, Ebc.
      assert (H : (N_of_ascii a < N_of_ascii c)%N) by lia.
      apply N.compare_lt_iff in H. now rewrite H.
Qed.

Lemma sorted_is_sorted :
  forall parts, StronglySorted str_le (sorted parts).
Proof. intros. apply StrSort.StronglySorted_sort. exact str_le_trans. Qed.

Lemma sorted_is_permutation :
  forall parts, Permutation parts (sorted parts).
Proof. intros. apply StrSort.Permuted_sort. Qed.

Lemma strongly_sorted_unique :
  forall l1 l2 : list string,
    StronglySorted str_le l1 -> StronglySorted str_le l2 ->
    Permutation l1 l2 -> l1 = l2.
Proof.
  induction l1 as [|a l1 IH]; intros l2 S1 S2 HP.
  - apply Permutation_nil in HP. now subst.
  - destruct l2 as [|b l2].
    + apply Permutation_sym, Permutation_nil in HP. discriminate.
    + inversion S1 as [|? ? S1' F1]; inversion S2 as [|? ? S2' F2]; subst.
      assert (a = b).
      { assert (Ha : In a (b :: l2))
          by (eapply Permutation_in; [exact HP | now left]).
        assert (Hb : In b (a :: l1))
          by (eapply Permutation_in; [apply Permutation_sym; exact HP | now left]).
        destruct Ha as [->|Ha]; [reflexivity|].
        destruct Hb as [->|Hb]; [reflexivity|].
        rewrite Forall_forall in F1, F2.
        apply String.leb_antisym; [apply F1 | apply F2]; assumption. }
      subst b. f_equal. apply IH; auto.
      eapply Permutation_cons_inv; exact HP.
Qed.

Lemma sorted_permutation_invariant :
  forall l1 l2, Permutation l1 l2 -> sorted l1 = sorted l2.
Proof.
  intros l1 l2 HP. apply strongly_sorted_unique; try apply sorted_is_sorted.
  eapply Permutation_trans; [apply Permutation_sym, sorted_is_permutation|].
  eapply Permutation_trans; [exact HP | apply sorted_is_permutation].
Qed.

(** ** The signing loop against the canonical string *)

Lemma sign_parts_collect :
  forall jd rd items parts,
    sign_parts jd rd items parts =
    match collect (key_value jd rd) (non_null items) with
    | Raise e => Raise e
    | Ok pairs => Ok (parts ++ pairs)
    end.
Proof.
  intros jd rd. induction items as [|[k v] items IH]; intros parts.
  - simpl. now rewrite app_nil_r.
  - assert (Hgo : forall s,
               sign_parts jd rd items (parts ++ [k +++ "=" +++ s]) =
               match
                 match collect (key_value jd rd) (non_null items) with
                 | Ok bs => Ok ((k +++ "=" +++ s) :: bs)
                 | Raise e => Raise e
                 end
               with
               | Ok pairs => Ok (parts ++ pairs)
               | Raise e => Raise e
               end).
    { intros s. rewrite IH.
      destruct (collect (key_value jd rd) (non_null items));
        [rewrite <- app_assoc|]; reflexivity. }
    destruct v as [|b|n|f|s|l|l|entries|repr];
      cbn [sign_parts non_null filter snd is_None negb collect];
      try apply IH;
      unfold key_value at 1, key_value_of, serialize_value;
      cbn [fst snd is_dict_or_list];
      match goal with
      | |- match ?c with _ => _ end = _ => destruct c; [apply Hgo|reflexivity]
      end.
Qed.

Lemma sign_string_Canonicalize :
  forall jd rd d, sign_string jd rd d = Canonicalize jd rd d.
Proof.
  intros jd rd d. unfold sign_string, Canonicalize, Canonicalize_of.
  rewrite sign_parts_collect. unfold key_value.
  now destruct (collect _ (non_null d)).
Qed.

(** Without a tuple among the values, the two readings of "composite"
    agree. *)
Lemma Canonicalize_without_tuples :
  forall jd rd d,
    Forall (fun entry => is_tuple (snd entry) = false) d ->
    Canonicalize jd rd d = Canonicalize_spec jd rd d.
Proof.
  intros jd rd d Hd. unfold Canonicalize, Canonicalize_spec, Canonicalize_of.
  rewrite (collect_ext _ _ (key_value_of is_dict_or_list jd rd)
             (key_value_of is_mapping_or_sequence jd rd)); [reflexivity|].
  unfold non_null. apply Forall_forall. intros [k v] HIn.
  apply filter_In in HIn. destruct HIn as [HIn _].
  rewrite Forall_forall in Hd. specialize (Hd _ HIn). cbn [snd] in Hd.
  unfold key_value_of, serialize_value. cbn [fst snd].
  destruct v; try reflexivity. discriminate.
Qed.

Lemma non_null_permutation :
  forall d1 d2, Permutation d1 d2 -> Permutation (non_null d1) (non_null d2).
Proof.
  unfold non_null. induction 1 as [|x l l' HP IH|x y l|l l' l'' H1 IH1 H2 IH2];
    simpl.
  - constructor.
  - destruct (negb (is_None (snd x))); [constructor|]; assumption.
  - destruct (negb (is_None (snd x))), (negb (is_None (snd y)));
      try apply Permutation_refl; apply perm_swap.
  - eapply Permutation_trans; eassumption.
Qed.

Lemma collect_permutation :
  forall (f : string * value -> result string) l1 l2,
    Permutation l1 l2 -> same_up_to_order (collect f l1) (collect f l2).
Proof.
  unfold same_up_to_order.
  induction 1 as [|x l l' HP IH|x y l|l l' l'' H1 IH1 H2 IH2]; simpl.
  - constructor.
  - destruct (f x); [|exact I].
    destruct (collect f l), (collect f l'); try contradiction; auto.
  - destruct (f x), (f y); try exact I;
      destruct (collect f l); try exact I. apply perm_swap.
  - destruct (collect f l), (collect f l'), (collect f l'');
      try contradiction; try exact I.
    eapply Permutation_trans; eassumption.
Qed.

Lemma sign_string_permutation :
  forall jd rd d1 d2,
    Permutation d1 d2 ->
    same_outcome (sign_string jd rd d1) (sign_string jd rd d2).
Proof.
  intros jd rd d1 d2 HP. rewrite !sign_string_Canonicalize.
  unfold Canonicalize, Canonicalize_of, same_outcome.
  pose proof (collect_permutation (key_value_of is_dict_or_list jd rd) _ _
                (non_null_permutation _ _ HP)) as H.
  unfold same_up_to_order in H.
  destruct (collect _ (non_null d1)) eqn:E1,
           (collect _ (non_null d2)) eqn:E2; try contradiction; [|exact I].
  f_equal. now apply sorted_permutation_invariant.
Qed.

(** C1, as the code has it.  The string that is signed is the canonical
    string in which the composite values are the dicts and the lists: every
    entry whose value is not None gives one "key=value", a dict or a list as
    compact JSON and every other value, a tuple too, as str prints it; the
    strings are sorted as whole strings under the order on str, and joined
    with "&".  On a map without tuples that is the specification's canonical
    string.  The sorted list is ordered and a rearrangement of the collected
    strings, so two maps with the same entries in another order give the
    same string, or both of them an exception; both orders of
    {"a":"1","b":"2"} give "a=1&b=2", and with the keys "a" and "a0" the pair
    of "a0" comes first, which sorting by key would not do. *)
Theorem canonical_string_sorted_pairs :
  (forall jd rd d, sign_string jd rd d = Canonicalize jd rd d) /\
  (forall jd rd d,
      Forall (fun entry => is_tuple (snd entry) = false) d ->
      sign_string jd rd d = Canonicalize_spec jd rd d) /\
  (forall jd rd k items,
      key_value jd rd (k, VTuple items)
      = match py_str rd (VTuple items) with
        | Raise e => Raise e
        | Ok s => Ok (k +++ "=" +++ s)
        end) /\
  (forall pairs,
      StronglySorted str_le (sorted pairs) /\ Permutation pairs (sorted pairs)) /\
  (forall jd rd d1 d2,
      Permutation d1 d2 ->
      same_outcome (sign_string jd rd d1) (sign_string jd rd d2)) /\
  (forall jd rd,
      sign_string jd rd [("a", VStr "1"); ("b", VStr "2")] = Ok "a=1&b=2" /\
      sign_string jd rd [("b", VStr "2"); ("a", VStr "1")] = Ok "a=1&b=2" /\
      sign_string jd rd [("a", VStr "1"); ("a0", VStr "1")] = Ok "a0=1&a=1") /\
  (forall jd rd,
      (2 <= jd)%nat -> (2 <= rd)%nat ->
      sign_string jd rd
        [("n", VInt 7); ("skip", VNone); ("t", VBool true);
         ("l", VList [VInt 1; VNone; VStr "x y"]);
         ("m", VDict [("k", VList [])]);
         ("p", VTuple [VInt 1; VInt 2])]
      = Ok ("l=[1,null," +++ chr 34 +++ "x y" +++ chr 34 +++ "]&m={"
            +++ chr 34 +++ "k" +++ chr 34 +++ ":[]}&n=7&p=(1, 2)&t=True")).
Proof.
  split; [exact sign_string_Canonicalize|].
  split.
  { intros jd rd d Hd. rewrite sign_string_Canonicalize.
    now apply Canonicalize_without_tuples. }
  split; [reflexivity|].
  split; [intros; split; [apply sorted_is_sorted|apply sorted_is_permutation]|].
  split; [exact sign_string_permutation|].
  split; [intros jd rd; repeat split; vm_compute; reflexivity|].
  intros jd rd Hjd Hrd.
  destruct jd as [|[|jd]]; try lia; destruct rd as [|[|rd]]; try lia.
  vm_compute. reflexivity.
Qed.

(** C1, as the specification has it, fails on a tuple, a sequence that
    [json.dumps] writes as an array: line 78 sends only dicts and lists to
    [json.dumps], so the pair of {"k": (1, 2)} is "k=(1, 2)", the text of
    str, where the specification's canonical string has the compact JSON
    "k=[1,2]". *)
Lemma tuple_is_signed_as_str_prints_it :
  is_mapping_or_sequence (VTuple [VInt 1; VInt 2]) = true /\
  json_compact deep (VTuple [VInt 1; VInt 2]) = Ok "[1,2]" /\
  sign_string deep deep [("k", VTuple [VInt 1; VInt 2])] = Ok "k=(1, 2)" /\
  Canonicalize_spec deep deep [("k", VTuple [VInt 1; VInt 2])] = Ok "k=[1,2]" /\
  sign_string deep deep [("k", VTuple [VInt 1; VInt 2])]
  <> Canonicalize_spec deep deep [("k", VTuple [VInt 1; VInt 2])].
Proof.
  split; [reflexivity|]. split; [vm_compute; reflexivity|].
  split; [vm_compute; reflexivity|]. split; [vm_compute; reflexivity|].
  vm_compute. discriminate.
Qed.

(** ** Bytes and numbers *)

Lemma to_N_byte_of_N :
  forall n, (n < 256)%N -> Byte.to_N (byte_of_N n) = n.
Proof.
  intros n Hn. unfold byte_of_N. rewrite N.mod_small by exact Hn.
  destruct (Byte.of_N n) eqn:E.
  - now apply Byte.to_of_N.
  - apply Byte.of_N_None_iff in E. lia.
Qed.

Lemma byte_of_N_to_N :
  forall b, byte_of_N (Byte.to_N b) = b.
Proof.
  intros b. unfold byte_of_N.
  rewrite N.mod_small by (pose proof (Byte.to_N_bounded b); lia).
  now rewrite Byte.of_to_N.
Qed.

(** ** PKCS#7 padding *)

Lemma bytes_repeat_small :
  forall n : nat,
    (1 <= n <= 255)%nat ->
    bytes_repeat (Z.of_nat n) = Ok (repeat (byte_of_N (N.of_nat n)) n).
Proof.
  intros n Hn. unfold bytes_repeat.
  assert (H63 : (2 ^ 63 = 9223372036854775808)%Z) by reflexivity.
  assert (H60 : (2 ^ 60 = 1152921504606846976)%Z) by reflexivity.
  replace (Z.of_nat n <? - 2 ^ 63)%Z with false
    by (symmetry; apply Z.ltb_ge; lia).
  replace (2 ^ 63 <=? Z.of_nat n)%Z with false
    by (symmetry; apply Z.leb_gt; lia).
  replace (Z.of_nat n <=? 0)%Z with false
    by (symmetry; apply Z.leb_gt; lia).
  replace (2 ^ 60 <=? Z.of_nat n)%Z with false
    by (symmetry; apply Z.leb_gt; lia).
  replace (255 <? Z.of_nat n)%Z with false
    by (symmetry; apply Z.ltb_ge; lia).
  cbn [orb]. rewrite Nat2Z.id.
  replace (Z.to_N (Z.of_nat n)) with (N.of_nat n) by lia.
  reflexivity.
Qed.

Lemma pad_pkcs7_16 :
  forall data : bytes,
    let n := (16 - List.length data mod 16)%nat in
    _pad_pkcs7 data 16 = Ok (data ++ repeat (byte_of_N (N.of_nat n)) n).
Proof.
  intros data n. unfold _pad_pkcs7. simpl (16 =? 0)%Z. cbv iota.
  pose proof (Nat.mod_upper_bound (List.length data) 16 ltac:(lia)) as Hr.
  assert (Hz : (16 - Z.of_nat (List.length data) mod 16 = Z.of_nat n)%Z).
  { subst n. rewrite Nat2Z.inj_sub by lia.
    now rewrite (Nat2Z.inj_mod (List.length data) 16). }
  cbv zeta. rewrite Hz, bytes_repeat_small by (subst n; lia). reflexivity.
Qed.

Lemma unpad_pkcs7_app_repeat :
  forall (data : bytes) (n : nat),
    (1 <= n <= 255)%nat ->
    unpad_pkcs7 (data ++ repeat (byte_of_N (N.of_nat n)) n) = data.
Proof.
  intros data n Hn. unfold unpad_pkcs7.
  rewrite rev_app_distr, rev_repeat.
  destruct n as [|n']; [lia|]. cbn [repeat app].
  rewrite to_N_byte_of_N by lia. rewrite Nat2N.id.
  rewrite List.length_app. cbn [List.length]. rewrite repeat_length.
  replace (List.length data + S n' - S n')%nat with (List.length data + 0)%nat by lia.
  rewrite firstn_app_2. cbn [firstn]. now rewrite app_nil_r.
Qed.

(** C5. Padding to the 16-byte block always succeeds; the padded length is
    a multiple of 16; between 1 and 16 bytes are appended, a full block of
    16 when the input length is already a multiple of 16; every appended
    byte, the last one included, holds the number of appended bytes; and
    stripping as many trailing bytes as the last byte says gives back the
    input, whatever its length. *)
Theorem pad_pkcs7_round_trip :
  forall data : bytes,
    exists (padded : bytes) (n : nat),
      _pad_pkcs7 data 16 = Ok padded /\
      padded = data ++ repeat (byte_of_N (N.of_nat n)) n /\
      (1 <= n <= 16)%nat /\
      (List.length padded mod 16 = 0)%nat /\
      (List.length data mod 16 = 0 -> n = 16)%nat /\
      last padded x00 = byte_of_N (N.of_nat n) /\
      Byte.to_N (last padded x00) = N.of_nat n /\
      unpad_pkcs7 padded = data.
Proof.
  intros data.
  pose proof (Nat.mod_upper_bound (List.length data) 16 ltac:(lia)) as Hr.
  set (n := (16 - List.length data mod 16)%nat).
  exists (data ++ repeat (byte_of_N (N.of_nat n)) n), n.
  assert (Hn : (1 <= n <= 16)%nat) by (subst n; lia).
  assert (Hlast : last (data ++ repeat (byte_of_N (N.of_nat n)) n) x00
                  = byte_of_N (N.of_nat n)).
  { destruct n as [|n']; [lia|].
    replace (S n') with (n' + 1)%nat at 2 by lia.
    rewrite repeat_app, app_assoc. cbn [repeat]. apply last_last. }
  repeat split; try lia.
  - apply pad_pkcs7_16.
  - rewrite List.length_app, repeat_length. subst n.
    pose proof (Nat.div_mod_eq (List.length data) 16) as Hd.
    replace (List.length data + (16 - List.length data mod 16))%nat
      with ((1 + List.length data / 16) * 16)%nat by lia.
    apply Nat.Div0.mod_mul.
  - exact Hlast.
  - rewrite Hlast. apply to_N_byte_of_N. lia.
  - apply unpad_pkcs7_app_repeat. lia.
Qed.

(** ** Base64 *)

Lemma b64_index_char :
  forall n, (n < 64)%N -> b64_index (b64_char n) = Some n.
Proof.
  intros n Hn.
  assert (Hall : forallb
                   (fun i => match b64_index (b64_char (N.of_nat i)) with
                             | Some m => N.eqb m (N.of_nat i)
                             | None => false
                             end) (seq 0 64) = true) by (vm_compute; reflexivity).
  rewrite forallb_forall in Hall.
  specialize (Hall (N.to_nat n)).
  rewrite N2Nat.id in Hall.
  destruct (b64_index (b64_char n)) as [m|].
  - f_equal. apply N.eqb_eq. apply Hall. apply in_seq. lia.
  - discriminate Hall. apply in_seq. lia.
Qed.

Lemma b64_index_pad : b64_index "="%char = None.
Proof. vm_compute. reflexivity. Qed.

Lemma list_ind3 :
  forall (A : Type) (P : list A -> Prop),
    P [] -> (forall a, P [a]) -> (forall a b, P [a; b]) ->
    (forall a b c l, P l -> P (a :: b :: c :: l)) ->
    forall l, P l.
Proof.
  intros A P H0 H1 H2 H3.
  fix IH 1.
  intros [|a [|b [|c l]]];
    [exact H0 | apply H1 | apply H2 | apply H3; apply IH].
Qed.

Ltac nlia := zify; Z.div_mod_to_equations; lia.

Lemma sextets_join :
  forall n : N,
    (n / 262144 * 262144 + (n / 4096) mod 64 * 4096 + (n / 64) mod 64 * 64
     + n mod 64 = n)%N.
Proof.
  intros n.
  change 262144%N with (64 * 64 * 64)%N. change 4096%N with (64 * 64)%N.
  rewrite <- !N.Div0.div_div.
  generalize (N.div_mod n 64 ltac:(lia)).
  generalize (N.div_mod (n / 64) 64 ltac:(lia)).
  generalize (N.div_mod (n / 64 / 64) 64 ltac:(lia)).
  generalize (n / 64 / 64 / 64)%N. generalize ((n / 64 / 64) mod 64)%N.
  generalize (n / 64 / 64)%N. generalize ((n / 64) mod 64)%N.
  generalize (n / 64)%N. generalize (n mod 64)%N.
  intros. lia.
Qed.

Lemma byte_of_N_mod :
  forall (m : N) (b : byte), (m mod 256 = Byte.to_N b)%N -> byte_of_N m = b.
Proof.
  intros m b H. unfold byte_of_N. now rewrite H, Byte.of_to_N.
Qed.

Lemma b64decode_encode :
  forall bs : bytes, b64decode (b64encode bs) = Some bs.
Proof.
  induction bs as [|a|a b|a b c rest IH] using list_ind3.
  - reflexivity.
  - pose proof (Byte.to_N_bounded a) as Ha.
    cbn [b64encode b64decode].
    rewrite !b64_index_char by (try apply N.mod_lt; nlia).
    rewrite b64_index_pad. cbn [Ascii.eqb Bool.eqb andb].
    pose proof (sextets_join (Byte.to_N a * 65536)) as Hj.
    replace ((Byte.to_N a * 65536) mod 64)%N with 0%N in Hj
      by (apply N.mod_unique with (q := (Byte.to_N a * 1024)%N); nlia).
    replace ((Byte.to_N a * 65536 / 64) mod 64)%N with 0%N in Hj
      by (apply N.mod_unique with (q := (Byte.to_N a * 16)%N); nlia).
    rewrite !N.add_0_r in Hj. rewrite Hj.
    do 2 f_equal. apply byte_of_N_mod.
    symmetry. apply N.mod_unique with (q := 0%N); nlia.
  - pose proof (Byte.to_N_bounded a) as Ha.
    pose proof (Byte.to_N_bounded b) as Hb.
    cbn [b64encode b64decode].
    rewrite !b64_index_char by (try apply N.mod_lt; nlia).
    rewrite b64_index_pad. cbn [Ascii.eqb Bool.eqb andb].
    pose proof (sextets_join (Byte.to_N a * 65536 + Byte.to_N b * 256)) as Hj.
    replace ((Byte.to_N a * 65536 + Byte.to_N b * 256) mod 64)%N with 0%N in Hj
      by (apply N.mod_unique
            with (q := (Byte.to_N a * 1024 + Byte.to_N b * 4)%N); nlia).
    rewrite N.add_0_r in Hj. rewrite Hj.
    f_equal. f_equal; [|f_equal]; apply byte_of_N_mod; symmetry.
    + apply N.mod_unique with (q := 0%N); nlia.
    + apply N.mod_unique with (q := Byte.to_N a); nlia.
  - pose proof (Byte.to_N_bounded a) as Ha.
    pose proof (Byte.to_N_bounded b) as Hb.
    pose proof (Byte.to_N_bounded c) as Hc.
    cbn [b64encode b64decode].
    rewrite !b64_index_char by (try apply N.mod_lt; nlia).
    rewrite IH. cbn [option_map]. rewrite sextets_join.
    f_equal. f_equal; [|f_equal; [|f_equal]]; apply byte_of_N_mod; symmetry.
    + apply N.mod_unique with (q := 0%N); nlia.
    + apply N.mod_unique with (q := Byte.to_N a); nlia.
    + apply N.mod_unique
        with (q := (Byte.to_N a * 256 + Byte.to_N b)%N); nlia.
Qed.

Lemma b64encode_injective :
  forall bs1 bs2 : bytes, b64encode bs1 = b64encode bs2 -> bs1 = bs2.
Proof.
  intros bs1 bs2 H.
  pose proof (b64decode_encode bs1) as H1. rewrite H, b64decode_encode in H1.
  now inversion H1.
Qed.

(** ** Blocks *)

Lemma chunks_fuel_enough :
  forall (A : Type) (n : nat), (0 < n)%nat ->
    forall (f1 f2 : nat) (l : list A),
      (List.length l <= f1)%nat -> (List.length l <= f2)%nat ->
      chunks_fuel f1 n l = chunks_fuel f2 n l.
Proof.
  intros A n Hn. induction f1 as [|f1 IH]; intros f2 l H1 H2.
  - destruct l; [|simpl in H1; lia]. now destruct f2.
  - destruct l as [|a l]; [now destruct f2|].
    destruct f2 as [|f2]; [simpl in H2; lia|].
    cbn [chunks_fuel]. f_equal.
    assert (Hs : (List.length (skipn n (a :: l)) <= List.length l)%nat).
    { rewrite length_skipn. cbn [List.length]. lia. }
    cbn [List.length] in H1, H2. apply IH; lia.
Qed.

Lemma chunks_app_block :
  forall (A : Type) (n : nat) (b l : list A),
    (0 < n)%nat -> List.length b = n -> chunks n (b ++ l) = b :: chunks n l.
Proof.
  intros A n b l Hn Hb. unfold chunks.
  destruct b as [|a b]; [simpl in Hb; lia|].
  cbn [app List.length chunks_fuel].
  change (a :: b ++ l) with ((a :: b) ++ l).
  rewrite firstn_app, skipn_app, Hb, Nat.sub_diag.
  rewrite firstn_all2 by lia. rewrite skipn_all2 by lia.
  cbn [firstn skipn app]. rewrite app_nil_r. f_equal.
  apply chunks_fuel_enough; auto. rewrite List.length_app. lia.
Qed.

Lemma chunks_blocks :
  forall (A : Type) (n : nat) (l : list A),
    (0 < n)%nat -> (List.length l mod n = 0)%nat ->
    Forall (fun b => List.length b = n) (chunks n l) /\ List.concat (chunks n l) = l.
Proof.
  intros A n l Hn.
  remember (List.length l) as len eqn:Hlen.
  revert l Hlen. induction len as [len IH] using lt_wf_ind. intros l Hlen Hmod.
  destruct l as [|a l'] eqn:El.
  - split; constructor.
  - rewrite <- El in *.
    assert (Hge : (n <= len)%nat).
    { destruct (Nat.lt_ge_cases len n) as [Hlt|]; [|assumption].
      rewrite Nat.mod_small in Hmod by assumption. subst len l. simpl in Hmod. lia. }
    rewrite <- (firstn_skipn n l).
    assert (Hf : List.length (firstn n l) = n) by (rewrite length_firstn; lia).
    rewrite chunks_app_block by assumption.
    destruct (IH (len - n)%nat ltac:(lia) (skipn n l)) as [IH1 IH2].
    + rewrite length_skipn. lia.
    + replace len with ((len - n) + 1 * n)%nat in Hmod by lia.
      now rewrite Nat.Div0.mod_add in Hmod.
    + split; [constructor; assumption|]. cbn [List.concat]. now rewrite IH2.
Qed.

(** ** CBC mode *)

Lemma lxor_lt_256 :
  forall x y : N, (x < 256 -> y < 256 -> N.lxor x y < 256)%N.
Proof.
  intros x y Hx Hy. change 256%N with (2 ^ 8)%N in *.
  assert (H : (N.lxor x y mod 2 ^ 8 = N.lxor x y)%N).
  { apply N.bits_inj. intros n. destruct (N.lt_ge_cases n 8) as [Hn|Hn].
    - now rewrite N.mod_pow2_bits_low.
    - rewrite N.mod_pow2_bits_high by assumption. rewrite N.lxor_spec.
      rewrite <- (N.mod_small x (2 ^ 8)), <- (N.mod_small y (2 ^ 8))
        by assumption.
      now rewrite !N.mod_pow2_bits_high by assumption. }
  rewrite <- H. apply N.mod_lt. discriminate.
Qed.

Lemma byte_xor_involutive :
  forall a b : byte, byte_xor (byte_xor a b) b = a.
Proof.
  intros a b. unfold byte_xor.
  pose proof (Byte.to_N_bounded a). pose proof (Byte.to_N_bounded b).
  rewrite to_N_byte_of_N by (apply lxor_lt_256; lia).
  rewrite N.lxor_assoc, N.lxor_nilpotent, N.lxor_0_r.
  apply byte_of_N_to_N.
Qed.

Lemma xor_bytes_involutive :
  forall xs ys : bytes,
    List.length xs = List.length ys -> xor_bytes (xor_bytes xs ys) ys = xs.
Proof.
  unfold xor_bytes.
  induction xs as [|x xs IH]; intros [|y ys] Hlen; try discriminate; simpl.
  - reflexivity.
  - rewrite byte_xor_involutive. f_equal. apply IH. now inversion Hlen.
Qed.

Lemma xor_bytes_length :
  forall xs ys : bytes,
    List.length xs = List.length ys ->
    List.length (xor_bytes xs ys) = List.length xs.
Proof.
  intros xs ys H. unfold xor_bytes.
  rewrite length_map, length_combine. lia.
Qed.

Section CBCRoundTrip.
Variables E D : bytes -> bytes -> bytes.
Variable key : bytes.
Hypothesis E_length :
  forall block, List.length block = 16%nat -> List.length (E key block) = 16%nat.
Hypothesis D_E :
  forall block, List.length block = 16%nat -> D key (E key block) = block.

Lemma cbc_blocks_round_trip :
  forall (blocks : list bytes) (prev : bytes),
    List.length prev = 16%nat ->
    Forall (fun b => List.length b = 16%nat) blocks ->
    cbc_decrypt D key prev (cbc_encrypt_blocks E key prev blocks)
    = List.concat blocks.
Proof.
  unfold cbc_decrypt.
  induction blocks as [|p blocks IH]; intros prev Hprev Hall.
  - reflexivity.
  - inversion Hall as [|? ? Hp Hrest]; subst.
    assert (Hx : List.length (xor_bytes p prev) = 16%nat)
      by (rewrite xor_bytes_length; congruence).
    cbn [cbc_encrypt_blocks].
    rewrite chunks_app_block by (try apply E_length; auto; lia).
    cbn [cbc_decrypt_blocks List.concat].
    rewrite D_E by exact Hx.
    rewrite xor_bytes_involutive by congruence.
    f_equal. apply IH; auto.
Qed.

Lemma cbc_round_trip :
  forall iv data : bytes,
    List.length iv = 16%nat -> (List.length data mod 16 = 0)%nat ->
    cbc_decrypt D key iv (cbc_encrypt_blocks E key iv (chunks 16 data)) = data.
Proof.
  intros iv data Hiv Hdata.
  destruct (chunks_blocks byte 16 data ltac:(lia) Hdata) as [Hall Hcat].
  rewrite cbc_blocks_round_trip by assumption. exact Hcat.
Qed.
End CBCRoundTrip.

(** ** The objects *)

Lemma nth_error_heap_set_same :
  forall h r d d',
    nth_error h r = Some d -> nth_error (heap_set h r d') r = Some d'.
Proof.
  induction h as [|x h IH]; intros [|r] d d' H; simpl in *;
    try discriminate; eauto.
Qed.

Lemma nth_error_heap_set_other :
  forall h r r' d, r <> r' -> nth_error (heap_set h r d) r' = nth_error h r'.
Proof.
  induction h as [|x h IH]; intros [|r] [|r'] d Hne; simpl; auto;
    try congruence.
Qed.

Lemma heap_set_heap_set :
  forall h r d d', heap_set (heap_set h r d) r d' = heap_set h r d'.
Proof.
  induction h as [|x h IH]; intros [|r] d d'; simpl; auto. now rewrite IH.
Qed.

Lemma heap_set_length :
  forall h r d, List.length (heap_set h r d) = List.length h.
Proof.
  induction h as [|x h IH]; intros [|r] d; simpl; auto.
Qed.

Lemma padded16_length :
  forall data, (List.length (padded16 data) mod 16 = 0)%nat.
Proof.
  intros data. unfold padded16.
  pose proof (Nat.mod_upper_bound (List.length data) 16 ltac:(lia)) as Hr.
  rewrite List.length_app, repeat_length.
  pose proof (Nat.div_mod_eq (List.length data) 16) as Hd.
  replace (List.length data + (16 - List.length data mod 16))%nat
    with ((1 + List.length data / 16) * 16)%nat by lia.
  apply Nat.Div0.mod_mul.
Qed.

(** ** Runs of [_crypto_data] *)

(** The library functions stay folded when two runs are compared. *)
Strategy 1000 [utf8_encode quote sign_string json_dumps json_compact py_repr
               py_str hmac_md5 hex MD5.digest b64encode _pad_pkcs7 padded16
               dict_set heap_set].

Section Runs.
Variable aes_encrypt_block : bytes -> bytes -> bytes.
Variable rsa_key : Type.
Variable rsa_import_key : string -> result rsa_key.
Variable oaep_encrypt : rsa_key -> bytes -> bytes -> result bytes.

Local Abbreviation crypto_data :=
  (_crypto_data aes_encrypt_block rsa_key rsa_import_key oaep_encrypt).

Ltac run_monad :=
  cbv beta iota zeta delta
    [_crypto_data bind ret lift emit setitem dict_items time_ms urandom
     _generate_aes_key hmac_new_md5_hexdigest AES_new_cbc cbc_encrypt
     RSA_import_key PKCS1_OAEP_new oaep_cipher_encrypt with_heap at_depth
     new_dict dict_copy
     heap clock ticks entropy drawn trace json_depth repr_depth
     cipher_key cipher_iv].

(** The whole of [_crypto_data], step by step, on a world whose object
    [params] holds [d]. *)
Lemma crypto_data_run :
  forall (params : ref) (api_path : string) (w : world) (d : dict),
    nth_error (heap w) params = Some d ->
    let t := clock w (ticks w) in
    let d1 := assembled d api_path t in
    crypto_data params api_path w =
    match sign_string (json_depth w) (repr_depth w) d1 with
    | Raise e =>
        (Raise e,
         mkWorld (heap_set (heap w) params d1) (clock w) (S (ticks w))
           (entropy w) (drawn w) (trace w ++ [EvTime t])
           (json_depth w) (repr_depth w))
    | Ok sign_str =>
        let d2 := dict_set d1 "signature" (VStr (sign SECRET sign_str)) in
        let aes_key := draw w (drawn w) 16 in
        let seed := draw w (drawn w + 16) 20 in
        let tr1 :=
          trace w ++
          [EvTime t;
           EvHmac (utf8_encode SECRET) (utf8_encode sign_str);
           EvUrandom aes_key; EvAesNew aes_key zero_iv] in
        match json_compact (json_depth w) (VDict d2) with
        | Raise e =>
            (Raise e,
             mkWorld (heap_set (heap w) params d2) (clock w) (S (ticks w))
               (entropy w) (drawn w + 16) tr1 (json_depth w) (repr_depth w))
        | Ok plaintext =>
            let padded := padded16 (utf8_encode plaintext) in
            let tr2 := tr1 ++ [EvAesEncrypt padded; EvRsaImportKey PUB_KEY] in
            match rsa_import_key PUB_KEY with
            | Raise e =>
                (Raise e,
                 mkWorld (heap_set (heap w) params d2) (clock w)
                   (S (ticks w)) (entropy w) (drawn w + 16) tr2
                   (json_depth w) (repr_depth w))
            | Ok rsa =>
                let w' :=
                  mkWorld (heap_set (heap w) params d2) (clock w)
                    (S (ticks w)) (entropy w) (drawn w + 16 + 20)
                    (tr2 ++ [EvOaepNew; EvOaepEncrypt aes_key;
                             EvUrandom seed])
                    (json_depth w) (repr_depth w) in
                match oaep_encrypt rsa seed aes_key with
                | Raise e => (Raise e, w')
                | Ok encrypted_key =>
                    (Ok [("key", VStr (b64encode encrypted_key));
                         ("data",
                          VStr (b64encode
                                  (cbc_encrypt_blocks aes_encrypt_block
                                     aes_key zero_iv (chunks 16 padded))))],
                     w')
                end
            end
        end
    end.
Proof.
  intros params api_path [h c t e dr tr jd rd] d H. simpl in H.
  cbv zeta. unfold assembled, draw, sign, hmac_md5_hexdigest.
  run_monad.
  repeat (first [ rewrite H
                | rewrite heap_set_heap_set
                | rewrite (nth_error_heap_set_same _ _ _ _ H) ];
          cbv beta iota).
  destruct (sign_string _ _ _) as [sign_str|]; [|reflexivity].
  run_monad.
  repeat (first [ rewrite heap_set_heap_set
                | rewrite (nth_error_heap_set_same _ _ _ _ H) ];
          cbv beta iota).
  rewrite length_map, length_seq.
  change (negb (existsb (Nat.eqb 16) [16; 24; 32])) with false.
  change (negb (Nat.eqb (List.length (repeat x00 16)) 16)) with false.
  cbv beta iota.
  rewrite (nth_error_heap_set_same _ _ _ _ H). cbv beta iota.
  destruct (json_compact _ _) as [plaintext|];
    [|rewrite <- !app_assoc; reflexivity].
  rewrite pad_pkcs7_16. fold (padded16 (utf8_encode plaintext)).
  cbv beta iota. rewrite padded16_length.
  change (negb (Nat.eqb 0 0)) with false. cbv beta iota.
  destruct (rsa_import_key PUB_KEY) as [rsa|];
    [|rewrite <- !app_assoc; reflexivity].
  destruct (oaep_encrypt rsa _ _);
    rewrite <- !app_assoc; reflexivity.
Qed.
End Runs.

(** ** Assignments to a dict *)

Lemma dict_get_set_same :
  forall d k v, dict_get (dict_set d k v) k = Some v.
Proof.
  induction d as [|[k' v'] d IH]; intros k v; simpl.
  - now rewrite String.eqb_refl.
  - destruct (String.eqb k' k) eqn:E; simpl.
    + now rewrite String.eqb_refl.
    + rewrite E. apply IH.
Qed.

Lemma dict_get_set_other :
  forall d k k' v, k <> k' -> dict_get (dict_set d k v) k' = dict_get d k'.
Proof.
  induction d as [|[k0 v0] d IH]; intros k k' v Hne; simpl.
  - apply String.eqb_neq in Hne. now rewrite Hne.
  - destruct (String.eqb k0 k) eqn:E; simpl.
    + apply String.eqb_eq in E. subst k0.
      apply String.eqb_neq in Hne. now rewrite Hne.
    + destruct (String.eqb k0 k'); auto.
Qed.

Lemma dict_set_In_same :
  forall d k v, In (k, v) (dict_set d k v).
Proof.
  induction d as [|[k' v'] d IH]; intros k v; simpl.
  - now left.
  - destruct (String.eqb k' k); [now left|right; apply IH].
Qed.

Lemma dict_set_In_other :
  forall d k v k' v', k' <> k -> In (k', v') d -> In (k', v') (dict_set d k v).
Proof.
  induction d as [|[k0 v0] d IH]; intros k v k' v' Hne HIn; [contradiction|].
  simpl. destruct (String.eqb k0 k) eqn:E.
  - apply String.eqb_eq in E. subst k0. destruct HIn as [H|H].
    + inversion H. congruence.
    + now right.
  - destruct HIn as [H|H]; [now left|right; now apply IH].
Qed.

Lemma keys_dict_set :
  forall d k v,
    keys (dict_set d k v) =
    if existsb (String.eqb k) (keys d) then keys d else keys d ++ [k].
Proof.
  unfold keys. induction d as [|[k' v'] d IH]; intros k v; simpl.
  - reflexivity.
  - rewrite (String.eqb_sym k k').
    destruct (String.eqb k' k) eqn:E; simpl.
    + apply String.eqb_eq in E. now subst.
    + rewrite IH. now destruct (existsb (String.eqb k) (map fst d)).
Qed.

(** ** What every run does, and what a run that returns has done *)

Section Outcomes.
Variable aes_encrypt_block : bytes -> bytes -> bytes.
Variable rsa_key : Type.
Variable rsa_import_key : string -> result rsa_key.
Variable oaep_encrypt : rsa_key -> bytes -> bytes -> result bytes.

Local Abbreviation crypto_data :=
  (_crypto_data aes_encrypt_block rsa_key rsa_import_key oaep_encrypt).

(** A run that returns an envelope went through every stage. *)
Lemma crypto_data_returns :
  forall params api_path w d envelope w',
    nth_error (heap w) params = Some d ->
    crypto_data params api_path w = (Ok envelope, w') ->
    let t := clock w (ticks w) in
    let aes_key := draw w (drawn w) 16 in
    let seed := draw w (drawn w + 16) 20 in
    exists sign_str plaintext rsa encrypted_key,
      let d2 := dict_set (assembled d api_path t) "signature"
                  (VStr (sign SECRET sign_str)) in
      let padded := padded16 (utf8_encode plaintext) in
      sign_string (json_depth w) (repr_depth w) (assembled d api_path t)
      = Ok sign_str /\
      json_compact (json_depth w) (VDict d2) = Ok plaintext /\
      rsa_import_key PUB_KEY = Ok rsa /\
      oaep_encrypt rsa seed aes_key = Ok encrypted_key /\
      envelope =
        [("key", VStr (b64encode encrypted_key));
         ("data",
          VStr (b64encode
                  (cbc_encrypt_blocks aes_encrypt_block aes_key zero_iv
                     (chunks 16 padded))))] /\
      w' = mkWorld (heap_set (heap w) params d2) (clock w) (S (ticks w))
             (entropy w) (drawn w + 16 + 20)
             (trace w ++
              [EvTime t;
               EvHmac (utf8_encode SECRET) (utf8_encode sign_str);
               EvUrandom aes_key; EvAesNew aes_key zero_iv;
               EvAesEncrypt padded; EvRsaImportKey PUB_KEY;
               EvOaepNew; EvOaepEncrypt aes_key; EvUrandom seed])
             (json_depth w) (repr_depth w).
Proof.
  intros params api_path w d envelope w' Hd Hrun. cbv zeta.
  rewrite (crypto_data_run _ _ _ _ _ _ _ _ Hd) in Hrun. cbv zeta in Hrun.
  destruct (sign_string _ _ _) as [sign_str|]; [|discriminate].
  destruct (json_compact _ _) as [plaintext|] eqn:Ej; [|discriminate].
  destruct (rsa_import_key PUB_KEY) as [rsa|]; [|discriminate].
  destruct (oaep_encrypt rsa _ _) as [encrypted_key|] eqn:Eo; [|discriminate].
  inversion Hrun; subst.
  exists sign_str, plaintext, rsa, encrypted_key.
  rewrite <- !app_assoc. repeat split; auto.
Qed.

(** Whatever the outcome, a run reads the clock once, first of all, draws
    at most the key and the seed, and touches no object but [params]. *)
Lemma crypto_data_effects :
  forall params api_path w d r w',
    nth_error (heap w) params = Some d ->
    crypto_data params api_path w = (r, w') ->
    exists d' new,
      heap w' = heap_set (heap w) params d' /\
      clock w' = clock w /\ entropy w' = entropy w /\
      ticks w' = S (ticks w) /\
      trace w' = trace w ++ EvTime (clock w (ticks w)) :: new /\
      (d' = assembled d api_path (clock w (ticks w)) \/
       exists sign_str,
         d' = dict_set (assembled d api_path (clock w (ticks w)))
                "signature" (VStr (sign SECRET sign_str))) /\
      (drawn w <= drawn w' <= drawn w + 36)%nat /\
      Forall (fun ev => is_clock_read ev = false) new /\
      (forall key iv, In (EvAesNew key iv) new -> iv = zero_iv).
Proof.
  intros params api_path w d r w' Hd Hrun.
  rewrite (crypto_data_run _ _ _ _ _ _ _ _ Hd) in Hrun. cbv zeta in Hrun.
  destruct (sign_string _ _ _) as [sign_str|];
    [destruct (json_compact _ _) as [plaintext|];
     [destruct (rsa_import_key PUB_KEY) as [rsa|];
      [destruct (oaep_encrypt rsa _ _) as [encrypted_key|]|]|]|];
    apply pair_equal_spec in Hrun; destruct Hrun as [_ Hw]; rewrite <- Hw;
    cbn [heap clock entropy ticks trace drawn]; rewrite <- ?app_assoc;
    cbn [app]; eexists _, _;
    (split; [reflexivity|]); (split; [reflexivity|]);
    (split; [reflexivity|]); (split; [reflexivity|]);
    (split; [reflexivity|]);
    (split; [first [left; reflexivity | right; eexists; reflexivity]|]);
    (split; [lia|]);
    (split; [repeat constructor|]);
    intros key iv HIn; cbn [In] in HIn;
    repeat (destruct HIn as [HIn|HIn]; try discriminate HIn);
    try contradiction; now inversion HIn.
Qed.

End Outcomes.

(** ** The hexadecimal digest *)

Lemma list_ascii_of_string_app :
  forall s1 s2,
    list_ascii_of_string (s1 +++ s2)
    = list_ascii_of_string s1 ++ list_ascii_of_string s2.
Proof.
  induction s1 as [|c s1 IH]; intros s2; simpl; [reflexivity|].
  now rewrite IH.
Qed.

Lemma string_length_app :
  forall s1 s2,
    String.length (s1 +++ s2) = (String.length s1 + String.length s2)%nat.
Proof.
  induction s1 as [|c s1 IH]; intros s2; simpl; [reflexivity|].
  now rewrite IH.
Qed.

Lemma hex_byte_lower :
  forall b, forallb is_lower_hex (list_ascii_of_string (hex_byte false b)) = true.
Proof. intros b. destruct b; reflexivity. Qed.

Lemma hex_cons :
  forall b bs, hex (b :: bs) = hex_byte false b +++ hex bs.
Proof.
  intros b bs. unfold hex. cbn [map String.concat].
  destruct bs as [|b' bs]; [|reflexivity].
  cbn [map String.concat]. generalize (hex_byte false b). intros s.
  induction s as [|c s IH]; [reflexivity|]. simpl. now rewrite <- IH.
Qed.

Lemma hex_lower :
  forall bs, forallb is_lower_hex (list_ascii_of_string (hex bs)) = true.
Proof.
  induction bs as [|b bs IH]; [reflexivity|].
  rewrite hex_cons, list_ascii_of_string_app, forallb_app, IH, hex_byte_lower.
  reflexivity.
Qed.

Lemma hex_length :
  forall bs, String.length (hex bs) = (2 * List.length bs)%nat.
Proof.
  induction bs as [|b bs IH]; [reflexivity|].
  rewrite hex_cons, string_length_app, IH. cbn [List.length hex_byte String.length].
  lia.
Qed.

Lemma md5_digest_length :
  forall msg, List.length (MD5.digest msg) = 16%nat.
Proof.
  intros msg. unfold MD5.digest.
  destruct (fold_left MD5.compress _ _) as [[[a b] c] d].
  reflexivity.
Qed.

Lemma hmac_md5_length :
  forall key msg, List.length (hmac_md5 key msg) = 16%nat.
Proof. intros. apply md5_digest_length. Qed.

Lemma sign_32_lower_hex :
  forall secret canonical,
    String.length (sign secret canonical) = 32%nat /\
    forallb is_lower_hex (list_ascii_of_string (sign secret canonical)) = true.
Proof.
  intros. unfold sign. split.
  - now rewrite hex_length, hmac_md5_length.
  - apply hex_lower.
Qed.

(** ** What a canonical string and a JSON text come from *)

Lemma sign_string_Ok :
  forall jd rd d canonical,
    sign_string jd rd d = Ok canonical ->
    exists pairs,
      collect (key_value jd rd) (non_null d) = Ok pairs /\
      canonical = join "&" (sorted pairs).
Proof.
  intros jd rd d canonical Hs. rewrite sign_string_Canonicalize in Hs.
  unfold Canonicalize, Canonicalize_of in Hs. fold key_value in Hs.
  destruct (collect (key_value jd rd) (non_null d)) as [pairs|];
    [|discriminate].
  exists pairs. split; [reflexivity|]. now inversion Hs.
Qed.

Lemma json_compact_dict_Ok :
  forall depth d plaintext,
    json_compact depth (VDict d) = Ok plaintext ->
    exists items,
      collect (json_entry (depth - 1)) d = Ok items /\
      plaintext = "{" +++ join "," items +++ "}".
Proof.
  intros depth d plaintext Hj. destruct depth as [|depth]; [discriminate|].
  rewrite json_compact_dict in Hj.
  replace (S depth - 1)%nat with depth by lia.
  destruct (collect (json_entry depth) d) as [items|]; [|discriminate].
  exists items. split; [reflexivity|]. now inversion Hj.
Qed.

(** The pair of an int, once [str] has a level to work with. *)
Lemma key_value_int :
  forall jd rd k n,
    (1 <= rd)%nat -> key_value jd rd (k, VInt n) = Ok (k +++ "=" +++ str_of_int n).
Proof. intros jd [|rd] k n H; [lia|reflexivity]. Qed.

(** The assembled map holds an int, the timestamp: when its canonical
    string exists, [str] had a level to work with. *)
Lemma sign_string_repr_depth :
  forall jd rd d api_path t canonical,
    sign_string jd rd (assembled d api_path t) = Ok canonical ->
    (1 <= rd)%nat.
Proof.
  intros jd rd d api_path t canonical Hs.
  destruct (sign_string_Ok _ _ _ _ Hs) as (pairs & Ep & _).
  apply collect_Ok_Forall2 in Ep.
  assert (HIn : In ("timestamp", VInt t) (non_null (assembled d api_path t))).
  { unfold non_null. apply filter_In. split; [|reflexivity].
    unfold assembled. apply dict_set_In_same. }
  clear Hs. induction Ep as [|x y l l' Hxy HF IH]; [contradiction|].
  destruct HIn as [->|HIn]; [|auto].
  destruct rd; [discriminate|lia].
Qed.

(** What the signing loop returns does not depend on the levels. *)
Lemma collect_key_value_same_text :
  forall jd1 rd1 jd2 rd2 l pairs1 pairs2,
    collect (key_value jd1 rd1) l = Ok pairs1 ->
    collect (key_value jd2 rd2) l = Ok pairs2 -> pairs1 = pairs2.
Proof.
  intros jd1 rd1 jd2 rd2 l pairs1 pairs2 E1 E2.
  apply collect_Ok_Forall2 in E1, E2. revert pairs2 E2.
  induction E1 as [|[k v] y l l' Hxy HF IH]; intros pairs2 E2;
    inversion E2 as [|? y2 ? l2 Hxy2 HF2]; subst; [reflexivity|].
  f_equal; [|now apply IH].
  unfold key_value, key_value_of, serialize_value in Hxy, Hxy2.
  cbn [fst snd] in *.
  destruct (is_dict_or_list v).
  - destruct (json_compact jd1 v) as [a1|] eqn:Ea1; [|discriminate].
    destruct (json_compact jd2 v) as [a2|] eqn:Ea2; [|discriminate].
    rewrite (json_compact_same_text _ _ _ _ _ Ea1 Ea2) in Hxy. congruence.
  - destruct (py_str rd1 v) as [a1|] eqn:Ea1; [|discriminate].
    destruct (py_str rd2 v) as [a2|] eqn:Ea2; [|discriminate].
    rewrite (py_str_same_text _ _ _ _ _ Ea1 Ea2) in Hxy. congruence.
Qed.


(** * The properties of the envelope *)

Section Claims.
Variable aes_encrypt_block : bytes -> bytes -> bytes.
Variable rsa_key : Type.
Variable rsa_import_key : string -> result rsa_key.
Variable oaep_encrypt : rsa_key -> bytes -> bytes -> result bytes.

Local Abbreviation crypto_data :=
  (_crypto_data aes_encrypt_block rsa_key rsa_import_key oaep_encrypt).

(** C4. In a run that returns, the signature is the HMAC-MD5 of the
    canonical string of the assembled parameters, keyed with the UTF-8
    bytes of SECRET and printed as 32 lower-case hexadecimal digits; it is
    stored under "signature" in the parameter object, and the text that is
    encrypted afterwards is the JSON of that object, signature included.
    The signature is a function of the secret and the canonical string
    alone. *)
Theorem signature_is_hmac_md5_hexdigest :
  forall params api_path w d envelope w',
    nth_error (heap w) params = Some d ->
    crypto_data params api_path w = (Ok envelope, w') ->
    exists canonical signature d' plaintext before after,
      sign_string (json_depth w) (repr_depth w)
        (assembled d api_path (clock w (ticks w))) = Ok canonical /\
      signature = hex (hmac_md5 (utf8_encode SECRET) (utf8_encode canonical)) /\
      String.length signature = 32%nat /\
      forallb is_lower_hex (list_ascii_of_string signature) = true /\
      nth_error (heap w') params = Some d' /\
      d' = dict_set (assembled d api_path (clock w (ticks w))) "signature"
             (VStr signature) /\
      dict_get d' "signature" = Some (VStr signature) /\
      json_compact (json_depth w) (VDict d') = Ok plaintext /\
      trace w' = trace w ++ before
                   ++ EvAesEncrypt (padded16 (utf8_encode plaintext)) :: after /\
      In (EvHmac (utf8_encode SECRET) (utf8_encode canonical)) before /\
      (forall secret1 secret2 canonical1 canonical2,
          secret1 = secret2 -> canonical1 = canonical2 ->
          sign secret1 canonical1 = sign secret2 canonical2).
Proof.
  intros params api_path w d envelope w' Hd Hrun.
  destruct (crypto_data_returns _ _ _ _ _ _ _ _ _ _ Hd Hrun)
    as (canonical & plaintext & rsa & ek & Hs & Hj & _ & _ & _ & Hw).
  cbv zeta in *.
  exists canonical, (sign SECRET canonical),
    (dict_set (assembled d api_path (clock w (ticks w))) "signature"
       (VStr (sign SECRET canonical))), plaintext.
  exists [EvTime (clock w (ticks w));
          EvHmac (utf8_encode SECRET) (utf8_encode canonical);
          EvUrandom (draw w (drawn w) 16);
          EvAesNew (draw w (drawn w) 16) zero_iv].
  eexists.
  split; [exact Hs|]. split; [reflexivity|].
  split; [apply sign_32_lower_hex|]. split; [apply sign_32_lower_hex|].
  split.
  { rewrite Hw. cbn [heap]. eapply nth_error_heap_set_same; exact Hd. }
  split; [reflexivity|]. split; [apply dict_get_set_same|].
  split; [exact Hj|]. split.
  { rewrite Hw. cbn [trace app]. reflexivity. }
  split; [right; now left|].
  intros; now subst.
Qed.

(** C6. Every cipher a run creates is created with the IV of sixteen zero
    bytes, whatever the outcome of the run; in a run that returns there is
    such a cipher, keyed with the sixteen bytes just drawn, and the data
    field is the Base64 text of the CBC encryption under that key and that
    IV. *)
Theorem iv_is_sixteen_zero_bytes :
  forall params api_path w d r w',
    nth_error (heap w) params = Some d ->
    crypto_data params api_path w = (r, w') ->
    exists new,
      trace w' = trace w ++ new /\
      (forall key iv,
          In (EvAesNew key iv) new ->
          iv = [x00; x00; x00; x00; x00; x00; x00; x00;
                x00; x00; x00; x00; x00; x00; x00; x00]) /\
      (forall envelope,
          r = Ok envelope ->
          In (EvAesNew (draw w (drawn w) 16) (repeat x00 16)) new /\
          exists padded,
            dict_get envelope "data" =
            Some (VStr (b64encode
                          (cbc_encrypt_blocks aes_encrypt_block
                             (draw w (drawn w) 16) (repeat x00 16)
                             (chunks 16 padded))))).
Proof.
  intros params api_path w d r w' Hd Hrun.
  destruct (crypto_data_effects _ _ _ _ _ _ _ _ _ _ Hd Hrun)
    as (d' & new & _ & _ & _ & _ & Htr & _ & _ & _ & Hiv).
  exists (EvTime (clock w (ticks w)) :: new).
  split; [exact Htr|]. split.
  - intros key iv [HIn|HIn]; [discriminate|]. exact (Hiv key iv HIn).
  - intros envelope ->.
    destruct (crypto_data_returns _ _ _ _ _ _ _ _ _ _ Hd Hrun)
      as (canonical & plaintext & rsa & ek & _ & _ & _ & _ & He & Hw).
    cbv zeta in *. split.
    + rewrite Hw in Htr. cbn [trace] in Htr.
      apply app_inv_head in Htr. inversion Htr; subst new.
      right. right. right. now left.
    + eexists. rewrite He. reflexivity.
Qed.

(** C7. A run reads the clock exactly once, whatever its outcome.  In a
    run that returns, the value read gives the pair "timestamp=<value>"
    among the pairs of the canonical string that is signed, and it is the
    "timestamp" entry of the parameter object whose JSON text is
    encrypted. *)
Theorem timestamp_read_once_and_reused :
  forall params api_path w d r w',
    nth_error (heap w) params = Some d ->
    crypto_data params api_path w = (r, w') ->
    let t := clock w (ticks w) in
    ticks w' = S (ticks w) /\
    (exists new,
        trace w' = trace w ++ new /\ filter is_clock_read new = [EvTime t]) /\
    (forall envelope,
        r = Ok envelope ->
        exists pairs canonical d' items plaintext,
          collect (key_value (json_depth w) (repr_depth w))
            (non_null (assembled d api_path t)) = Ok pairs /\
          In ("timestamp=" +++ str_of_int t) pairs /\
          canonical = join "&" (sorted pairs) /\
          In (EvHmac (utf8_encode SECRET) (utf8_encode canonical)) (trace w') /\
          nth_error (heap w') params = Some d' /\
          dict_get d' "timestamp" = Some (VInt t) /\
          collect (json_entry (json_depth w - 1)) d' = Ok items /\
          In (encode_basestring_ascii "timestamp" +++ ":" +++ str_of_int t)
             items /\
          plaintext = "{" +++ join "," items +++ "}" /\
          In (EvAesEncrypt (padded16 (utf8_encode plaintext))) (trace w')).
Proof.
  intros params api_path w d r w' Hd Hrun t.
  destruct (crypto_data_effects _ _ _ _ _ _ _ _ _ _ Hd Hrun)
    as (dx & new & _ & _ & _ & Hticks & Htr & _ & _ & Hnew & _).
  split; [exact Hticks|]. split.
  { exists (EvTime t :: new). split; [exact Htr|].
    cbn [filter is_clock_read]. f_equal.
    clear - Hnew. induction Hnew as [|ev l Hev HF IH]; [reflexivity|].
    cbn [filter]. now rewrite Hev. }
  intros envelope ->.
  destruct (crypto_data_returns _ _ _ _ _ _ _ _ _ _ Hd Hrun)
    as (canonical & plaintext & rsa & ek & Hs & Hj & _ & _ & _ & Hw).
  cbv zeta in *. fold t in Hs, Hj, Hw.
  destruct (sign_string_Ok _ _ _ _ Hs) as (pairs & Ep & Hc). subst canonical.
  destruct (json_compact_dict_Ok _ _ _ Hj) as (items & Ei & Hp).
  subst plaintext.
  exists pairs, (join "&" (sorted pairs)),
    (dict_set (assembled d api_path t) "signature"
       (VStr (sign SECRET (join "&" (sorted pairs))))),
    items, ("{" +++ join "," items +++ "}").
  split; [exact Ep|]. split.
  { apply (collect_Ok_In _ _ _ _ _ ("timestamp", VInt t) _ Ep).
    - unfold non_null. apply filter_In. split; [|reflexivity].
      unfold assembled. apply dict_set_In_same.
    - apply key_value_int. eapply sign_string_repr_depth; exact Hs. }
  split; [reflexivity|]. split.
  { rewrite Hw. cbn [trace]. apply in_or_app. right. right. now left. }
  split.
  { rewrite Hw. cbn [heap]. eapply nth_error_heap_set_same; exact Hd. }
  split.
  { rewrite dict_get_set_other by discriminate.
    unfold assembled. apply dict_get_set_same. }
  split; [exact Ei|]. split.
  { apply (collect_Ok_In _ _ _ _ _ ("timestamp", VInt t) _ Ei);
      [|reflexivity].
    apply dict_set_In_other; [discriminate|].
    unfold assembled. apply dict_set_In_same. }
  split; [reflexivity|].
  rewrite Hw. cbn [trace]. apply in_or_app. right.
  do 4 right. now left.
Qed.


Lemma non_null_idempotent :
  forall d, non_null (non_null d) = non_null d.
Proof.
  unfold non_null. induction d as [|[k v] d IH]; [reflexivity|].
  cbn [filter snd]. destruct (negb (is_None v)) eqn:E; [|exact IH].
  cbn [filter snd]. now rewrite E, IH.
Qed.

Lemma draw_length :
  forall w from n, List.length (draw w from n) = n.
Proof. intros. unfold draw. now rewrite length_map, length_seq. Qed.

(** C10, as the code has it. In a run that returns, an entry of the
    caller's map whose value is None, under a key other than the four the
    client sets itself, gives no pair of the canonical string: the pairs come one by one from the entries that
    are not None, and the canonical string is the one of the map without
    its None entries, so that is all the signature covers.  The entry is
    still in the parameter object that is serialized, and its JSON item
    is "key":null in the text that is padded, encrypted and sent as the
    data field. *)
Theorem null_entry_unsigned_but_sent :
  forall params api_path w d k envelope w',
    nth_error (heap w) params = Some d ->
    In (k, VNone) d ->
    ~ In k injected_keys ->
    crypto_data params api_path w = (Ok envelope, w') ->
    let t := clock w (ticks w) in
    exists pairs canonical d' items plaintext,
      Forall2 (fun entry pair =>
                 key_value (json_depth w) (repr_depth w) entry = Ok pair)
        (non_null (assembled d api_path t)) pairs /\
      ~ In (k, VNone) (non_null (assembled d api_path t)) /\
      canonical = join "&" (sorted pairs) /\
      sign_string (json_depth w) (repr_depth w) (assembled d api_path t)
      = Ok canonical /\
      sign_string (json_depth w) (repr_depth w)
        (non_null (assembled d api_path t)) = Ok canonical /\
      nth_error (heap w') params = Some d' /\
      dict_get d' "signature" = Some (VStr (sign SECRET canonical)) /\
      In (k, VNone) d' /\
      Forall2 (fun entry item =>
                 json_entry (json_depth w - 1) entry = Ok item) d' items /\
      In (encode_basestring_ascii k +++ ":null") items /\
      plaintext = "{" +++ join "," items +++ "}" /\
      json_compact (json_depth w) (VDict d') = Ok plaintext /\
      dict_get envelope "data" =
      Some (VStr (b64encode
                    (cbc_encrypt_blocks aes_encrypt_block
                       (draw w (drawn w) 16) zero_iv
                       (chunks 16 (padded16 (utf8_encode plaintext)))))).
Proof.
  intros params api_path w d k envelope w' Hd HIn Hk Hrun t.
  destruct (crypto_data_returns _ _ _ _ _ _ _ _ _ _ Hd Hrun)
    as (canonical & plaintext & rsa & ek & Hs & Hj & _ & _ & He & Hw).
  cbv zeta in *. fold t in Hs, Hj, Hw.
  destruct (sign_string_Ok _ _ _ _ Hs) as (pairs & Ep & Hc). subst canonical.
  destruct (json_compact_dict_Ok _ _ _ Hj) as (items & Ei & Hp).
  subst plaintext.
  assert (HInd : In (k, VNone)
                   (dict_set (assembled d api_path t) "signature"
                      (VStr (sign SECRET (join "&" (sorted pairs)))))).
  { unfold injected_keys in Hk. cbn [In] in Hk.
    unfold assembled.
    repeat (apply dict_set_In_other; [intros ->; tauto|]). exact HIn. }
  exists pairs, (join "&" (sorted pairs)),
    (dict_set (assembled d api_path t) "signature"
       (VStr (sign SECRET (join "&" (sorted pairs))))),
    items, ("{" +++ join "," items +++ "}").
  split; [now apply collect_Ok_Forall2|]. split.
  { unfold non_null. rewrite filter_In. cbn [snd is_None negb].
    intros [_ H]. discriminate. }
  split; [reflexivity|]. split; [exact Hs|]. split.
  { rewrite sign_string_Canonicalize. unfold Canonicalize, Canonicalize_of.
    fold key_value. now rewrite non_null_idempotent, Ep. }
  split.
  { rewrite Hw. cbn [heap]. eapply nth_error_heap_set_same; exact Hd. }
  split; [apply dict_get_set_same|]. split; [exact HInd|].
  split; [now apply collect_Ok_Forall2|]. split.
  { apply (collect_Ok_In _ _ _ _ _ (k, VNone) _ Ei);
      [exact HInd|reflexivity]. }
  split; [reflexivity|]. split; [exact Hj|].
  rewrite He. reflexivity.
Qed.

(** C3. In a run that returns, decoding the data field from Base64 and
    decrypting it in CBC mode with the sixteen bytes drawn as the key and
    the IV of sixteen zero bytes gives the padded UTF-8 bytes of the
    compact JSON text of the parameter object: those bytes followed by n
    bytes of value n, with n between 1 and 16 such that the length is a
    multiple of 16, which is what [_pad_pkcs7] returns and what stripping
    undoes.  That object holds the "signature" entry; its keys are the
    caller's keys in the caller's order, followed by those of the four
    injected keys that the caller did not have; and the JSON text lists the
    entries in that order, item by item.  The block cipher is any one whose
    decryption undoes its encryption on 16-byte blocks. *)
Theorem data_field_decrypts_to_padded_json :
  forall (aes_decrypt_block : bytes -> bytes -> bytes)
         params api_path w d envelope w',
    (forall key block,
        List.length key = 16%nat -> List.length block = 16%nat ->
        List.length (aes_encrypt_block key block) = 16%nat) ->
    (forall key block,
        List.length key = 16%nat -> List.length block = 16%nat ->
        aes_decrypt_block key (aes_encrypt_block key block) = block) ->
    nth_error (heap w) params = Some d ->
    crypto_data params api_path w = (Ok envelope, w') ->
    exists d' signature items plaintext padded n data ciphertext,
      nth_error (heap w') params = Some d' /\
      dict_get d' "signature" = Some (VStr signature) /\
      keys d' = keys_after (keys d) injected_keys /\
      Forall2 (fun entry item =>
                 json_entry (json_depth w - 1) entry = Ok item) d' items /\
      plaintext = "{" +++ join "," items +++ "}" /\
      json_compact (json_depth w) (VDict d') = Ok plaintext /\
      padded = utf8_encode plaintext ++ repeat (byte_of_N (N.of_nat n)) n /\
      (1 <= n <= 16)%nat /\
      (List.length padded mod 16 = 0)%nat /\
      padded = padded16 (utf8_encode plaintext) /\
      _pad_pkcs7 (utf8_encode plaintext) 16 = Ok padded /\
      unpad_pkcs7 padded = utf8_encode plaintext /\
      dict_get envelope "data" = Some (VStr data) /\
      b64decode data = Some ciphertext /\
      cbc_decrypt aes_decrypt_block (draw w (drawn w) 16) (repeat x00 16)
        ciphertext = padded.
Proof.
  intros D params api_path w d envelope w' HEl HDE Hd Hrun.
  destruct (crypto_data_returns _ _ _ _ _ _ _ _ _ _ Hd Hrun)
    as (canonical & plaintext & rsa & ek & Hs & Hj & _ & _ & He & Hw).
  cbv zeta in *.
  destruct (json_compact_dict_Ok _ _ _ Hj) as (items & Ei & Hp).
  subst plaintext.
  set (plain := utf8_encode ("{" +++ join "," items +++ "}")) in *.
  pose proof (Nat.mod_upper_bound (List.length plain) 16 ltac:(lia)) as Hr.
  exists (dict_set (assembled d api_path (clock w (ticks w))) "signature"
            (VStr (sign SECRET canonical))),
    (sign SECRET canonical), items, ("{" +++ join "," items +++ "}"),
    (padded16 plain), (16 - List.length plain mod 16)%nat.
  eexists _, _.
  split.
  { rewrite Hw. cbn [heap]. eapply nth_error_heap_set_same; exact Hd. }
  split; [apply dict_get_set_same|]. split.
  { unfold assembled, keys_after, injected_keys. cbn [fold_left].
    now rewrite !keys_dict_set. }
  split; [now apply collect_Ok_Forall2|]. split; [reflexivity|].
  split; [exact Hj|]. split; [reflexivity|]. split; [lia|].
  split; [apply padded16_length|]. split; [reflexivity|].
  split; [apply pad_pkcs7_16|].
  split; [unfold padded16; apply unpad_pkcs7_app_repeat; lia|].
  split; [rewrite He; reflexivity|]. split; [apply b64decode_encode|].
  apply cbc_round_trip.
  - intros block Hb. apply HEl; [apply draw_length|exact Hb].
  - intros block Hb. apply HDE; [apply draw_length|exact Hb].
  - apply repeat_length.
  - apply padded16_length.
Qed.

(** C8. Take two runs that return and draw the same sixteen key bytes but
    different OAEP seeds.  Their key fields differ, and so do the
    ciphertexts they encode, yet decrypting either ciphertext with the
    private key gives back the same sixteen bytes, the key the data was
    encrypted with.  OAEP is the library's: it is taken with its contract,
    that the private key decrypts what the public key encrypted and that
    two 20-byte seeds never give the same ciphertext for one message. *)
Theorem key_field_randomized_and_decryptable :
  forall (private_key : Type)
         (oaep_decrypt : private_key -> bytes -> option bytes)
         (sk : private_key)
         params1 api_path1 w1 d1 envelope1 w1'
         params2 api_path2 w2 d2 envelope2 w2',
    (forall rsa seed message c,
        List.length seed = 20%nat ->
        rsa_import_key PUB_KEY = Ok rsa ->
        oaep_encrypt rsa seed message = Ok c ->
        oaep_decrypt sk c = Some message) ->
    (forall rsa seed1 seed2 message c1 c2,
        List.length seed1 = 20%nat -> List.length seed2 = 20%nat ->
        oaep_encrypt rsa seed1 message = Ok c1 ->
        oaep_encrypt rsa seed2 message = Ok c2 ->
        seed1 <> seed2 -> c1 <> c2) ->
    nth_error (heap w1) params1 = Some d1 ->
    nth_error (heap w2) params2 = Some d2 ->
    crypto_data params1 api_path1 w1 = (Ok envelope1, w1') ->
    crypto_data params2 api_path2 w2 = (Ok envelope2, w2') ->
    draw w1 (drawn w1) 16 = draw w2 (drawn w2) 16 ->
    draw w1 (drawn w1 + 16) 20 <> draw w2 (drawn w2 + 16) 20 ->
    exists key1 key2 c1 c2,
      dict_get envelope1 "key" = Some (VStr key1) /\
      dict_get envelope2 "key" = Some (VStr key2) /\
      key1 <> key2 /\
      b64decode key1 = Some c1 /\ b64decode key2 = Some c2 /\
      c1 <> c2 /\
      oaep_decrypt sk c1 = Some (draw w1 (drawn w1) 16) /\
      oaep_decrypt sk c2 = Some (draw w1 (drawn w1) 16) /\
      List.length (draw w1 (drawn w1) 16) = 16%nat /\
      In (EvAesNew (draw w1 (drawn w1) 16) zero_iv) (trace w1') /\
      In (EvAesNew (draw w1 (drawn w1) 16) zero_iv) (trace w2').
Proof.
  intros private_key oaep_decrypt sk
         params1 api_path1 w1 d1 envelope1 w1'
         params2 api_path2 w2 d2 envelope2 w2'
         Hdec Hinj Hd1 Hd2 Hrun1 Hrun2 Hkey Hseed.
  destruct (crypto_data_returns _ _ _ _ _ _ _ _ _ _ Hd1 Hrun1)
    as (s1 & p1 & rsa1 & ek1 & _ & _ & Hi1 & Ho1 & He1 & Hw1).
  destruct (crypto_data_returns _ _ _ _ _ _ _ _ _ _ Hd2 Hrun2)
    as (s2 & p2 & rsa2 & ek2 & _ & _ & Hi2 & Ho2 & He2 & Hw2).
  cbv zeta in *.
  assert (rsa2 = rsa1) by congruence. subst rsa2.
  rewrite <- Hkey in Ho2, Hw2.
  assert (Hne : ek1 <> ek2)
    by (eapply Hinj; try eassumption; apply draw_length).
  exists (b64encode ek1), (b64encode ek2), ek1, ek2.
  split; [rewrite He1; reflexivity|]. split; [rewrite He2; reflexivity|].
  split; [intros H; apply Hne; now apply b64encode_injective|].
  split; [apply b64decode_encode|]. split; [apply b64decode_encode|].
  split; [exact Hne|].
  split; [eapply Hdec; try eassumption; apply draw_length|].
  split; [eapply Hdec; try eassumption; apply draw_length|].
  split; [apply draw_length|].
  split; [rewrite Hw1|rewrite Hw2]; cbn [trace]; apply in_or_app; right;
    do 3 right; now left.
Qed.

End Claims.

Section Requests.
Variable aes_encrypt_block : bytes -> bytes -> bytes.
Variable rsa_key : Type.
Variable rsa_import_key : string -> result rsa_key.
Variable oaep_encrypt : rsa_key -> bytes -> bytes -> result bytes.
Variable http_post : string -> dict -> dict -> string + value.

Local Abbreviation crypto_data :=
  (_crypto_data aes_encrypt_block rsa_key rsa_import_key oaep_encrypt).
Local Abbreviation send_request :=
  (_send_request aes_encrypt_block rsa_key rsa_import_key oaep_encrypt
     http_post).

(** [_send_request] works on a copy: the world it leaves is the one
    [_crypto_data] leaves when run on a new object with the payload's
    entries, up to the trace. *)
Lemma send_request_run :
  forall self api_path payload w d r w',
    nth_error (heap w) payload = Some d ->
    send_request self api_path payload w = (r, w') ->
    exists r1 w1,
      crypto_data (List.length (heap w)) api_path
        (with_heap w (heap w ++ [d])) = (r1, w1) /\
      heap w' = heap w1 /\ ticks w' = ticks w1 /\ drawn w' = drawn w1 /\
      (forall e, r1 = Raise e -> r = Raise e /\ w' = w1) /\
      (forall envelope, r1 = Ok envelope -> exists body, r = Ok body).
Proof.
  intros self api_path payload w d r w' Hd Hrun.
  unfold _send_request, dict_copy, new_dict in Hrun.
  unfold bind at 1 2 in Hrun. unfold dict_items at 1 in Hrun.
  rewrite Hd in Hrun. unfold bind at 1 in Hrun.
  fold (with_heap w (heap w ++ [d])) in Hrun.
  destruct (crypto_data _ _ _) as [[envelope|e] w1] eqn:Hc.
  - exists (Ok envelope), w1. split; [reflexivity|].
    unfold bind, emit, ret in Hrun.
    destruct (http_post _ _ _); inversion Hrun; subst; cbn [heap ticks drawn];
      repeat split; try discriminate; eauto.
  - exists (Raise e), w1. split; [reflexivity|].
    inversion Hrun; subst.
    repeat split; try discriminate; try congruence.
Qed.

(** C9. After [_send_request], whether it returned or raised, the payload
    object holds exactly the entries it held before, and so does every other
    object that existed: the entries apiPath, appId and timestamp (and the
    signature, once computed) went into the copy, a new object.  The shield
    is needed: [_crypto_data] run on an object leaves those entries in that
    very object.  The payload that [sign_in] builds keeps its eight
    entries. *)
Theorem send_request_leaves_payload_untouched :
  forall self api_path payload w d r w',
    nth_error (heap w) payload = Some d ->
    send_request self api_path payload w = (r, w') ->
    nth_error (heap w') payload = Some d /\
    (forall other d0,
        nth_error (heap w) other = Some d0 ->
        nth_error (heap w') other = Some d0) /\
    (exists copied,
        nth_error (heap w) (List.length (heap w)) = None /\
        nth_error (heap w') (List.length (heap w)) = Some copied /\
        dict_get copied "apiPath" = Some (VStr (quote api_path)) /\
        dict_get copied "appId" = Some (VStr APP_ID) /\
        dict_get copied "timestamp" = Some (VInt (clock w (ticks w))) /\
        (forall body, r = Ok body ->
                      exists signature,
                        dict_get copied "signature" = Some (VStr signature))) /\
    (forall r2 w2,
        crypto_data payload api_path w = (r2, w2) ->
        exists mutated,
          nth_error (heap w2) payload = Some mutated /\
          dict_get mutated "apiPath" = Some (VStr (quote api_path)) /\
          dict_get mutated "appId" = Some (VStr APP_ID) /\
          dict_get mutated "timestamp" = Some (VInt (clock w (ticks w)))) /\
    (forall w0 r0 w0',
        sign_in aes_encrypt_block rsa_key rsa_import_key oaep_encrypt
          http_post self w0 = (r0, w0') ->
        nth_error (heap w0') (List.length (heap w0)) =
        Some [("answerResult", VInt (answer_result self));
              ("channelId", VStr (channel_id self));
              ("merchantCode", VStr (merchant_code self));
              ("storeCode", VStr (store_code self));
              ("sysId", VStr (sys_id self));
              ("transactionUuid", VStr (transaction_uuid self));
              ("inviteCode", VStr (invite_code self));
              ("token", VStr (token self))]).
Proof.
  assert (Hfields :
            forall d api_path t d',
              d' = assembled d api_path t \/
              (exists sign_str,
                  d' = dict_set (assembled d api_path t) "signature"
                         (VStr (sign SECRET sign_str))) ->
              dict_get d' "apiPath" = Some (VStr (quote api_path)) /\
              dict_get d' "appId" = Some (VStr APP_ID) /\
              dict_get d' "timestamp" = Some (VInt t)).
  { intros d api_path t d' [->|[s ->]]; unfold assembled;
      repeat split;
      repeat first [ apply dict_get_set_same
                   | rewrite dict_get_set_other by discriminate ]. }
  assert (Hframe :
            forall self api_path payload w d r w',
              nth_error (heap w) payload = Some d ->
              send_request self api_path payload w = (r, w') ->
              forall other d0,
                nth_error (heap w) other = Some d0 ->
                nth_error (heap w') other = Some d0).
  { intros self api_path payload w d r w' Hd Hrun other d0 Ho.
    destruct (send_request_run _ _ _ _ _ _ _ Hd Hrun)
      as (r1 & w1 & Hc & Hh & _).
    assert (Hcopy : nth_error (heap (with_heap w (heap w ++ [d])))
                      (List.length (heap w)) = Some d).
    { cbn [with_heap heap]. rewrite nth_error_app2 by lia.
      now rewrite Nat.sub_diag. }
    destruct (crypto_data_effects _ _ _ _ _ _ _ _ _ _ Hcopy Hc)
      as (d' & new & Hheap & _).
    rewrite Hh, Hheap. cbn [with_heap heap].
    assert (Hlt : (other < List.length (heap w))%nat)
      by (apply nth_error_Some; congruence).
    rewrite nth_error_heap_set_other by lia.
    now rewrite nth_error_app1 by exact Hlt. }
  intros self api_path payload w d r w' Hd Hrun.
  split; [eapply Hframe; eassumption|].
  split; [eapply Hframe; eassumption|].
  split; [|split].
  - destruct (send_request_run _ _ _ _ _ _ _ Hd Hrun)
      as (r1 & w1 & Hc & Hh & _ & _ & Hraise & Hok).
    assert (Hcopy : nth_error (heap (with_heap w (heap w ++ [d])))
                      (List.length (heap w)) = Some d).
    { cbn [with_heap heap]. rewrite nth_error_app2 by lia.
      now rewrite Nat.sub_diag. }
    destruct (crypto_data_effects _ _ _ _ _ _ _ _ _ _ Hcopy Hc)
      as (d' & new & Hheap & _ & _ & _ & _ & Hd' & _).
    cbn [with_heap clock ticks] in Hd'.
    destruct (Hfields _ _ _ _ Hd') as (Ha & Hb & Ht).
    exists d'. split; [apply nth_error_None; lia|]. split.
    { rewrite Hh, Hheap. eapply nth_error_heap_set_same; exact Hcopy. }
    split; [exact Ha|]. split; [exact Hb|]. split; [exact Ht|].
    intros body ->.
    destruct r1 as [envelope|e].
    + destruct (crypto_data_returns _ _ _ _ _ _ _ _ _ _ Hcopy Hc)
        as (s & p & rsa & ek & _ & _ & _ & _ & _ & Hw1).
      cbv zeta in Hw1. rewrite Hw1 in Hheap. cbn [heap with_heap] in Hheap.
      assert (Hsame : nth_error
                        (heap_set (heap w ++ [d]) (List.length (heap w)) d')
                        (List.length (heap w)) = Some d')
        by (eapply nth_error_heap_set_same; exact Hcopy).
      rewrite <- Hheap in Hsame.
      erewrite nth_error_heap_set_same in Hsame by exact Hcopy.
      inversion Hsame; subst d'. eexists. apply dict_get_set_same.
    + destruct (Hraise e eq_refl) as [Habs _]. discriminate.
  - intros r2 w2 Hrun2.
    destruct (crypto_data_effects _ _ _ _ _ _ _ _ _ _ Hd Hrun2)
      as (d' & new & Hheap & _ & _ & _ & _ & Hd' & _).
    destruct (Hfields _ _ _ _ Hd') as (Ha & Hb & Ht).
    exists d'. split; [|auto].
    rewrite Hheap. eapply nth_error_heap_set_same; exact Hd.
  - intros w0 r0 w0' Hsign.
    unfold sign_in in Hsign. unfold bind at 1, new_dict in Hsign.
    match type of Hsign with
    | send_request _ _ _ (with_heap _ (_ ++ [?p])) = _ =>
        eapply (Hframe _ _ _ _ p _ _ _ Hsign)
    end.
    Unshelve.
    all: cbn [with_heap heap]; rewrite nth_error_app2 by lia;
      now rewrite Nat.sub_diag.
Qed.

End Requests.

Section Failures.
Variable aes_encrypt_block : bytes -> bytes -> bytes.
Variable rsa_key : Type.
Variable rsa_import_key : string -> result rsa_key.
Variable oaep_encrypt : rsa_key -> bytes -> bytes -> result bytes.

Local Abbreviation crypto_data :=
  (_crypto_data aes_encrypt_block rsa_key rsa_import_key oaep_encrypt).

Lemma json_compact_dict_raises :
  forall depth d k v e,
    In (k, v) d -> json_compact depth v = Raise e ->
    exists e', json_compact depth (VDict d) = Raise e'.
Proof.
  intros depth d k v e HIn Hv.
  destruct depth as [|depth]; [eexists; reflexivity|].
  destruct (json_compact_fewer_levels v (S depth) depth e Hv ltac:(lia))
    as [e0 Hv0].
  assert (Hentry : json_entry depth (k, v) = Raise e0)
    by (unfold json_entry; cbn [snd]; now rewrite Hv0).
  destruct (collect_In_Raise _ _ (json_entry depth) d _ _ HIn Hentry)
    as [e' He'].
  rewrite json_compact_dict, He'. eauto.
Qed.

(** C2, as the code has it.  A value that [json.dumps] cannot serialize,
    under a key that the client does not overwrite, makes the run raise:
    no envelope is returned, nothing is encrypted and no key is wrapped.
    When the value is a list or a dict the signing loop raises.  Whenever
    the signing loop raises, its exception is the one of the run, and the
    run ends right after the clock is read: no key is drawn and no cipher
    is created.  When the signing loop passes, as it does for an object
    that str prints, the exception is the one that the serialization of the
    whole map raises, after the signature was computed, the sixteen key
    bytes were drawn and the cipher was created. *)
Theorem unserializable_value_aborts_before_encryption :
  forall params api_path w d k v e,
    nth_error (heap w) params = Some d ->
    In (k, v) d ->
    ~ In k injected_keys ->
    json_compact (json_depth w) v = Raise e ->
    let t := clock w (ticks w) in
    let d1 := assembled d api_path t in
    exists e' w' new,
      crypto_data params api_path w = (Raise e', w') /\
      trace w' = trace w ++ new /\
      Forall (fun ev => is_encryption ev = false) new /\
      (is_dict_or_list v = true ->
       exists e1, sign_string (json_depth w) (repr_depth w) d1 = Raise e1) /\
      (forall e1,
          sign_string (json_depth w) (repr_depth w) d1 = Raise e1 ->
          e' = e1 /\ new = [EvTime t] /\ drawn w' = drawn w) /\
      (forall canonical,
          sign_string (json_depth w) (repr_depth w) d1 = Ok canonical ->
          json_compact (json_depth w)
            (VDict (dict_set d1 "signature" (VStr (sign SECRET canonical))))
          = Raise e' /\
          new = [EvTime t;
                 EvHmac (utf8_encode SECRET) (utf8_encode canonical);
                 EvUrandom (draw w (drawn w) 16);
                 EvAesNew (draw w (drawn w) 16) zero_iv] /\
          drawn w' = (drawn w + 16)%nat).
Proof.
  intros params api_path w d k v e Hd HIn Hk Hv t d1.
  assert (HIn1 : In (k, v) d1).
  { unfold injected_keys in Hk. cbn [In] in Hk. subst d1. unfold assembled.
    repeat (apply dict_set_In_other; [intros ->; tauto|]). exact HIn. }
  assert (Hcontainer :
            is_dict_or_list v = true ->
            exists e1, sign_string (json_depth w) (repr_depth w) d1 = Raise e1).
  { intros Hc.
    assert (Hkv : key_value (json_depth w) (repr_depth w) (k, v) = Raise e).
    { unfold key_value, key_value_of, serialize_value. cbn [fst snd].
      now rewrite Hc, Hv. }
    assert (Hnn : In (k, v) (non_null d1)).
    { unfold non_null. apply filter_In. split; [exact HIn1|].
      destruct v; try discriminate; reflexivity. }
    destruct (collect_In_Raise _ _ _ _ _ _ Hnn Hkv) as [e' He'].
    rewrite sign_string_Canonicalize. unfold Canonicalize, Canonicalize_of.
    fold key_value. rewrite He'. eauto. }
  rewrite (crypto_data_run _ _ _ _ _ _ _ _ Hd). cbv zeta. fold t. fold d1.
  destruct (sign_string (json_depth w) (repr_depth w) d1)
    as [canonical|e0] eqn:Hs.
  - destruct (json_compact_dict_raises (json_depth w)
                (dict_set d1 "signature" (VStr (sign SECRET canonical)))
                k v e) as [e' Hj]; [|exact Hv|].
    { apply dict_set_In_other; [|exact HIn1].
      unfold injected_keys in Hk. cbn [In] in Hk. intros ->. tauto. }
    rewrite Hj. eexists e', _, _. split; [reflexivity|]. cbn [trace drawn].
    split; [reflexivity|]. split; [repeat constructor|].
    split; [exact Hcontainer|]. split; [discriminate|].
    intros c Hc. inversion Hc; subst c. repeat split. exact Hj.
  - eexists e0, _, _. split; [reflexivity|]. cbn [trace drawn].
    split; [reflexivity|]. split; [repeat constructor|].
    split; [intros _; eauto|]. split.
    + intros e1 H1. inversion H1. repeat split.
    + intros c Hc. discriminate.
Qed.

End Failures.

(** C2, as the specification has it, fails: with an object that
    [json.dumps] does not know as a value of the map, the run raises the
    TypeError of [json.dumps] only after it has computed the signature,
    drawn the sixteen key bytes and created the cipher. *)
Lemma unserializable_value_raises_after_key_and_cipher :
  json_compact deep (VObject "<object object at 0x7f>") = Raise TypeError /\
  exists w',
    _crypto_data xor_block unit import_pem seed_wrap 0 golden_path object_world
    = (Raise TypeError, w') /\
    drawn w' = 16%nat /\
    existsb is_urandom (trace w') = true /\
    existsb is_cipher_call (trace w') = true /\
    trace w' =
    [EvTime 1700000000000;
     EvHmac (utf8_encode SECRET)
       (utf8_encode
          ("answerResult=1&apiPath=%2Fapi%2Fpoints%2FsaveQuestionSignin"
           +++ "&appId=API_AUTH_WEB&timestamp=1700000000000"
           +++ "&token=<object object at 0x7f>"));
     EvUrandom (draw object_world 0 16);
     EvAesNew (draw object_world 0 16) zero_iv].
Proof.
  split; [reflexivity|]. eexists. split; [vm_compute; reflexivity|].
  repeat split; vm_compute; reflexivity.
Qed.

(** * The scenario of the specification, evaluated *)

(** RFC 1321 and RFC 2202 test vectors. *)
Example md5_abc :
  hex (MD5.digest (utf8_encode "abc")) = "900150983cd24fb0d6963f7d28e17f72".
Proof. vm_compute. reflexivity. Qed.

Example hmac_md5_rfc2202_case2 :
  hmac_md5_hexdigest (utf8_encode "Jefe")
    (utf8_encode "what do ya want for nothing?")
  = "750c783e6ab0b503eaa86e310a5db738".
Proof. vm_compute. reflexivity. Qed.

(** The canonical string, the signature and the JSON text that CPython
    computes for the scenario. *)
Example golden_scenario :
  sign_string deep deep (assembled golden_params golden_path 1700000000000)
  = Ok golden_canonical /\
  sign SECRET golden_canonical = golden_signature /\
  json_compact deep
    (VDict (dict_set (assembled golden_params golden_path 1700000000000)
              "signature" (VStr golden_signature)))
  = Ok golden_plaintext.
Proof. repeat split; vm_compute; reflexivity. Qed.

Lemma xor_block_length :
  forall key block,
    List.length key = 16%nat -> List.length block = 16%nat ->
    List.length (xor_block key block) = 16%nat.
Proof.
  intros key block Hk Hb. unfold xor_block.
  rewrite xor_bytes_length; congruence.
Defined.

Lemma xor_block_involutive :
  forall key block,
    List.length key = 16%nat -> List.length block = 16%nat ->
    xor_block key (xor_block key block) = block.
Proof.
  intros key block Hk Hb. unfold xor_block.
  apply xor_bytes_involutive. congruence.
Defined.

Lemma seed_wrap_unwrap :
  forall rsa seed message c,
    List.length seed = 20%nat ->
    import_pem PUB_KEY = Ok rsa ->
    seed_wrap rsa seed message = Ok c ->
    seed_unwrap tt c = Some message.
Proof.
  intros rsa seed message c Hlen _ H. inversion H; subst c.
  unfold seed_unwrap. f_equal.
  rewrite skipn_app, Hlen, Nat.sub_diag.
  rewrite skipn_all2 by lia. reflexivity.
Defined.

Lemma seed_wrap_injective :
  forall rsa seed1 seed2 message c1 c2,
    List.length seed1 = 20%nat -> List.length seed2 = 20%nat ->
    seed_wrap rsa seed1 message = Ok c1 ->
    seed_wrap rsa seed2 message = Ok c2 ->
    seed1 <> seed2 -> c1 <> c2.
Proof.
  intros rsa seed1 seed2 message c1 c2 _ _ H1 H2 Hne.
  unfold seed_wrap in H1, H2. injection H1 as <-. injection H2 as <-.
  intros Heq. apply Hne. eapply app_inv_tail; exact Heq.
Defined.

(** * The theorems at the scenario *)

Local Abbreviation run_on w :=
  (_crypto_data xor_block unit import_pem seed_wrap 0 golden_path w).

Lemma golden_run_returns :
  run_on golden_world = (Ok golden_envelope, snd golden_run).
Proof. vm_compute. reflexivity. Defined.

Lemma reseeded_run_returns :
  run_on reseeded_world = (Ok reseeded_envelope, snd reseeded_run).
Proof. vm_compute. reflexivity. Defined.

Lemma null_run_returns :
  run_on null_world = (Ok null_envelope, snd null_run).
Proof. vm_compute. reflexivity. Defined.

Lemma golden_request_outcome :
  _send_request xor_block unit import_pem seed_wrap no_network golden_self
    golden_path 0 golden_world
  = (fst golden_request, snd golden_request).
Proof. unfold golden_request. apply surjective_pairing. Defined.

Lemma unserializable_value_aborts_before_encryption_witness :
  nth_error (heap object_world) 0 = Some object_params /\
  In ("token", VObject "<object object at 0x7f>") object_params /\
  ~ In "token" injected_keys /\
  json_compact (json_depth object_world) (VObject "<object object at 0x7f>")
  = Raise TypeError /\
  exists w',
    _crypto_data xor_block unit import_pem seed_wrap 0 golden_path object_world
    = (Raise TypeError, w') /\
    Forall (fun ev => is_encryption ev = false) (trace w').
Proof.
  assert (Hk : ~ In "token" injected_keys).
  { cbn [injected_keys In]. intros [H|[H|[H|[H|[]]]]]; discriminate H. }
  split; [reflexivity|]. split; [right; left; reflexivity|].
  split; [exact Hk|]. split; [reflexivity|].
  destruct (unserializable_value_aborts_before_encryption
              xor_block unit import_pem seed_wrap 0 golden_path object_world
              object_params "token" (VObject "<object object at 0x7f>")
              TypeError eq_refl (or_intror (or_introl eq_refl)) Hk eq_refl)
    as (e' & w' & new & Hrun & Htr & Hnew & _ & _ & Hpass).
  exists w'. split; [|rewrite Htr; exact Hnew].
  rewrite Hrun. do 2 f_equal.
  destruct (Hpass _ ltac:(vm_compute; reflexivity)) as (Hj & _).
  vm_compute in Hj. now inversion Hj.
Defined.

Lemma data_field_decrypts_to_padded_json_witness :
  nth_error (heap golden_world) 0 = Some golden_params /\
  run_on golden_world = (Ok golden_envelope, snd golden_run) /\
  exists data ciphertext padded,
    dict_get golden_envelope "data" = Some (VStr data) /\
    b64decode data = Some ciphertext /\
    cbc_decrypt xor_block (draw golden_world 0 16) (repeat x00 16) ciphertext
    = padded /\
    _pad_pkcs7 (utf8_encode golden_plaintext) 16 = Ok padded.
Proof.
  split; [reflexivity|]. split; [exact golden_run_returns|].
  destruct (data_field_decrypts_to_padded_json
              xor_block unit import_pem seed_wrap xor_block
              0 golden_path golden_world golden_params golden_envelope
              (snd golden_run) xor_block_length xor_block_involutive
              eq_refl golden_run_returns)
    as (d' & signature & items & plaintext & padded & n & data & ciphertext
        & Hd' & _ & _ & _ & _ & Hj & _ & _ & _ & _ & Hp & _ & He & Hb & Hc).
  exists data, ciphertext, padded.
  split; [exact He|]. split; [exact Hb|]. split; [exact Hc|].
  assert (Hplain : plaintext = golden_plaintext).
  { vm_compute in Hd'. injection Hd' as Heq. subst d'.
    vm_compute in Hj. injection Hj as Heq. subst plaintext.
    vm_compute. reflexivity. }
  rewrite <- Hplain. exact Hp.
Defined.

Lemma signature_is_hmac_md5_hexdigest_witness :
  nth_error (heap golden_world) 0 = Some golden_params /\
  run_on golden_world = (Ok golden_envelope, snd golden_run) /\
  exists d',
    nth_error (heap (snd golden_run)) 0 = Some d' /\
    dict_get d' "signature" = Some (VStr golden_signature).
Proof.
  split; [reflexivity|]. split; [exact golden_run_returns|].
  destruct (signature_is_hmac_md5_hexdigest
              xor_block unit import_pem seed_wrap
              0 golden_path golden_world golden_params golden_envelope
              (snd golden_run) eq_refl golden_run_returns)
    as (canonical & signature & d' & plaintext & before & after
        & Hs & Hsig & _ & _ & Hd' & _ & Hg & _).
  exists d'. split; [exact Hd'|]. rewrite Hg. do 2 f_equal.
  assert (Hc : sign_string (json_depth golden_world)
                 (repr_depth golden_world)
                 (assembled golden_params golden_path
                    (clock golden_world (ticks golden_world)))
               = Ok golden_canonical) by (vm_compute; reflexivity).
  rewrite Hc in Hs. injection Hs as Heq. subst canonical. rewrite Hsig.
  vm_compute. reflexivity.
Defined.

Lemma iv_is_sixteen_zero_bytes_witness :
  nth_error (heap golden_world) 0 = Some golden_params /\
  run_on golden_world = (Ok golden_envelope, snd golden_run) /\
  forall key iv,
    In (EvAesNew key iv) (trace (snd golden_run)) ->
    iv = [x00; x00; x00; x00; x00; x00; x00; x00;
          x00; x00; x00; x00; x00; x00; x00; x00].
Proof.
  split; [reflexivity|]. split; [exact golden_run_returns|].
  destruct (iv_is_sixteen_zero_bytes
              xor_block unit import_pem seed_wrap
              0 golden_path golden_world golden_params (Ok golden_envelope)
              (snd golden_run) eq_refl golden_run_returns)
    as (new & Htr & Hiv & _).
  intros key iv HIn. apply (Hiv key iv).
  change (trace golden_world) with (@nil event) in Htr. cbn [app] in Htr.
  rewrite <- Htr. exact HIn.
Defined.

Lemma timestamp_read_once_and_reused_witness :
  nth_error (heap golden_world) 0 = Some golden_params /\
  run_on golden_world = (Ok golden_envelope, snd golden_run) /\
  ticks (snd golden_run) = 1%nat /\
  exists d',
    nth_error (heap (snd golden_run)) 0 = Some d' /\
    dict_get d' "timestamp" = Some (VInt 1700000000000).
Proof.
  split; [reflexivity|]. split; [exact golden_run_returns|].
  destruct (timestamp_read_once_and_reused
              xor_block unit import_pem seed_wrap
              0 golden_path golden_world golden_params (Ok golden_envelope)
              (snd golden_run) eq_refl golden_run_returns)
    as (Hticks & _ & Hok).
  split; [exact Hticks|].
  destruct (Hok golden_envelope eq_refl)
    as (pairs & canonical & d' & items & plaintext
        & _ & _ & _ & _ & Hd' & Ht & _).
  exists d'. split; [exact Hd'|exact Ht].
Defined.

Lemma key_field_randomized_and_decryptable_witness :
  nth_error (heap golden_world) 0 = Some golden_params /\
  nth_error (heap reseeded_world) 0 = Some golden_params /\
  run_on golden_world = (Ok golden_envelope, snd golden_run) /\
  run_on reseeded_world = (Ok reseeded_envelope, snd reseeded_run) /\
  draw golden_world 0 16 = draw reseeded_world 0 16 /\
  draw golden_world (0 + 16) 20 <> draw reseeded_world (0 + 16) 20 /\
  exists key1 key2 c1 c2,
    dict_get golden_envelope "key" = Some (VStr key1) /\
    dict_get reseeded_envelope "key" = Some (VStr key2) /\
    key1 <> key2 /\
    b64decode key1 = Some c1 /\ b64decode key2 = Some c2 /\
    seed_unwrap tt c1 = Some (draw golden_world 0 16) /\
    seed_unwrap tt c2 = Some (draw golden_world 0 16).
Proof.
  assert (Hkey : draw golden_world (drawn golden_world) 16
                 = draw reseeded_world (drawn reseeded_world) 16)
    by (vm_compute; reflexivity).
  assert (Hseed : draw golden_world (drawn golden_world + 16) 20
                  <> draw reseeded_world (drawn reseeded_world + 16) 20)
    by (vm_compute; intros H; discriminate H).
  split; [reflexivity|]. split; [reflexivity|].
  split; [exact golden_run_returns|]. split; [exact reseeded_run_returns|].
  split; [exact Hkey|]. split; [exact Hseed|].
  destruct (key_field_randomized_and_decryptable
              xor_block unit import_pem seed_wrap unit seed_unwrap tt
              0 golden_path golden_world golden_params golden_envelope
              (snd golden_run)
              0 golden_path reseeded_world golden_params reseeded_envelope
              (snd reseeded_run)
              seed_wrap_unwrap seed_wrap_injective eq_refl eq_refl
              golden_run_returns reseeded_run_returns Hkey Hseed)
    as (key1 & key2 & c1 & c2 & H1 & H2 & Hne & Hb1 & Hb2 & _ & Hu1 & Hu2 & _).
  exists key1, key2, c1, c2. repeat split; assumption.
Defined.

Lemma send_request_leaves_payload_untouched_witness :
  nth_error (heap golden_world) 0 = Some golden_params /\
  _send_request xor_block unit import_pem seed_wrap no_network golden_self
    golden_path 0 golden_world
  = (fst golden_request, snd golden_request) /\
  fst golden_request
  = Ok (VDict [("success", VBool false);
               ("error", VStr "connection refused")]) /\
  nth_error (heap (snd golden_request)) 0 = Some golden_params.
Proof.
  split; [reflexivity|]. split; [exact golden_request_outcome|].
  split; [vm_compute; reflexivity|].
  destruct (send_request_leaves_payload_untouched
              xor_block unit import_pem seed_wrap no_network golden_self
              golden_path 0 golden_world golden_params (fst golden_request)
              (snd golden_request) eq_refl golden_request_outcome)
    as [Hsame _].
  exact Hsame.
Defined.

Lemma null_entry_unsigned_but_sent_witness :
  nth_error (heap null_world) 0 = Some null_params /\
  In ("inviteCode", VNone) null_params /\
  ~ In "inviteCode" injected_keys /\
  run_on null_world = (Ok null_envelope, snd null_run) /\
  exists canonical items,
    sign_string deep deep (assembled null_params golden_path 1700000000000)
    = Ok canonical /\
    canonical = "answerResult=1&apiPath=%2Fapi%2Fpoints%2FsaveQuestionSignin&appId=API_AUTH_WEB&timestamp=1700000000000" /\
    In (json_text "'inviteCode':null") items.
Proof.
  assert (Hk : ~ In "inviteCode" injected_keys).
  { cbn [injected_keys In]. intros [H|[H|[H|[H|[]]]]]; discriminate H. }
  split; [reflexivity|]. split; [right; left; reflexivity|].
  split; [exact Hk|]. split; [exact null_run_returns|].
  destruct (null_entry_unsigned_but_sent
              xor_block unit import_pem seed_wrap
              0 golden_path null_world null_params "inviteCode" null_envelope
              (snd null_run) eq_refl (or_intror (or_introl eq_refl)) Hk
              null_run_returns)
    as (pairs & canonical & d' & items & plaintext
        & _ & _ & _ & Hs & _ & _ & _ & _ & _ & Hi & _).
  exists canonical, items. split; [exact Hs|]. split; [|exact Hi].
  vm_compute in Hs. injection Hs as Heq. now subst canonical.
Defined.

(** C10, as the specification has it, fails for an entry under a key that
    the client sets itself: with {"answerResult":1,"signature":None} the
    None entry gives no pair of the canonical string, and the JSON text that
    is encrypted holds the computed signature under that key, not null. *)
Lemma null_signature_entry_is_not_sent_as_null :
  In ("signature", VNone) unsigned_params /\
  exists items,
    run_on unsigned_world = (Ok unsigned_envelope, snd unsigned_run) /\
    sign_string deep deep (assembled unsigned_params golden_path 1700000000000)
    = Ok "answerResult=1&apiPath=%2Fapi%2Fpoints%2FsaveQuestionSignin&appId=API_AUTH_WEB&timestamp=1700000000000" /\
    nth_error (heap (snd unsigned_run)) 0
    = Some [("answerResult", VInt 1);
            ("signature", VStr "ef5769dd9648b88c8ac933934da9ee19");
            ("apiPath", VStr "%2Fapi%2Fpoints%2FsaveQuestionSignin");
            ("appId", VStr "API_AUTH_WEB");
            ("timestamp", VInt 1700000000000)] /\
    collect (json_entry deep)
      [("answerResult", VInt 1);
       ("signature", VStr "ef5769dd9648b88c8ac933934da9ee19");
       ("apiPath", VStr "%2Fapi%2Fpoints%2FsaveQuestionSignin");
       ("appId", VStr "API_AUTH_WEB");
       ("timestamp", VInt 1700000000000)] = Ok items /\
    ~ In (json_text "'signature':null") items /\
    In (EvAesEncrypt
          (padded16 (utf8_encode ("{" +++ join "," items +++ "}"))))
       (trace (snd unsigned_run)).
Proof.
  split; [right; left; reflexivity|].
  eexists. split; [vm_compute; reflexivity|].
  split; [vm_compute; reflexivity|]. split; [vm_compute; reflexivity|].
  split; [vm_compute; reflexivity|]. split.
  - cbn [In]. intros [H|[H|[H|[H|[H|[]]]]]]; vm_compute in H; discriminate H.
  - vm_compute. do 4 right. left. reflexivity.
Qed.

(** * Further properties of the client *)

(** ** [_pad_pkcs7] with other block sizes *)

(** X1. For every block size from 1 to 255, padding succeeds: it appends n
    bytes of value n with n between 1 and the block size, the padded length
    is a multiple of the block size, and stripping as many bytes as the last
    byte says gives the input back. *)
Theorem pad_pkcs7_any_block_size :
  forall (data : bytes) (block_size : Z),
    (1 <= block_size <= 255)%Z ->
    exists (padded : bytes) (n : nat),
      _pad_pkcs7 data block_size = Ok padded /\
      padded = data ++ repeat (byte_of_N (N.of_nat n)) n /\
      (1 <= n <= Z.to_nat block_size)%nat /\
      (List.length padded mod Z.to_nat block_size = 0)%nat /\
      unpad_pkcs7 padded = data.
Proof.
  intros data block_size Hb.
  set (b := Z.to_nat block_size).
  assert (Hb' : (1 <= b <= 255)%nat) by (subst b; lia).
  assert (Hbz : Z.of_nat b = block_size) by (subst b; lia).
  pose proof (Nat.mod_upper_bound (List.length data) b ltac:(lia)) as Hr.
  set (n := (b - List.length data mod b)%nat).
  assert (Hn : (1 <= n <= b)%nat) by (subst n; lia).
  exists (data ++ repeat (byte_of_N (N.of_nat n)) n), n.
  split.
  { unfold _pad_pkcs7.
    destruct (block_size =? 0)%Z eqn:E0; [apply Z.eqb_eq in E0; lia|].
    assert (Hz : (block_size - Z.of_nat (List.length data) mod block_size
                  = Z.of_nat n)%Z).
    { subst n. rewrite Nat2Z.inj_sub by lia.
      rewrite (Nat2Z.inj_mod (List.length data) b), Hbz. reflexivity. }
    cbv zeta. rewrite Hz, bytes_repeat_small by lia. reflexivity. }
  split; [reflexivity|]. split; [exact Hn|]. split.
  - rewrite List.length_app, repeat_length. subst n.
    pose proof (Nat.div_mod_eq (List.length data) b) as Hd.
    replace (List.length data + (b - List.length data mod b))%nat
      with ((1 + List.length data / b) * b)%nat by nia.
    apply Nat.Div0.mod_mul.
  - apply unpad_pkcs7_app_repeat. lia.
Qed.

(** X2. Outside that range, on a 64-bit CPython: a block size of 0 raises
    ZeroDivisionError; a negative block size, down to -2^63, returns the
    data as it is, without any padding; and a positive block size is
    accepted exactly when the padding it asks for is at most 255 bytes long,
    whatever the block size is, the padding being then the usual one.  So
    with empty data every block size above 255 is refused. *)
Theorem pad_pkcs7_block_size_edges :
  forall (data : bytes) (block_size : Z),
    let padding_len :=
      (block_size - Z.of_nat (List.length data) mod block_size)%Z in
    (block_size = 0%Z -> _pad_pkcs7 data block_size = Raise ZeroDivisionError) /\
    ((- 2 ^ 63 <= block_size < 0)%Z -> _pad_pkcs7 data block_size = Ok data) /\
    ((0 < block_size)%Z ->
     (1 <= padding_len <= block_size)%Z /\
     ((padding_len <= 255)%Z ->
      _pad_pkcs7 data block_size
      = Ok (data ++ repeat (byte_of_N (Z.to_N padding_len))
                      (Z.to_nat padding_len))) /\
     ((255 < padding_len)%Z ->
      exists e, _pad_pkcs7 data block_size = Raise e)) /\
    ((255 < block_size)%Z -> exists e, _pad_pkcs7 [] block_size = Raise e).
Proof.
  intros data block_size padding_len.
  assert (H63 : (2 ^ 63 = 9223372036854775808)%Z) by reflexivity.
  assert (Hraise : forall n, (255 < n)%Z -> exists e, bytes_repeat n = Raise e).
  { intros n Hn. unfold bytes_repeat.
    destruct ((n <? - 2 ^ 63) || (2 ^ 63 <=? n))%Z%bool; [eauto|].
    destruct (n <=? 0)%Z eqn:E1; [apply Z.leb_le in E1; lia|].
    destruct (2 ^ 60 <=? n)%Z; [eauto|].
    destruct (255 <? n)%Z eqn:E2; [eauto|]. apply Z.ltb_ge in E2. lia. }
  split; [intros ->; reflexivity|]. split; [|split].
  - intros Hneg. unfold _pad_pkcs7.
    destruct (block_size =? 0)%Z eqn:E0; [apply Z.eqb_eq in E0; lia|].
    pose proof (Z.mod_neg_bound (Z.of_nat (List.length data)) block_size
                  ltac:(lia)) as Hm.
    cbv zeta. fold padding_len.
    assert (Hp : (- 2 ^ 63 <= padding_len <= 0)%Z) by (subst padding_len; lia).
    unfold bytes_repeat.
    replace (padding_len <? - 2 ^ 63)%Z with false
      by (symmetry; apply Z.ltb_ge; lia).
    replace (2 ^ 63 <=? padding_len)%Z with false
      by (symmetry; apply Z.leb_gt; lia).
    replace (padding_len <=? 0)%Z with true
      by (symmetry; apply Z.leb_le; lia).
    cbn [orb]. now rewrite app_nil_r.
  - intros Hpos.
    pose proof (Z.mod_pos_bound (Z.of_nat (List.length data)) block_size Hpos)
      as Hm.
    assert (Hp : (1 <= padding_len <= block_size)%Z)
      by (subst padding_len; lia).
    split; [exact Hp|]. unfold _pad_pkcs7.
    destruct (block_size =? 0)%Z eqn:E0; [apply Z.eqb_eq in E0; lia|].
    cbv zeta. fold padding_len. split.
    + intros Hsmall.
      replace padding_len with (Z.of_nat (Z.to_nat padding_len)) at 1 by lia.
      rewrite bytes_repeat_small by lia.
      replace (N.of_nat (Z.to_nat padding_len)) with (Z.to_N padding_len)
        by lia.
      reflexivity.
    + intros Hbig. destruct (Hraise _ Hbig) as [e He]. rewrite He. eauto.
  - intros Hbig. unfold _pad_pkcs7.
    destruct (block_size =? 0)%Z eqn:E0; [apply Z.eqb_eq in E0; lia|].
    cbn [List.length Z.of_nat]. rewrite Z.mod_0_l by lia. rewrite Z.sub_0_r.
    destruct (Hraise _ Hbig) as [e He]. rewrite He. eauto.
Qed.

(** ** The text [quote] and [json.dumps] produce *)

Lemma concat_empty_cons :
  forall s l, String.concat EmptyString (s :: l) = s +++ String.concat EmptyString l.
Proof.
  intros s [|x l]; [|reflexivity]. cbn [String.concat].
  induction s as [|c s IH]; [reflexivity|]. simpl. now rewrite <- IH.
Qed.

Lemma forallb_string_app :
  forall f s1 s2,
    forallb f (list_ascii_of_string (s1 +++ s2))
    = (forallb f (list_ascii_of_string s1)
       && forallb f (list_ascii_of_string s2))%bool.
Proof. intros. now rewrite list_ascii_of_string_app, forallb_app. Qed.

Lemma quote_byte_url_safe :
  forall b, forallb is_url_safe (list_ascii_of_string (quote_byte b)) = true.
Proof. intros b. destruct b; reflexivity. Qed.

Lemma quote_byte_unreserved :
  forall b, always_safe b = true ->
            quote_byte b = String (ascii_of_byte b) EmptyString.
Proof. intros b H. unfold quote_byte. now rewrite H. Qed.

Lemma utf8_char_unreserved :
  forall c, always_safe (byte_of_ascii c) = true ->
            utf8_char c = [byte_of_ascii c].
Proof.
  intros c. destruct c as [[] [] [] [] [] [] [] []];
    first [discriminate | reflexivity].
Qed.

(** X3. Whatever the path, the text [quote(api_path, safe='')] writes into
    the apiPath field holds only letters, digits, the four characters
    underscore, dot, hyphen and tilde, and the percent sign of an escape; so
    it never holds a slash.  A text made of unreserved characters only is
    left as it is. *)
Theorem quote_is_url_safe :
  forall s,
    forallb is_url_safe (list_ascii_of_string (quote s)) = true /\
    ~ In "/"%char (list_ascii_of_string (quote s)) /\
    (forallb (fun c => always_safe (byte_of_ascii c)) (list_ascii_of_string s)
     = true -> quote s = s).
Proof.
  intros s.
  assert (Hsafe : forallb is_url_safe (list_ascii_of_string (quote s)) = true).
  { unfold quote. induction (utf8_encode s) as [|b bs IH]; [reflexivity|].
    cbn [map]. rewrite concat_empty_cons, forallb_string_app, IH.
    now rewrite quote_byte_url_safe. }
  split; [exact Hsafe|]. split.
  - intros HIn. rewrite forallb_forall in Hsafe.
    specialize (Hsafe _ HIn). discriminate Hsafe.
  - clear Hsafe. unfold quote. induction s as [|c s IH]; [reflexivity|].
    cbn [list_ascii_of_string forallb utf8_encode]. intros H.
    apply andb_prop in H. destruct H as [Hc Hs].
    rewrite (utf8_char_unreserved c Hc). cbn [app map].
    rewrite concat_empty_cons, (quote_byte_unreserved _ Hc).
    rewrite ascii_of_byte_of_ascii. cbn [String.append]. f_equal.
    apply IH. exact Hs.
Qed.

Lemma escape_char_printable :
  forall c, forallb is_printable (list_ascii_of_string (escape_char c)) = true.
Proof. intros c. destruct c as [[] [] [] [] [] [] [] []]; reflexivity. Qed.

Lemma encode_basestring_ascii_printable :
  forall s,
    forallb is_printable (list_ascii_of_string (encode_basestring_ascii s)) = true.
Proof.
  intros s. unfold encode_basestring_ascii.
  cbn [list_ascii_of_string forallb].
  replace (is_printable DQUOTE) with true by reflexivity. cbn [andb].
  rewrite forallb_string_app. cbn [list_ascii_of_string forallb].
  replace (is_printable DQUOTE) with true by reflexivity.
  rewrite andb_true_r.
  induction s as [|c s IH]; [reflexivity|]. cbn [escape_chars].
  now rewrite forallb_string_app, escape_char_printable, IH.
Qed.

Lemma string_of_uint_printable :
  forall d,
    forallb is_printable (list_ascii_of_string (NilEmpty.string_of_uint d)) = true.
Proof. induction d; simpl; auto. Qed.

Lemma str_of_int_printable :
  forall n, forallb is_printable (list_ascii_of_string (str_of_int n)) = true.
Proof.
  intros n. unfold str_of_int, NilZero.string_of_int, NilZero.string_of_uint.
  destruct (Z.to_int n) as [d|d]; destruct d; try reflexivity;
    try apply (string_of_uint_printable (Decimal.D0 _));
    cbn [list_ascii_of_string forallb];
    rewrite ?andb_true_l; apply string_of_uint_printable.
Qed.

Lemma concat_printable :
  forall sep parts,
    forallb is_printable (list_ascii_of_string sep) = true ->
    Forall (fun s => forallb is_printable (list_ascii_of_string s) = true) parts ->
    forallb is_printable (list_ascii_of_string (String.concat sep parts)) = true.
Proof.
  intros sep parts Hsep. induction 1 as [|s l Hs Hl IH]; [reflexivity|].
  cbn [String.concat]. destruct l as [|s' l]; [exact Hs|].
  rewrite !forallb_string_app, Hs, Hsep. exact IH.
Qed.

Lemma utf8_encode_printable :
  forall s,
    forallb is_printable (list_ascii_of_string s) = true ->
    utf8_encode s = list_byte_of_string s.
Proof.
  induction s as [|c s IH]; [reflexivity|].
  cbn [list_ascii_of_string forallb]. intros H.
  apply andb_prop in H. destruct H as [Hc Hs].
  cbn [utf8_encode]. rewrite (IH Hs).
  change (list_byte_of_string (String c s))
    with (byte_of_ascii c :: list_byte_of_string s).
  replace (utf8_char c) with [byte_of_ascii c]; [reflexivity|].
  revert Hc. clear. destruct c as [[] [] [] [] [] [] [] []];
    first [discriminate | reflexivity].
Qed.

Lemma substring_printable :
  forall s n m,
    forallb is_printable (list_ascii_of_string s) = true ->
    forallb is_printable (list_ascii_of_string (String.substring n m s)) = true.
Proof.
  induction s as [|c s IH]; intros n m H.
  - destruct n, m; reflexivity.
  - cbn [list_ascii_of_string forallb] in H.
    apply andb_prop in H. destruct H as [Hc Hs].
    destruct n as [|n]; cbn [String.substring].
    + destruct m as [|m]; [reflexivity|].
      cbn [list_ascii_of_string forallb]. rewrite Hc. now apply IH.
    + now apply IH.
Qed.

Lemma zeros_printable :
  forall n, forallb is_printable (list_ascii_of_string (zeros n)) = true.
Proof. induction n; [reflexivity|exact IHn]. Qed.

Lemma float_json_printable :
  forall f, forallb is_printable (list_ascii_of_string (float_json f)) = true.
Proof.
  intros [|[]|negative digits decpt]; try reflexivity.
  cbn [float_json float_repr]. cbv zeta.
  pose proof (str_of_int_printable (Z.of_N digits)) as Hd.
  rewrite forallb_string_app. apply andb_true_intro. split.
  { destruct negative; reflexivity. }
  destruct ((decpt <=? -4) || (16 <? decpt))%Z%bool;
    [|destruct (decpt <=? 0)%Z; [|destruct (decpt <? _)%Z]];
    repeat first [ rewrite forallb_string_app
                 | rewrite substring_printable by exact Hd
                 | rewrite zeros_printable
                 | rewrite str_of_int_printable
                 | rewrite Hd ];
    repeat match goal with
           | |- context [if ?c then _ else _] => destruct c
           end;
    repeat first [ rewrite forallb_string_app
                 | rewrite substring_printable by exact Hd ];
    reflexivity.
Qed.

Lemma json_compact_printable :
  forall v depth s,
    json_compact depth v = Ok s ->
    forallb is_printable (list_ascii_of_string s) = true.
Proof.
  assert (Hlist : forall depth items s,
             Forall (fun v => forall depth s,
                         json_compact depth v = Ok s ->
                         forallb is_printable (list_ascii_of_string s) = true)
               items ->
             json_compact depth (VList items) = Ok s ->
             forallb is_printable (list_ascii_of_string s) = true).
  { intros depth items s IH Hs. destruct depth as [|depth]; [discriminate|].
    rewrite json_compact_list in Hs.
    destruct (collect (json_compact depth) items) as [chunks|] eqn:Ec;
      [|discriminate].
    inversion Hs. cbn [String.append list_ascii_of_string forallb].
    replace (is_printable "[") with true by reflexivity. cbn [andb].
    rewrite forallb_string_app. rewrite andb_true_iff. split; [|reflexivity].
    apply concat_printable; [reflexivity|].
    apply collect_Ok_Forall2 in Ec. clear Hs H0.
    induction Ec as [|x y l l' Hxy HF IHF]; [constructor|].
    inversion IH; subst. constructor; eauto. }
  induction v as [|b|n|f|s0|items IH|items IH|entries IH|repr]
    using value_nested_ind; intros depth s Hs.
  - inversion Hs. reflexivity.
  - destruct b; inversion Hs; reflexivity.
  - inversion Hs. apply str_of_int_printable.
  - inversion Hs. apply float_json_printable.
  - inversion Hs. apply encode_basestring_ascii_printable.
  - eapply Hlist; eassumption.
  - rewrite json_compact_tuple in Hs. eapply Hlist; eassumption.
  - destruct (json_compact_dict_Ok _ _ _ Hs) as (chunks & Ec & ->).
    cbn [String.append list_ascii_of_string forallb].
    replace (is_printable "{") with true by reflexivity. cbn [andb].
    rewrite forallb_string_app. rewrite andb_true_iff. split; [|reflexivity].
    apply concat_printable; [reflexivity|].
    apply collect_Ok_Forall2 in Ec. clear Hs.
    induction Ec as [|[k x] y l l' Hxy HF IHF]; [constructor|].
    inversion IH; subst. constructor; auto.
    unfold json_entry in Hxy. cbn [fst snd] in *.
    destruct (json_compact (depth - 1) x) as [sx|] eqn:Ex; [|discriminate].
    replace y with (encode_basestring_ascii k +++ ":" +++ sx)
      by (injection Hxy as Hy; exact Hy).
    rewrite !forallb_string_app, encode_basestring_ascii_printable.
    cbn [list_ascii_of_string forallb].
    replace (is_printable ":") with true by reflexivity. cbn [andb]. eauto.
  - destruct depth; discriminate.
Qed.

(** X4. The compact JSON text of any value that can be serialized holds
    printable ASCII characters only, whatever characters its strings and
    keys hold (ensure_ascii is on); so its UTF-8 encoding, the plaintext
    that is padded and encrypted, has one byte per character. *)
Theorem json_text_is_printable_ascii :
  forall depth v s,
    json_compact depth v = Ok s ->
    forallb is_printable (list_ascii_of_string s) = true /\
    utf8_encode s = list_byte_of_string s /\
    List.length (utf8_encode s) = String.length s.
Proof.
  intros depth v s Hs. pose proof (json_compact_printable v depth s Hs) as Hp.
  split; [exact Hp|]. split; [now apply utf8_encode_printable|].
  rewrite (utf8_encode_printable s Hp).
  clear. induction s as [|c s IH]; [reflexivity|].
  change (list_byte_of_string (String c s))
    with (byte_of_ascii c :: list_byte_of_string s).
  cbn [List.length String.length]. now rewrite IH.
Qed.

(** ** The signing loop *)

Lemma string_append_assoc :
  forall s1 s2 s3, (s1 +++ s2) +++ s3 = s1 +++ (s2 +++ s3).
Proof.
  induction s1 as [|c s1 IH]; intros; simpl; [reflexivity|]. now rewrite IH.
Qed.

Lemma sorted_of_sorted :
  forall l, StronglySorted str_le l -> sorted l = l.
Proof.
  intros l Hl. apply strongly_sorted_unique;
    [apply sorted_is_sorted | exact Hl |].
  apply Permutation_sym, sorted_is_permutation.
Qed.

(** ** More on the runs of [_crypto_data] *)

Lemma existsb_eqb_In :
  forall k l, existsb (String.eqb k) l = true <-> In k l.
Proof.
  intros k l. rewrite existsb_exists. split.
  - intros (x & HIn & Hx). apply String.eqb_eq in Hx. now subst.
  - intros HIn. exists k. split; [exact HIn|apply String.eqb_refl].
Qed.

Lemma keys_dict_set_NoDup :
  forall d k v, NoDup (keys d) -> NoDup (keys (dict_set d k v)).
Proof.
  intros d k v Hd. rewrite keys_dict_set.
  destruct (existsb (String.eqb k) (keys d)) eqn:E; [exact Hd|].
  apply NoDup_app; [exact Hd|repeat constructor; intros []|].
  intros x Hx [<-|[]]. apply existsb_eqb_In in Hx. congruence.
Qed.

Lemma keys_dict_set_length :
  forall d k v,
    (List.length d <= List.length (dict_set d k v) <= List.length d + 1)%nat.
Proof.
  induction d as [|[k' v'] d IH]; intros k v; simpl; [lia|].
  destruct (String.eqb k' k); simpl; [lia|]. specialize (IH k v). lia.
Qed.



Lemma b64encode_length :
  forall bs : bytes,
    String.length (b64encode bs) = (4 * ((List.length bs + 2) / 3))%nat.
Proof.
  induction bs as [|a|a b|a b c rest IH] using list_ind3;
    try reflexivity.
  cbn [b64encode String.length List.length]. rewrite IH.
  replace (S (S (S (List.length rest))) + 2)%nat
    with (List.length rest + 2 + 1 * 3)%nat by lia.
  rewrite Nat.div_add by lia. lia.
Qed.

Lemma concat_blocks_length :
  forall (A : Type) (n : nat) (blocks : list (list A)),
    Forall (fun b => List.length b = n) blocks ->
    List.length (List.concat blocks) = (n * List.length blocks)%nat.
Proof.
  intros A n blocks. induction 1 as [|b l Hb Hl IH]; [simpl; lia|].
  cbn [List.concat List.length]. rewrite List.length_app, Hb, IH. lia.
Qed.

Section MoreRuns.
Variable aes_encrypt_block : bytes -> bytes -> bytes.
Variable rsa_key : Type.
Variable rsa_import_key : string -> result rsa_key.
Variable oaep_encrypt : rsa_key -> bytes -> bytes -> result bytes.

Local Abbreviation crypto_data :=
  (_crypto_data aes_encrypt_block rsa_key rsa_import_key oaep_encrypt).

Lemma cbc_encrypt_blocks_length :
  forall key,
    (forall block, List.length block = 16%nat ->
                   List.length (aes_encrypt_block key block) = 16%nat) ->
    forall blocks prev,
      List.length prev = 16%nat ->
      Forall (fun b => List.length b = 16%nat) blocks ->
      List.length (cbc_encrypt_blocks aes_encrypt_block key prev blocks)
      = (16 * List.length blocks)%nat.
Proof.
  intros key HE. induction blocks as [|p blocks IH]; intros prev Hprev Hall.
  - reflexivity.
  - inversion Hall as [|? ? Hp Hrest]; subst.
    cbn [cbc_encrypt_blocks List.length]. rewrite List.length_app.
    assert (Hx : List.length (xor_bytes p prev) = 16%nat)
      by (rewrite xor_bytes_length; congruence).
    rewrite (HE _ Hx), IH; auto. lia.
Qed.

Lemma crypto_data_no_http_post :
  forall params api_path w d r w',
    nth_error (heap w) params = Some d ->
    crypto_data params api_path w = (r, w') ->
    exists new,
      trace w' = trace w ++ new /\
      Forall (fun ev => is_http_post ev = false) new /\
      List.length (heap w') = List.length (heap w).
Proof.
  intros params api_path w d r w' Hd Hrun.
  rewrite (crypto_data_run _ _ _ _ _ _ _ _ Hd) in Hrun. cbv zeta in Hrun.
  destruct (sign_string _ _ _) as [sign_str|];
    [destruct (json_compact _ _) as [plaintext|];
     [destruct (rsa_import_key PUB_KEY) as [rsa|];
      [destruct (oaep_encrypt rsa _ _) as [encrypted_key|]|]|]|];
    apply pair_equal_spec in Hrun; destruct Hrun as [_ Hw]; rewrite <- Hw;
    cbn [heap trace]; rewrite <- ?app_assoc; cbn [app]; eexists;
    (split; [reflexivity|]);
    (split; [repeat constructor|apply heap_set_length]).
Qed.

(** X9. In a run that returns, the four protocol entries of the parameter
    object hold the client's values, whatever the caller had put under
    those keys; every other entry is the caller's; no key is duplicated;
    and at most four entries were added. *)
Theorem protocol_fields_override_the_caller :
  forall params api_path w d envelope w',
    nth_error (heap w) params = Some d ->
    crypto_data params api_path w = (Ok envelope, w') ->
    exists d' signature,
      nth_error (heap w') params = Some d' /\
      dict_get d' "apiPath" = Some (VStr (quote api_path)) /\
      dict_get d' "appId" = Some (VStr APP_ID) /\
      dict_get d' "timestamp" = Some (VInt (clock w (ticks w))) /\
      dict_get d' "signature" = Some (VStr signature) /\
      (forall k, ~ In k injected_keys -> dict_get d' k = dict_get d k) /\
      (NoDup (keys d) -> NoDup (keys d')) /\
      (List.length d <= List.length d' <= List.length d + 4)%nat.
Proof.
  intros params api_path w d envelope w' Hd Hrun.
  destruct (crypto_data_returns _ _ _ _ _ _ _ _ _ _ Hd Hrun)
    as (s & p & rsa & ek & _ & _ & _ & _ & _ & Hw).
  cbv zeta in *. eexists _, _. split.
  { rewrite Hw. cbn [heap]. eapply nth_error_heap_set_same; exact Hd. }
  unfold assembled.
  repeat split;
    try (repeat first [ apply dict_get_set_same
                      | rewrite dict_get_set_other by discriminate ]).
  - intros k Hk. unfold injected_keys in Hk. cbn [In] in Hk.
    rewrite !dict_get_set_other; [reflexivity| | | |];
      intros <-; apply Hk; auto 10.
  - intros Hnd. now repeat apply keys_dict_set_NoDup.
  - match goal with
    | |- context [dict_set (dict_set (dict_set (dict_set d ?k1 ?v1) ?k2 ?v2)
                              ?k3 ?v3) ?k4 ?v4] =>
        pose proof (keys_dict_set_length d k1 v1);
        pose proof (keys_dict_set_length (dict_set d k1 v1) k2 v2);
        pose proof (keys_dict_set_length
                      (dict_set (dict_set d k1 v1) k2 v2) k3 v3);
        pose proof (keys_dict_set_length
                      (dict_set (dict_set (dict_set d k1 v1) k2 v2) k3 v3)
                      k4 v4)
    end. lia.
  - match goal with
    | |- context [dict_set (dict_set (dict_set (dict_set d ?k1 ?v1) ?k2 ?v2)
                              ?k3 ?v3) ?k4 ?v4] =>
        pose proof (keys_dict_set_length d k1 v1);
        pose proof (keys_dict_set_length (dict_set d k1 v1) k2 v2);
        pose proof (keys_dict_set_length
                      (dict_set (dict_set d k1 v1) k2 v2) k3 v3);
        pose proof (keys_dict_set_length
                      (dict_set (dict_set (dict_set d k1 v1) k2 v2) k3 v3)
                      k4 v4)
    end. lia.
Qed.

End MoreRuns.

Section RunsCompared.
Variable aes_encrypt_block : bytes -> bytes -> bytes.
Variable rsa_key : Type.
Variable rsa_import_key : string -> result rsa_key.
Variable oaep_encrypt : rsa_key -> bytes -> bytes -> result bytes.

Local Abbreviation crypto_data :=
  (_crypto_data aes_encrypt_block rsa_key rsa_import_key oaep_encrypt).


(** X11. Two runs one after the other share neither random bytes nor a
    clock reading: the second run takes its key from the sixteen positions
    that follow the 36 the first run has drawn, and its timestamp from the
    next reading of the clock. *)
Theorem consecutive_runs_draw_fresh_key_and_time :
  forall params1 api_path1 params2 api_path2 w d1 d2 envelope1 w1
         envelope2 w2,
    nth_error (heap w) params1 = Some d1 ->
    crypto_data params1 api_path1 w = (Ok envelope1, w1) ->
    nth_error (heap w1) params2 = Some d2 ->
    crypto_data params2 api_path2 w1 = (Ok envelope2, w2) ->
    ticks w2 = (ticks w + 2)%nat /\
    drawn w2 = (drawn w + 72)%nat /\
    In (EvAesNew (draw w (drawn w) 16) zero_iv) (trace w2) /\
    In (EvUrandom (draw w (drawn w + 16) 20)) (trace w2) /\
    In (EvAesNew (draw w (drawn w + 36) 16) zero_iv) (trace w2) /\
    In (EvUrandom (draw w (drawn w + 36 + 16) 20)) (trace w2) /\
    exists d2',
      nth_error (heap w2) params2 = Some d2' /\
      dict_get d2' "timestamp" = Some (VInt (clock w (S (ticks w)))).
Proof.
  intros params1 api_path1 params2 api_path2 w d1 d2 envelope1 w1
         envelope2 w2 Hd1 Hrun1 Hd2 Hrun2.
  destruct (crypto_data_returns _ _ _ _ _ _ _ _ _ _ Hd1 Hrun1)
    as (s1 & p1 & rsa1 & ek1 & _ & _ & _ & _ & _ & Hw1).
  destruct (crypto_data_returns _ _ _ _ _ _ _ _ _ _ Hd2 Hrun2)
    as (s2 & p2 & rsa2 & ek2 & _ & _ & _ & _ & _ & Hw2).
  cbv zeta in *.
  assert (Hc : clock w1 = clock w) by (rewrite Hw1; reflexivity).
  assert (He : entropy w1 = entropy w) by (rewrite Hw1; reflexivity).
  assert (Ht : ticks w1 = S (ticks w)) by (rewrite Hw1; reflexivity).
  assert (Hdr : drawn w1 = (drawn w + 36)%nat)
    by (rewrite Hw1; cbn [drawn]; lia).
  assert (Hdraw : forall from n, draw w1 from n = draw w from n)
    by (intros; unfold draw; now rewrite He).
  rewrite !Hdraw, Hc, Ht, Hdr in Hw2.
  split; [rewrite Hw2; cbn [ticks]; lia|].
  split; [rewrite Hw2; cbn [drawn]; lia|].
  assert (Htr1 : forall ev, In ev (trace w1) -> In ev (trace w2)).
  { intros ev HIn. rewrite Hw2. cbn [trace]. apply in_or_app. now left. }
  split; [apply Htr1; rewrite Hw1; cbn [trace]; apply in_or_app; right;
          do 3 right; now left|].
  split; [apply Htr1; rewrite Hw1; cbn [trace]; apply in_or_app; right;
          do 8 right; now left|].
  split; [rewrite Hw2; cbn [trace]; apply in_or_app; right;
          do 3 right; now left|].
  split; [rewrite Hw2; cbn [trace]; apply in_or_app; right;
          do 8 right; now left|].
  eexists. split.
  - rewrite Hw2. cbn [heap]. eapply nth_error_heap_set_same; exact Hd2.
  - rewrite dict_get_set_other by discriminate.
    unfold assembled. apply dict_get_set_same.
Qed.


(** X13. In a run that returns, with a block cipher that maps 16-byte
    blocks to 16-byte blocks, the data field is the Base64 text of a
    ciphertext that is one to sixteen bytes longer than the JSON text: its
    length is 16 * (len(json) / 16 + 1) bytes, and the field has 4
    characters for every 3 of them, rounded up. *)
Theorem data_field_length :
  forall params api_path w d envelope w',
    (forall key block,
        List.length key = 16%nat -> List.length block = 16%nat ->
        List.length (aes_encrypt_block key block) = 16%nat) ->
    nth_error (heap w) params = Some d ->
    crypto_data params api_path w = (Ok envelope, w') ->
    exists d' plaintext data ciphertext,
      nth_error (heap w') params = Some d' /\
      json_compact (json_depth w) (VDict d') = Ok plaintext /\
      dict_get envelope "data" = Some (VStr data) /\
      b64decode data = Some ciphertext /\
      List.length ciphertext = (16 * (String.length plaintext / 16 + 1))%nat /\
      String.length data = (4 * ((List.length ciphertext + 2) / 3))%nat.
Proof.
  intros params api_path w d envelope w' HE Hd Hrun.
  destruct (crypto_data_returns _ _ _ _ _ _ _ _ _ _ Hd Hrun)
    as (s & plaintext & rsa & ek & _ & Hj & _ & _ & He & Hw).
  cbv zeta in *.
  eexists _, plaintext, _, _. split.
  { rewrite Hw. cbn [heap]. eapply nth_error_heap_set_same; exact Hd. }
  split; [exact Hj|]. split; [rewrite He; reflexivity|].
  split; [apply b64decode_encode|]. split; [|apply b64encode_length].
  destruct (chunks_blocks byte 16 (padded16 (utf8_encode plaintext))
              ltac:(lia) (padded16_length _)) as [Hall Hcat].
  rewrite (cbc_encrypt_blocks_length aes_encrypt_block);
    [| intros block Hb; apply HE; [apply draw_length|exact Hb]
     | apply repeat_length | exact Hall ].
  assert (Hlen : List.length (padded16 (utf8_encode plaintext))
                 = (16 * List.length
                           (chunks 16 (padded16 (utf8_encode plaintext))))%nat).
  { rewrite <- Hcat at 1. now apply concat_blocks_length. }
  rewrite <- Hlen. unfold padded16.
  rewrite List.length_app, repeat_length.
  pose proof (json_compact_printable _ _ _ Hj) as Hp.
  rewrite (utf8_encode_printable _ Hp).
  assert (Hl : List.length (list_byte_of_string plaintext)
               = String.length plaintext).
  { clear. induction plaintext as [|c s IH]; [reflexivity|].
    change (list_byte_of_string (String c s))
      with (byte_of_ascii c :: list_byte_of_string s).
    cbn [List.length String.length]. now rewrite IH. }
  rewrite Hl.
  pose proof (Nat.div_mod_eq (String.length plaintext) 16).
  pose proof (Nat.mod_upper_bound (String.length plaintext) 16 ltac:(lia)).
  lia.
Qed.

End RunsCompared.

(** ** Maps that are signed alike, and values that are signed as they
    are not sent *)

Lemma dict_get_In :
  forall d k v, dict_get d k = Some v -> In (k, v) d.
Proof.
  induction d as [|[k' v'] d IH]; intros k v H; simpl in *; [discriminate|].
  destruct (String.eqb k' k) eqn:E.
  - apply String.eqb_eq in E. inversion H; subst. now left.
  - right. now apply IH.
Qed.

Lemma In_keys_dict_get :
  forall d k, In k (keys d) -> exists v, dict_get d k = Some v.
Proof.
  unfold keys. induction d as [|[k' v'] d IH]; intros k H; simpl in *;
    [contradiction|].
  destruct (String.eqb k' k) eqn:E; [eauto|].
  destruct H as [H|H]; [subst; rewrite String.eqb_refl in E; discriminate|].
  now apply IH.
Qed.

Lemma In_dict_get :
  forall d k v, NoDup (keys d) -> In (k, v) d -> dict_get d k = Some v.
Proof.
  unfold keys. induction d as [|[k' v'] d IH]; intros k v Hnd HIn;
    [contradiction|].
  simpl in *. inversion Hnd as [|? ? Hk Hd]; subst.
  destruct HIn as [H|H].
  - inversion H; subst. now rewrite String.eqb_refl.
  - destruct (String.eqb k' k) eqn:E; [|now apply IH].
    apply String.eqb_eq in E. subst k'. exfalso. apply Hk.
    change k with (fst (k, v)). now apply in_map.
Qed.

Lemma NoDup_keys_NoDup :
  forall d : dict, NoDup (keys d) -> NoDup d.
Proof. intros d. unfold keys. apply NoDup_map_inv. Qed.

(** Two dicts with the same lookups hold the same entries. *)
Lemma same_lookups_permutation :
  forall d1 d2 : dict,
    NoDup (keys d1) -> NoDup (keys d2) ->
    (forall k, dict_get d1 k = dict_get d2 k) -> Permutation d1 d2.
Proof.
  intros d1 d2 H1 H2 Hget.
  apply NoDup_Permutation; try now apply NoDup_keys_NoDup.
  intros [k v]. split; intros HIn.
  - apply dict_get_In. rewrite <- Hget. now apply In_dict_get.
  - apply dict_get_In. rewrite Hget. now apply In_dict_get.
Qed.

Lemma dict_get_app :
  forall d e k,
    dict_get (d ++ e) k
    = match dict_get d k with
      | Some v => Some v
      | None => dict_get e k
      end.
Proof.
  induction d as [|[k' v'] d IH]; intros e k; simpl; [reflexivity|].
  destruct (String.eqb k' k); [reflexivity|apply IH].
Qed.

Lemma dict_get_None_keys :
  forall d k, ~ In k (keys d) -> dict_get d k = None.
Proof.
  intros d k H. destruct (dict_get d k) as [v|] eqn:E; [|reflexivity].
  exfalso. apply H. apply dict_get_In in E.
  unfold keys. change k with (fst (k, v)). now apply in_map.
Qed.

Lemma keys_dict_set_In :
  forall d k v k', In k' (keys (dict_set d k v)) -> In k' (keys d) \/ k' = k.
Proof.
  intros d k v k' H. rewrite keys_dict_set in H.
  destruct (existsb (String.eqb k) (keys d)); [now left|].
  apply in_app_or in H. destruct H as [H|[H|[]]]; auto.
Qed.

Lemma assembled_app :
  forall d e api_path t,
    NoDup (keys (d ++ e)) ->
    ~ In "apiPath" (keys e) -> ~ In "appId" (keys e) ->
    ~ In "timestamp" (keys e) ->
    Permutation (assembled (d ++ e) api_path t) (assembled d api_path t ++ e).
Proof.
  intros d e api_path t Hnd Ha Hb Hc.
  assert (Hkeys : keys (d ++ e) = keys d ++ keys e)
    by (unfold keys; apply map_app).
  rewrite Hkeys in Hnd.
  apply same_lookups_permutation.
  - unfold assembled. repeat apply keys_dict_set_NoDup. now rewrite Hkeys.
  - unfold keys. rewrite map_app. fold (keys (assembled d api_path t)).
    fold (keys e). apply NoDup_app.
    + unfold assembled. repeat apply keys_dict_set_NoDup.
      eapply NoDup_app_remove_r; exact Hnd.
    + eapply NoDup_app_remove_l; exact Hnd.
    + intros k Hk He. unfold assembled in Hk.
      repeat (apply keys_dict_set_In in Hk; destruct Hk as [Hk| ->];
              [|tauto]).
      revert Hk He. clear - Hnd. induction (keys d) as [|x l IH];
        intros Hk He; [contradiction|].
      simpl in Hnd. inversion Hnd as [|? ? Hx Hl]; subst.
      destruct Hk as [->|Hk]; [|auto].
      apply Hx. apply in_or_app. now right.
  - intros k. unfold assembled. rewrite dict_get_app.
    destruct (String.eqb_spec "timestamp" k) as [<-|Ht].
    { now rewrite !dict_get_set_same. }
    rewrite !(dict_get_set_other _ "timestamp") by exact Ht.
    destruct (String.eqb_spec "appId" k) as [<-|Hi].
    { now rewrite !dict_get_set_same. }
    rewrite !(dict_get_set_other _ "appId") by exact Hi.
    destruct (String.eqb_spec "apiPath" k) as [<-|Hp].
    { now rewrite !dict_get_set_same. }
    rewrite !(dict_get_set_other _ "apiPath") by exact Hp.
    apply dict_get_app.
Qed.

Lemma collect_app :
  forall (A B : Type) (f : A -> result B) l1 l2,
    collect f (l1 ++ l2) =
    match collect f l1 with
    | Raise e => Raise e
    | Ok bs1 =>
        match collect f l2 with
        | Raise e => Raise e
        | Ok bs2 => Ok (bs1 ++ bs2)
        end
    end.
Proof.
  induction l1 as [|a l1 IH]; intros l2; simpl.
  - now destruct (collect f l2).
  - destruct (f a); [|reflexivity]. rewrite IH.
    destruct (collect f l1); [|reflexivity].
    now destruct (collect f l2).
Qed.

Lemma str_le_prefix :
  forall a x, str_le a (a +++ x).
Proof.
  unfold str_le, is_true, String.leb.
  induction a as [|c a IH]; intros x; simpl.
  - now destruct x.
  - replace (Ascii.compare c c) with Eq
      by (symmetry; unfold Ascii.compare; apply N.compare_refl).
    apply IH.
Qed.

Lemma StronglySorted_app :
  forall l1 l2 : list string,
    StronglySorted str_le l1 -> StronglySorted str_le l2 ->
    (forall x y, In x l1 -> In y l2 -> str_le x y) ->
    StronglySorted str_le (l1 ++ l2).
Proof.
  induction l1 as [|a l1 IH]; intros l2 H1 H2 H; [exact H2|].
  inversion H1 as [|? ? Hs Hall]; subst. simpl. constructor.
  - apply IH; auto. intros x y Hx Hy. apply H; [now right|exact Hy].
  - apply Forall_app. split; [exact Hall|].
    apply Forall_forall. intros y Hy. apply H; [now left|exact Hy].
Qed.

(** Strings that sort after all the others stay where they are. *)
Lemma sorted_app_sorted :
  forall l tail : list string,
    StronglySorted str_le tail ->
    (forall x y, In x l -> In y tail -> str_le x y) ->
    sorted (l ++ tail) = sorted l ++ tail.
Proof.
  intros l tail Ht H. apply strongly_sorted_unique.
  - apply sorted_is_sorted.
  - apply StronglySorted_app; [apply sorted_is_sorted|exact Ht|].
    intros x y Hx Hy. apply H; [|exact Hy].
    eapply Permutation_in; [apply Permutation_sym, sorted_is_permutation|].
    exact Hx.
  - eapply Permutation_trans;
      [apply Permutation_sym, sorted_is_permutation|].
    apply Permutation_app_tail. apply sorted_is_permutation.
Qed.

Lemma join_last_two :
  forall l a b,
    join "&" (l ++ [a; b]) = join "&" (l ++ [a +++ "&" +++ b]).
Proof.
  unfold join. induction l as [|x l IH]; intros a b; [reflexivity|].
  cbn [app String.concat].
  destruct l as [|y l]; [reflexivity|].
  cbn [app]. cbn [app] in IH. now rewrite IH.
Qed.

Lemma sign_string_app :
  forall jd rd d e,
    sign_string jd rd (d ++ e) =
    match collect (key_value jd rd) (non_null d) with
    | Raise e => Raise e
    | Ok pairs =>
        match collect (key_value jd rd) (non_null e) with
        | Raise e => Raise e
        | Ok more => Ok (join "&" (sorted (pairs ++ more)))
        end
    end.
Proof.
  intros jd rd d e. rewrite sign_string_Canonicalize.
  unfold Canonicalize, Canonicalize_of. fold key_value.
  unfold non_null. rewrite filter_app, collect_app.
  destruct (collect (key_value jd rd) (filter _ d)); [|reflexivity].
  now destruct (collect (key_value jd rd) (filter _ e)).
Qed.

(** The signing loop on a map with further entries at its end, given as
    the loop on the assembled map followed by those entries. *)
Lemma sign_string_assembled_app :
  forall jd rd d e api_path t s,
    NoDup (keys (d ++ e)) ->
    ~ In "apiPath" (keys e) -> ~ In "appId" (keys e) ->
    ~ In "timestamp" (keys e) ->
    sign_string jd rd (assembled (d ++ e) api_path t) = Ok s ->
    sign_string jd rd (assembled d api_path t ++ e) = Ok s.
Proof.
  intros jd rd d e api_path t s Hnd Ha Hb Hc Hs.
  pose proof (sign_string_permutation jd rd _ _
                (assembled_app d e api_path t Hnd Ha Hb Hc)) as H.
  rewrite Hs in H. unfold same_outcome in H.
  destruct (sign_string jd rd (assembled d api_path t ++ e));
    [now subst|contradiction].
Qed.

Lemma sign_string_separator_collision :
  forall jd1 rd1 jd2 rd2 d api_path t k1 v1 k2 v2 pairs s1 s2,
    NoDup (keys d ++ [k1; k2]) ->
    ~ In k1 injected_keys -> ~ In k2 injected_keys ->
    collect (key_value jd1 rd1) (non_null (assembled d api_path t)) = Ok pairs ->
    Forall (fun pair => str_le pair (k1 +++ "=" +++ v1)) pairs ->
    str_le (k1 +++ "=" +++ v1) (k2 +++ "=" +++ v2) ->
    sign_string jd1 rd1
      (assembled (d ++ [(k1, VStr (v1 +++ "&" +++ k2 +++ "=" +++ v2))])
         api_path t) = Ok s1 ->
    sign_string jd2 rd2
      (assembled (d ++ [(k1, VStr v1); (k2, VStr v2)]) api_path t) = Ok s2 ->
    s1 = s2.
Proof.
  intros jd1 rd1 jd2 rd2 d api_path t k1 v1 k2 v2 pairs s1 s2
         Hnd Hk1 Hk2 Hpairs Hbefore Hle Hs1 Hs2.
  unfold injected_keys in Hk1, Hk2. cbn [In] in Hk1, Hk2.
  assert (Hnd1 : NoDup (keys (d ++ [(k1, VStr (v1 +++ "&" +++ k2 +++ "=" +++ v2))]))).
  { unfold keys. rewrite map_app. cbn [map fst]. fold (keys d).
    replace (keys d ++ [k1; k2]) with ((keys d ++ [k1]) ++ [k2]) in Hnd
      by (now rewrite <- app_assoc).
    eapply NoDup_app_remove_r; exact Hnd. }
  assert (Hnd2 : NoDup (keys (d ++ [(k1, VStr v1); (k2, VStr v2)]))).
  { unfold keys. rewrite map_app. exact Hnd. }
  apply sign_string_assembled_app in Hs1;
    [|exact Hnd1
     |cbn [keys map fst In]; intros HH;
      repeat (destruct HH as [HH|HH]; try contradiction); subst; tauto..].
  apply sign_string_assembled_app in Hs2;
    [|exact Hnd2
     |cbn [keys map fst In]; intros HH;
      repeat (destruct HH as [HH|HH]; try contradiction); subst; tauto..].
  rewrite sign_string_app in Hs1, Hs2. rewrite Hpairs in Hs1.
  destruct (collect (key_value jd2 rd2) (non_null (assembled d api_path t)))
    as [pairs2|] eqn:Hpairs2; [|discriminate].
  rewrite <- (collect_key_value_same_text _ _ _ _ _ _ _ Hpairs Hpairs2) in Hs2.
  cbn [non_null filter snd is_None negb collect] in Hs1, Hs2.
  unfold key_value, key_value_of, serialize_value in Hs1, Hs2.
  cbn [fst snd is_dict_or_list py_str] in Hs1, Hs2.
  injection Hs1 as <-. injection Hs2 as <-.
  change (join "&"
            (sorted
               (pairs ++ [k1 +++ "=" +++ v1 +++ "&" +++ k2 +++ "=" +++ v2]))
          = join "&"
              (sorted (pairs ++ [k1 +++ "=" +++ v1; k2 +++ "=" +++ v2]))).
  replace (k1 +++ "=" +++ v1 +++ "&" +++ k2 +++ "=" +++ v2)
    with ((k1 +++ "=" +++ v1) +++ "&" +++ (k2 +++ "=" +++ v2))
    by (now rewrite !string_append_assoc).
  set (a := k1 +++ "=" +++ v1) in *. set (b := k2 +++ "=" +++ v2) in *.
  rewrite Forall_forall in Hbefore.
  rewrite (sorted_app_sorted pairs [a +++ "&" +++ b]).
  - rewrite (sorted_app_sorted pairs [a; b]).
    + symmetry. apply join_last_two.
    + constructor; [repeat constructor|]. constructor; [exact Hle|constructor].
    + intros x y Hx [<-|[<-|[]]]; [now apply Hbefore|].
      eapply str_le_trans; [apply Hbefore; exact Hx|exact Hle].
  - repeat constructor.
  - intros x y Hx [<-|[]].
    eapply str_le_trans; [apply Hbefore; exact Hx|apply str_le_prefix].
Qed.

Section Collisions.
Variable aes_encrypt_block : bytes -> bytes -> bytes.
Variable rsa_key : Type.
Variable rsa_import_key : string -> result rsa_key.
Variable oaep_encrypt : rsa_key -> bytes -> bytes -> result bytes.

Local Abbreviation crypto_data :=
  (_crypto_data aes_encrypt_block rsa_key rsa_import_key oaep_encrypt).

(** X6. The canonical string does not escape the separators.  Take a map
    whose pairs all sort before "k1=v1", and add to it either the one entry
    k1 with the text v1&k2=v2, or the two entries k1 with v1 and k2 with v2,
    where "k1=v1" sorts before "k2=v2".  Two runs on these two maps, for the
    same path and with the same clock reading, that return leave the same
    signature in their parameter objects, although one object has an entry
    k2 and the other has none. *)
Theorem canonical_string_does_not_escape :
  forall params1 params2 api_path w1 w2 d k1 v1 k2 v2 pairs
         envelope1 w1' envelope2 w2',
    nth_error (heap w1) params1
    = Some (d ++ [(k1, VStr (v1 +++ "&" +++ k2 +++ "=" +++ v2))]) ->
    nth_error (heap w2) params2 = Some (d ++ [(k1, VStr v1); (k2, VStr v2)]) ->
    clock w1 (ticks w1) = clock w2 (ticks w2) ->
    NoDup (keys d ++ [k1; k2]) ->
    ~ In k1 injected_keys -> ~ In k2 injected_keys ->
    collect (key_value (json_depth w1) (repr_depth w1))
      (non_null (assembled d api_path (clock w1 (ticks w1)))) = Ok pairs ->
    Forall (fun pair => str_le pair (k1 +++ "=" +++ v1)) pairs ->
    str_le (k1 +++ "=" +++ v1) (k2 +++ "=" +++ v2) ->
    crypto_data params1 api_path w1 = (Ok envelope1, w1') ->
    crypto_data params2 api_path w2 = (Ok envelope2, w2') ->
    exists signature d1' d2',
      nth_error (heap w1') params1 = Some d1' /\
      nth_error (heap w2') params2 = Some d2' /\
      dict_get d1' "signature" = Some (VStr signature) /\
      dict_get d2' "signature" = Some (VStr signature) /\
      dict_get d1' k2 = None /\
      dict_get d2' k2 = Some (VStr v2).
Proof.
  intros params1 params2 api_path w1 w2 d k1 v1 k2 v2 pairs
         envelope1 w1' envelope2 w2'
         Hd1 Hd2 Hclock Hnd Hk1 Hk2 Hpairs Hbefore Hle Hrun1 Hrun2.
  destruct (crypto_data_returns _ _ _ _ _ _ _ _ _ _ Hd1 Hrun1)
    as (s1 & p1 & rsa1 & ek1 & Hs1 & _ & _ & _ & _ & Hw1).
  destruct (crypto_data_returns _ _ _ _ _ _ _ _ _ _ Hd2 Hrun2)
    as (s2 & p2 & rsa2 & ek2 & Hs2 & _ & _ & _ & _ & Hw2).
  cbv zeta in *. rewrite <- Hclock in Hs2, Hw2.
  assert (s1 = s2)
    by (eapply sign_string_separator_collision; eassumption).
  subst s2.
  assert (Hnd' : NoDup (k1 :: k2 :: keys d)).
  { eapply Permutation_NoDup; [|exact Hnd].
    apply (Permutation_app_comm (keys d) [k1; k2]). }
  apply NoDup_cons_iff in Hnd'. destruct Hnd' as [Hk1d Hnd''].
  apply NoDup_cons_iff in Hnd''. destruct Hnd'' as [Hk2d _].
  assert (Hne : k1 <> k2) by (intros ->; apply Hk1d; now left).
  unfold injected_keys in Hk2. cbn [In] in Hk2.
  exists (sign SECRET s1). eexists _, _.
  split.
  { rewrite Hw1. cbn [heap]. eapply nth_error_heap_set_same; exact Hd1. }
  split.
  { rewrite Hw2. cbn [heap]. eapply nth_error_heap_set_same; exact Hd2. }
  split; [apply dict_get_set_same|]. split; [apply dict_get_set_same|].
  unfold assembled.
  split; (rewrite !dict_get_set_other by (intros <-; tauto));
    rewrite dict_get_app, (dict_get_None_keys d k2 Hk2d); cbn [dict_get].
  - apply String.eqb_neq in Hne. now rewrite Hne.
  - apply String.eqb_neq in Hne. now rewrite Hne, String.eqb_refl.
Qed.
End Collisions.


Lemma collect_Ok_In_ex :
  forall (A B : Type) (f : A -> result B) l bs a,
    collect f l = Ok bs -> In a l -> exists b, f a = Ok b /\ In b bs.
Proof.
  intros A B f l bs a H. apply collect_Ok_Forall2 in H.
  induction H as [|x y l bs Hxy HF IH]; intros HIn; [contradiction|].
  destruct HIn as [->|HIn].
  - exists y. split; [exact Hxy|now left].
  - destruct (IH HIn) as (b & Hb & HInb). exists b. split; [exact Hb|now right].
Qed.

Lemma py_str_tuple_paren :
  forall depth items text,
    py_str depth (VTuple items) = Ok text -> exists rest, text = String "(" rest.
Proof.
  intros depth items text H. cbn [py_str] in H.
  destruct depth as [|depth]; [discriminate|].
  rewrite py_repr_tuple in H.
  destruct (collect (py_repr depth) items) as [[|s [|s' ss]]|];
    inversion H; eexists; reflexivity.
Qed.

Lemma json_compact_tuple_bracket :
  forall depth items array,
    json_compact depth (VTuple items) = Ok array ->
    exists rest, array = String "[" rest.
Proof.
  intros depth items array H. rewrite json_compact_tuple in H.
  destruct depth as [|depth]; [discriminate|].
  rewrite json_compact_list in H.
  destruct (collect (json_compact depth) items); inversion H.
  eexists; reflexivity.
Qed.

Section Tuples.
Variable aes_encrypt_block : bytes -> bytes -> bytes.
Variable rsa_key : Type.
Variable rsa_import_key : string -> result rsa_key.
Variable oaep_encrypt : rsa_key -> bytes -> bytes -> result bytes.

Local Abbreviation crypto_data :=
  (_crypto_data aes_encrypt_block rsa_key rsa_import_key oaep_encrypt).

(** X18. A tuple is signed as text and sent as an array.  In a run that
    returns, an entry of the caller's map whose value is a tuple gives the
    pair "key=" followed by what str prints for the tuple, which starts
    with a parenthesis, while the JSON text that is encrypted holds under
    that key the array that [json.dumps] writes for the list of the same
    items; the two texts differ, so the signature covers another text than
    the list that the receiver reads would give. *)
Theorem tuple_entry_signed_as_text_sent_as_array :
  forall params api_path w d k items envelope w',
    nth_error (heap w) params = Some d ->
    In (k, VTuple items) d ->
    ~ In k injected_keys ->
    crypto_data params api_path w = (Ok envelope, w') ->
    let t := clock w (ticks w) in
    exists text array pairs canonical d' entries plaintext,
      py_str (repr_depth w) (VTuple items) = Ok text /\
      json_compact (json_depth w - 1) (VTuple items) = Ok array /\
      json_compact (json_depth w - 1) (VList items) = Ok array /\
      text <> array /\
      collect (key_value (json_depth w) (repr_depth w))
        (non_null (assembled d api_path t)) = Ok pairs /\
      In (k +++ "=" +++ text) pairs /\
      canonical = join "&" (sorted pairs) /\
      nth_error (heap w') params = Some d' /\
      dict_get d' "signature" = Some (VStr (sign SECRET canonical)) /\
      collect (json_entry (json_depth w - 1)) d' = Ok entries /\
      In (encode_basestring_ascii k +++ ":" +++ array) entries /\
      plaintext = "{" +++ join "," entries +++ "}" /\
      In (EvAesEncrypt (padded16 (utf8_encode plaintext))) (trace w').
Proof.
  intros params api_path w d k items envelope w' Hd HIn Hk Hrun t.
  destruct (crypto_data_returns _ _ _ _ _ _ _ _ _ _ Hd Hrun)
    as (canonical & plaintext & rsa & ek & Hs & Hj & _ & _ & _ & Hw).
  cbv zeta in *. fold t in Hs, Hj, Hw.
  destruct (sign_string_Ok _ _ _ _ Hs) as (pairs & Ep & Hc). subst canonical.
  destruct (json_compact_dict_Ok _ _ _ Hj) as (entries & Ei & Hp).
  subst plaintext.
  assert (HIn1 : In (k, VTuple items) (assembled d api_path t)).
  { unfold injected_keys in Hk. cbn [In] in Hk. unfold assembled.
    repeat (apply dict_set_In_other; [intros ->; tauto|]). exact HIn. }
  assert (HInd : In (k, VTuple items)
                   (dict_set (assembled d api_path t) "signature"
                      (VStr (sign SECRET (join "&" (sorted pairs)))))).
  { apply dict_set_In_other; [|exact HIn1].
    unfold injected_keys in Hk. cbn [In] in Hk. intros ->. tauto. }
  destruct (collect_Ok_In_ex _ _ _ _ _ (k, VTuple items) Ep)
    as (pair & Hpair & HInp).
  { unfold non_null. apply filter_In. split; [exact HIn1|reflexivity]. }
  destruct (collect_Ok_In_ex _ _ _ _ _ (k, VTuple items) Ei HInd)
    as (entry & Hentry & HIne).
  unfold key_value, key_value_of, serialize_value in Hpair.
  cbn [fst snd is_dict_or_list] in Hpair.
  destruct (py_str (repr_depth w) (VTuple items)) as [text|] eqn:Htext;
    [|discriminate].
  unfold json_entry in Hentry. cbn [fst snd] in Hentry.
  destruct (json_compact (json_depth w - 1) (VTuple items)) as [array|]
    eqn:Harray; [|discriminate].
  injection Hpair as <-. injection Hentry as <-.
  exists text, array, pairs, (join "&" (sorted pairs)).
  eexists _, entries, _.
  split; [reflexivity|]. split; [reflexivity|]. split; [exact Harray|].
  split.
  { destruct (py_str_tuple_paren _ _ _ Htext) as [r1 ->].
    destruct (json_compact_tuple_bracket _ _ _ Harray) as [r2 ->].
    discriminate. }
  split; [exact Ep|]. split; [exact HInp|]. split; [reflexivity|].
  split.
  { rewrite Hw. cbn [heap]. eapply nth_error_heap_set_same; exact Hd. }
  split; [apply dict_get_set_same|]. split; [exact Ei|].
  split; [exact HIne|]. split; [reflexivity|].
  rewrite Hw. cbn [trace]. apply in_or_app. right. do 4 right. now left.
Qed.
End Tuples.

(** ** A value nested as deep as [json.dumps] goes *)

Lemma collect_Raise_first :
  forall (A B : Type) (f : A -> result B) l e,
    collect f l = Raise e -> exists a, In a l /\ f a = Raise e.
Proof.
  induction l as [|x l IH]; simpl; intros e He; [discriminate|].
  destruct (f x) eqn:Ex.
  - destruct (collect f l) eqn:El; [discriminate|].
    inversion He; subst. destruct (IH _ eq_refl) as (y & Hy & Hfy).
    exists y. auto.
  - inversion He; subst. exists x. auto.
Qed.

(** A value that [json.dumps] serializes with some number of levels is
    rejected with fewer levels for want of levels only. *)
Lemma json_compact_fails_for_depth_only :
  forall v depth depth' text e,
    json_compact depth v = Ok text -> json_compact depth' v = Raise e ->
    e = RecursionError.
Proof.
  assert (Hlist : forall items depth depth' text e,
             Forall (fun v => forall depth depth' text e,
                         json_compact depth v = Ok text ->
                         json_compact depth' v = Raise e ->
                         e = RecursionError) items ->
             json_compact depth (VList items) = Ok text ->
             json_compact depth' (VList items) = Raise e ->
             e = RecursionError).
  { intros items depth depth' text e IH Hok He.
    destruct depth as [|depth]; [discriminate|].
    destruct depth' as [|depth']; [now inversion He|].
    rewrite json_compact_list in Hok, He.
    destruct (collect (json_compact depth) items) as [chunks|] eqn:Ec;
      [|discriminate].
    destruct (collect (json_compact depth') items) as [|e0] eqn:Ec';
      [discriminate|].
    inversion He; subst e0.
    destruct (collect_Raise_first _ _ _ _ _ Ec') as (x & HIn & Hx).
    destruct (collect_Ok_In_ex _ _ _ _ _ x Ec HIn) as (sx & Hsx & _).
    rewrite Forall_forall in IH. eapply IH; eassumption. }
  induction v as [|b|n|f|s0|items IH|items IH|entries IH|repr]
    using value_nested_ind; intros depth depth' text e Hok He;
    try discriminate.
  - destruct b; discriminate.
  - eapply Hlist; eassumption.
  - rewrite json_compact_tuple in Hok, He. eapply Hlist; eassumption.
  - destruct depth as [|depth]; [discriminate|].
    destruct depth' as [|depth']; [now inversion He|].
    rewrite json_compact_dict in Hok, He.
    destruct (collect (json_entry depth) entries) as [chunks|] eqn:Ec;
      [|discriminate].
    destruct (collect (json_entry depth') entries) as [|e0] eqn:Ec';
      [discriminate|].
    inversion He; subst e0.
    destruct (collect_Raise_first _ _ _ _ _ Ec') as ([k x] & HIn & Hx).
    destruct (collect_Ok_In_ex _ _ _ _ _ (k, x) Ec HIn) as (sx & Hsx & _).
    unfold json_entry in Hx, Hsx. cbn [fst snd] in Hx, Hsx.
    destruct (json_compact depth x) as [tx|] eqn:Etx; [|discriminate].
    destruct (json_compact depth' x) as [|ex] eqn:Eex; [discriminate|].
    inversion Hx; subst ex.
    rewrite Forall_forall in IH. eapply (IH (k, x) HIn); eassumption.
  - destruct depth; discriminate.
Qed.

Lemma json_compact_dict_raises_inside :
  forall depth d k v e,
    In (k, v) d -> json_compact (depth - 1) v = Raise e ->
    exists e', json_compact depth (VDict d) = Raise e'.
Proof.
  intros depth d k v e HIn Hv.
  destruct depth as [|depth]; [eexists; reflexivity|].
  replace (S depth - 1)%nat with depth in Hv by lia.
  assert (Hentry : json_entry depth (k, v) = Raise e)
    by (unfold json_entry; cbn [snd]; now rewrite Hv).
  destruct (collect_In_Raise _ _ (json_entry depth) d _ _ HIn Hentry)
    as [e' He'].
  rewrite json_compact_dict, He'. eauto.
Qed.

Section DepthLimit.
Variable aes_encrypt_block : bytes -> bytes -> bytes.
Variable rsa_key : Type.
Variable rsa_import_key : string -> result rsa_key.
Variable oaep_encrypt : rsa_key -> bytes -> bytes -> result bytes.

Local Abbreviation crypto_data :=
  (_crypto_data aes_encrypt_block rsa_key rsa_import_key oaep_encrypt).

(** X19. [json.dumps] meets a value one level deeper inside the whole map
    than alone.  So a value that [json.dumps] serializes alone, but not with
    one level less, is rejected inside the map, and for want of levels only
    (RecursionError).  As a list or a dict it gives its pair to the signing
    loop; and when the signing loop returns, the run raises on the
    serialization of the whole map, after the signature was computed, the
    sixteen key bytes were drawn and the cipher was created.  Nothing is
    encrypted. *)
Theorem value_at_the_depth_limit_fails_after_the_key :
  forall params api_path w d k v text e,
    nth_error (heap w) params = Some d ->
    In (k, v) d ->
    ~ In k injected_keys ->
    json_compact (json_depth w) v = Ok text ->
    json_compact (json_depth w - 1) v = Raise e ->
    let t := clock w (ticks w) in
    let d1 := assembled d api_path t in
    e = RecursionError /\
    (is_dict_or_list v = true ->
     key_value (json_depth w) (repr_depth w) (k, v) = Ok (k +++ "=" +++ text)) /\
    exists e' w' new,
      crypto_data params api_path w = (Raise e', w') /\
      trace w' = trace w ++ new /\
      Forall (fun ev => is_encryption ev = false) new /\
      (forall canonical,
          sign_string (json_depth w) (repr_depth w) d1 = Ok canonical ->
          json_compact (json_depth w)
            (VDict (dict_set d1 "signature" (VStr (sign SECRET canonical))))
          = Raise e' /\
          new = [EvTime t;
                 EvHmac (utf8_encode SECRET) (utf8_encode canonical);
                 EvUrandom (draw w (drawn w) 16);
                 EvAesNew (draw w (drawn w) 16) zero_iv] /\
          drawn w' = (drawn w + 16)%nat).
Proof.
  intros params api_path w d k v text e Hd HIn Hk Hok Hv t d1.
  split; [eapply json_compact_fails_for_depth_only; eassumption|].
  split.
  { intros Hc. unfold key_value, key_value_of, serialize_value.
    cbn [fst snd]. now rewrite Hc, Hok. }
  assert (HIn1 : In (k, v) d1).
  { unfold injected_keys in Hk. cbn [In] in Hk. subst d1. unfold assembled.
    repeat (apply dict_set_In_other; [intros ->; tauto|]). exact HIn. }
  rewrite (crypto_data_run _ _ _ _ _ _ _ _ Hd). cbv zeta. fold t. fold d1.
  destruct (sign_string (json_depth w) (repr_depth w) d1)
    as [canonical|e0] eqn:Hs.
  - destruct (json_compact_dict_raises_inside (json_depth w)
                (dict_set d1 "signature" (VStr (sign SECRET canonical)))
                k v e) as [e' Hj]; [|exact Hv|].
    { apply dict_set_In_other; [|exact HIn1].
      unfold injected_keys in Hk. cbn [In] in Hk. intros ->. tauto. }
    rewrite Hj. eexists e', _, _. split; [reflexivity|]. cbn [trace drawn].
    split; [reflexivity|]. split; [repeat constructor|].
    intros c Hc. inversion Hc; subst c. repeat split. exact Hj.
  - eexists e0, _, _. split; [reflexivity|]. cbn [trace drawn].
    split; [reflexivity|]. split; [repeat constructor|].
    intros c Hc. discriminate.
Qed.
End DepthLimit.

(** ** [_send_request] and [sign_in] *)

Section MoreRequests.
Variable aes_encrypt_block : bytes -> bytes -> bytes.
Variable rsa_key : Type.
Variable rsa_import_key : string -> result rsa_key.
Variable oaep_encrypt : rsa_key -> bytes -> bytes -> result bytes.
Variable http_post : string -> dict -> dict -> string + value.

Local Abbreviation crypto_data :=
  (_crypto_data aes_encrypt_block rsa_key rsa_import_key oaep_encrypt).
Local Abbreviation send_request :=
  (_send_request aes_encrypt_block rsa_key rsa_import_key oaep_encrypt
     http_post).

(** X14. [_send_request] builds the envelope from a copy and then posts
    once, to HOST followed by the path, with the headers of [_get_headers]:
    it returns the body of the answer, or, when the transport fails, the
    dict {"success": False, "error": text} instead of raising.  When the
    envelope cannot be built, the exception of [_crypto_data] is raised and
    nothing is posted.  Either way exactly one object, the copy, is
    created. *)
Theorem send_request_posts_once_or_raises :
  forall self api_path payload w d r w',
    nth_error (heap w) payload = Some d ->
    send_request self api_path payload w = (r, w') ->
    List.length (heap w') = S (List.length (heap w)) /\
    exists r1 w1 new,
      crypto_data (List.length (heap w)) api_path
        (with_heap w (heap w ++ [d])) = (r1, w1) /\
      Forall (fun ev => is_http_post ev = false) new /\
      match r1 with
      | Ok envelope =>
          r = Ok match http_post (HOST +++ api_path) envelope
                         (_get_headers self) with
                 | inr body => body
                 | inl e => VDict [("success", VBool false);
                                   ("error", VStr e)]
                 end /\
          trace w' = trace w ++ new ++ [EvHttpPost (HOST +++ api_path)]
      | Raise e => r = Raise e /\ trace w' = trace w ++ new
      end.
Proof.
  intros self api_path payload w d r w' Hd Hrun.
  unfold _send_request, dict_copy, new_dict in Hrun.
  unfold bind at 1 2 in Hrun. unfold dict_items at 1 in Hrun.
  rewrite Hd in Hrun. unfold bind at 1 in Hrun.
  fold (with_heap w (heap w ++ [d])) in Hrun.
  assert (Hcopy : nth_error (heap (with_heap w (heap w ++ [d])))
                    (List.length (heap w)) = Some d).
  { cbn [with_heap heap]. rewrite nth_error_app2 by lia.
    now rewrite Nat.sub_diag. }
  destruct (crypto_data _ _ _) as [r1 w1] eqn:Hc.
  destruct (crypto_data_no_http_post _ _ _ _ _ _ _ _ _ _ Hcopy Hc)
    as (new & Htr & Hnew & Hlen).
  cbn [with_heap heap trace] in Htr, Hlen.
  rewrite List.length_app in Hlen. cbn [List.length] in Hlen.
  destruct r1 as [envelope|e].
  - unfold bind, emit, ret in Hrun.
    assert (Hw' : heap w' = heap w1 /\
                  trace w' = trace w1 ++ [EvHttpPost (HOST +++ api_path)] /\
                  r = Ok match http_post (HOST +++ api_path) envelope
                                 (_get_headers self) with
                         | inr body => body
                         | inl e => VDict [("success", VBool false);
                                           ("error", VStr e)]
                         end).
    { destruct (http_post _ _ _); inversion Hrun; subst; auto. }
    destruct Hw' as (Hh & Ht & Hr).
    split; [rewrite Hh, Hlen; lia|].
    exists (Ok envelope), w1, new. split; [reflexivity|].
    split; [exact Hnew|]. split; [exact Hr|].
    now rewrite Ht, Htr, <- app_assoc.
  - inversion Hrun; subst.
    split; [rewrite Hlen; lia|].
    exists (Raise e), w', new. auto.
Qed.

(** X15. When [sign_in] returns, it has created two objects, the payload
    and its copy, and its last call was the post to
    https://mid.huaruntong.cn/api/points/saveQuestionSignin.  The copy, the
    object that was serialized, holds the eight fields of the payload in the
    order of the source, then apiPath, appId, timestamp and signature; its
    apiPath is the percent-encoded path and its token the client's. *)
Theorem sign_in_builds_payload_and_posts :
  forall self w body w',
    sign_in aes_encrypt_block rsa_key rsa_import_key oaep_encrypt http_post
      self w = (Ok body, w') ->
    exists sent,
      List.length (heap w') = (List.length (heap w) + 2)%nat /\
      nth_error (heap w') (S (List.length (heap w))) = Some sent /\
      keys sent = ["answerResult"; "channelId"; "merchantCode"; "storeCode";
                   "sysId"; "transactionUuid"; "inviteCode"; "token";
                   "apiPath"; "appId"; "timestamp"; "signature"] /\
      dict_get sent "apiPath"
      = Some (VStr "%2Fapi%2Fpoints%2FsaveQuestionSignin") /\
      dict_get sent "token" = Some (VStr (token self)) /\
      last (trace w') (EvTime 0)
      = EvHttpPost "https://mid.huaruntong.cn/api/points/saveQuestionSignin".
Proof.
  intros self w body w' Hsign.
  set (payload := [("answerResult", VInt (answer_result self));
                   ("channelId", VStr (channel_id self));
                   ("merchantCode", VStr (merchant_code self));
                   ("storeCode", VStr (store_code self));
                   ("sysId", VStr (sys_id self));
                   ("transactionUuid", VStr (transaction_uuid self));
                   ("inviteCode", VStr (invite_code self));
                   ("token", VStr (token self))]).
  set (w0 := mkWorld ((heap w ++ [payload]) ++ [payload]) (clock w)
               (ticks w) (entropy w) (drawn w) (trace w)
               (json_depth w) (repr_depth w)).
  assert (Hcopy : nth_error (heap w0) (S (List.length (heap w)))
                  = Some payload).
  { subst w0. cbn [heap]. rewrite nth_error_app2;
      rewrite List.length_app; cbn [List.length]; [|lia].
    replace (S (List.length (heap w)) - (List.length (heap w) + 1))%nat
      with 0%nat by lia. reflexivity. }
  destruct (crypto_data (S (List.length (heap w)))
              "/api/points/saveQuestionSignin" w0) as [r1 w1] eqn:Hrun.
  assert (Hstep :
            sign_in aes_encrypt_block rsa_key rsa_import_key oaep_encrypt
              http_post self w
            = match r1 with
              | Ok envelope =>
                  (Ok match http_post
                              (HOST +++ "/api/points/saveQuestionSignin")
                              envelope (_get_headers self) with
                      | inr body => body
                      | inl e => VDict [("success", VBool false);
                                        ("error", VStr e)]
                      end,
                   mkWorld (heap w1) (clock w1) (ticks w1) (entropy w1)
                     (drawn w1)
                     (trace w1 ++
                      [EvHttpPost (HOST +++ "/api/points/saveQuestionSignin")])
                     (json_depth w1) (repr_depth w1))
              | Raise e => (Raise e, w1)
              end).
  { unfold sign_in, _send_request, dict_copy, new_dict.
    unfold bind at 1 2 3. unfold dict_items at 1.
    fold payload.
    cbn [with_heap heap clock ticks entropy drawn trace json_depth repr_depth].
    rewrite nth_error_app2 by lia. rewrite Nat.sub_diag.
    cbn [nth_error].
    cbn [with_heap heap clock ticks entropy drawn trace json_depth repr_depth].
    rewrite List.length_app. cbn [List.length].
    replace (List.length (heap w) + 1)%nat with (S (List.length (heap w)))
      by lia.
    unfold bind at 1. unfold with_heap.
    cbn [heap clock ticks entropy drawn trace json_depth repr_depth].
    match goal with
    | |- (let (r, w') := ?c in _) = _ =>
        replace c with (r1, w1) by (symmetry; exact Hrun)
    end.
    destruct r1 as [envelope|e]; [|reflexivity].
    unfold bind, emit, ret.
    destruct (http_post _ _ _); reflexivity. }
  rewrite Hstep in Hsign. destruct r1 as [envelope|e]; [|discriminate].
  destruct (crypto_data_returns _ _ _ _ _ _ _ _ _ _ Hcopy Hrun)
    as (s & p & rsa' & ek & _ & _ & _ & _ & _ & Hw1).
  cbv zeta in Hw1.
  injection Hsign as _ Hw'. subst w'. cbn [heap trace].
  eexists. split.
  { rewrite Hw1. cbn [heap]. rewrite heap_set_length. subst w0.
    cbn [heap]. rewrite !List.length_app. cbn [List.length]. lia. }
  split.
  { rewrite Hw1. cbn [heap]. eapply nth_error_heap_set_same; exact Hcopy. }
  split.
  { unfold assembled. rewrite !keys_dict_set. reflexivity. }
  split.
  { unfold assembled.
    rewrite !dict_get_set_other by discriminate.
    rewrite dict_get_set_same. reflexivity. }
  split.
  { unfold assembled. rewrite !dict_get_set_other by discriminate.
    reflexivity. }
  apply last_last.
Qed.

End MoreRequests.

(** * The further properties at the scenario *)

Lemma second_run_returns :
  run_on (snd golden_run) = (Ok second_envelope, snd second_run).
Proof. vm_compute. reflexivity. Defined.


Lemma pad_pkcs7_any_block_size_witness :
  (1 <= 8 <= 255)%Z /\
  exists padded,
    _pad_pkcs7 [x01; x02; x03] 8 = Ok padded /\
    unpad_pkcs7 padded = [x01; x02; x03].
Proof.
  split; [lia|].
  destruct (pad_pkcs7_any_block_size [x01; x02; x03] 8 ltac:(lia))
    as (padded & n & Hp & _ & _ & _ & Hu).
  exists padded. split; [exact Hp|exact Hu].
Defined.

Lemma json_text_is_printable_ascii_witness :
  json_compact deep accented
  = Ok (json_text "{'k':'" +++ String BACKSLASH "u00e9" +++ json_text "'}") /\
  List.length
    (utf8_encode
       (json_text "{'k':'" +++ String BACKSLASH "u00e9" +++ json_text "'}"))
  = 14%nat.
Proof.
  split; [vm_compute; reflexivity|].
  destruct (json_text_is_printable_ascii deep accented
              (json_text "{'k':'" +++ String BACKSLASH "u00e9"
               +++ json_text "'}")
              ltac:(vm_compute; reflexivity)) as (_ & _ & Hlen).
  rewrite Hlen. vm_compute. reflexivity.
Defined.

Lemma joined_run_returns :
  run_on joined_world = (Ok joined_envelope, snd joined_run).
Proof. vm_compute. reflexivity. Defined.

Lemma split_run_returns :
  run_on split_world = (Ok split_envelope, snd split_run).
Proof. vm_compute. reflexivity. Defined.

Lemma tuple_run_returns :
  run_on tuple_world = (Ok tuple_envelope, snd tuple_run).
Proof. vm_compute. reflexivity. Defined.

Lemma canonical_string_does_not_escape_witness :
  nth_error (heap joined_world) 0
  = Some ([] ++ [("z", VStr ("1" +++ "&" +++ "zz" +++ "=" +++ "2"))]) /\
  nth_error (heap split_world) 0
  = Some ([] ++ [("z", VStr "1"); ("zz", VStr "2")]) /\
  clock joined_world (ticks joined_world)
  = clock split_world (ticks split_world) /\
  NoDup (keys [] ++ ["z"; "zz"]) /\
  ~ In "z" injected_keys /\ ~ In "zz" injected_keys /\
  collect (key_value (json_depth joined_world) (repr_depth joined_world))
    (non_null
       (assembled [] golden_path (clock joined_world (ticks joined_world))))
  = Ok ["apiPath=%2Fapi%2Fpoints%2FsaveQuestionSignin";
        "appId=API_AUTH_WEB"; "timestamp=1700000000000"] /\
  Forall (fun pair => str_le pair ("z" +++ "=" +++ "1"))
    ["apiPath=%2Fapi%2Fpoints%2FsaveQuestionSignin";
     "appId=API_AUTH_WEB"; "timestamp=1700000000000"] /\
  str_le ("z" +++ "=" +++ "1") ("zz" +++ "=" +++ "2") /\
  run_on joined_world = (Ok joined_envelope, snd joined_run) /\
  run_on split_world = (Ok split_envelope, snd split_run) /\
  exists signature d1' d2',
    nth_error (heap (snd joined_run)) 0 = Some d1' /\
    nth_error (heap (snd split_run)) 0 = Some d2' /\
    dict_get d1' "signature" = Some (VStr signature) /\
    dict_get d2' "signature" = Some (VStr signature).
Proof.
  assert (Hz : ~ In "z" injected_keys)
    by (cbn [injected_keys In]; intros [H|[H|[H|[H|[]]]]]; discriminate H).
  assert (Hzz : ~ In "zz" injected_keys)
    by (cbn [injected_keys In]; intros [H|[H|[H|[H|[]]]]]; discriminate H).
  assert (Hnd : NoDup (keys [] ++ ["z"; "zz"])).
  { cbn [keys map app]. repeat constructor; cbn [In];
      intros H; repeat (destruct H as [H|H]; try discriminate H); exact H. }
  assert (Hbefore :
            Forall (fun pair => str_le pair ("z" +++ "=" +++ "1"))
              ["apiPath=%2Fapi%2Fpoints%2FsaveQuestionSignin";
               "appId=API_AUTH_WEB"; "timestamp=1700000000000"])
    by (repeat constructor).
  assert (Hle : str_le ("z" +++ "=" +++ "1") ("zz" +++ "=" +++ "2"))
    by reflexivity.
  split; [reflexivity|]. split; [reflexivity|]. split; [reflexivity|].
  split; [exact Hnd|]. split; [exact Hz|]. split; [exact Hzz|].
  split; [vm_compute; reflexivity|]. split; [exact Hbefore|].
  split; [exact Hle|]. split; [exact joined_run_returns|].
  split; [exact split_run_returns|].
  destruct (canonical_string_does_not_escape
              xor_block unit import_pem seed_wrap 0 0 golden_path
              joined_world split_world [] "z" "1" "zz" "2"
              ["apiPath=%2Fapi%2Fpoints%2FsaveQuestionSignin";
               "appId=API_AUTH_WEB"; "timestamp=1700000000000"]
              joined_envelope (snd joined_run) split_envelope (snd split_run)
              eq_refl eq_refl eq_refl Hnd Hz Hzz
              ltac:(vm_compute; reflexivity) Hbefore Hle
              joined_run_returns split_run_returns)
    as (signature & d1' & d2' & H1 & H2 & Hs1 & Hs2 & _).
  exists signature, d1', d2'. auto.
Defined.

Lemma tuple_entry_signed_as_text_sent_as_array_witness :
  nth_error (heap tuple_world) 0 = Some tuple_params /\
  In ("position", VTuple [VInt 1; VInt 2]) tuple_params /\
  ~ In "position" injected_keys /\
  run_on tuple_world = (Ok tuple_envelope, snd tuple_run) /\
  exists pairs entries,
    In ("position" +++ "=" +++ "(1, 2)") pairs /\
    In (encode_basestring_ascii "position" +++ ":" +++ "[1,2]") entries.
Proof.
  assert (Hk : ~ In "position" injected_keys)
    by (cbn [injected_keys In]; intros [H|[H|[H|[H|[]]]]]; discriminate H).
  split; [reflexivity|]. split; [right; left; reflexivity|].
  split; [exact Hk|]. split; [exact tuple_run_returns|].
  destruct (tuple_entry_signed_as_text_sent_as_array
              xor_block unit import_pem seed_wrap 0 golden_path tuple_world
              tuple_params "position" [VInt 1; VInt 2] tuple_envelope
              (snd tuple_run) eq_refl (or_intror (or_introl eq_refl)) Hk
              tuple_run_returns)
    as (text & array & pairs & canonical & d' & entries & plaintext
        & Ht & Ha & _ & _ & _ & Hp & _ & _ & _ & _ & He & _).
  exists pairs, entries.
  vm_compute in Ht. injection Ht as <-.
  vm_compute in Ha. injection Ha as <-.
  split; [exact Hp|exact He].
Defined.

Lemma value_at_the_depth_limit_fails_after_the_key_witness :
  nth_error (heap shallow_world) 0 = Some nested_params /\
  In ("path", VList [VList [VInt 1]]) nested_params /\
  ~ In "path" injected_keys /\
  json_compact (json_depth shallow_world) (VList [VList [VInt 1]])
  = Ok "[[1]]" /\
  json_compact (json_depth shallow_world - 1) (VList [VList [VInt 1]])
  = Raise RecursionError /\
  exists w',
    run_on shallow_world = (Raise RecursionError, w') /\
    drawn w' = 16%nat.
Proof.
  assert (Hk : ~ In "path" injected_keys)
    by (cbn [injected_keys In]; intros [H|[H|[H|[H|[]]]]]; discriminate H).
  split; [reflexivity|]. split; [right; left; reflexivity|].
  split; [exact Hk|]. split; [reflexivity|]. split; [reflexivity|].
  destruct (value_at_the_depth_limit_fails_after_the_key
              xor_block unit import_pem seed_wrap 0 golden_path shallow_world
              nested_params "path" (VList [VList [VInt 1]]) "[[1]]"
              RecursionError eq_refl (or_intror (or_introl eq_refl)) Hk
              eq_refl eq_refl)
    as (_ & _ & e' & w' & new & Hrun & _ & _ & Hpass).
  destruct (Hpass _ ltac:(vm_compute; reflexivity)) as (Hj & _ & Hdrawn).
  vm_compute in Hj. injection Hj as <-.
  exists w'. split; [exact Hrun|exact Hdrawn].
Defined.

Lemma protocol_fields_override_the_caller_witness :
  nth_error (heap unsigned_world) 0 = Some unsigned_params /\
  run_on unsigned_world = (Ok unsigned_envelope, snd unsigned_run) /\
  exists d' signature,
    nth_error (heap (snd unsigned_run)) 0 = Some d' /\
    dict_get d' "signature" = Some (VStr signature) /\
    dict_get d' "answerResult" = Some (VInt 1).
Proof.
  assert (Hrun : run_on unsigned_world
                 = (Ok unsigned_envelope, snd unsigned_run))
    by (vm_compute; reflexivity).
  split; [reflexivity|]. split; [exact Hrun|].
  destruct (protocol_fields_override_the_caller
              xor_block unit import_pem seed_wrap 0 golden_path
              unsigned_world unsigned_params unsigned_envelope
              (snd unsigned_run) eq_refl Hrun)
    as (d' & signature & Hd' & _ & _ & _ & Hs & Hother & _).
  exists d', signature. split; [exact Hd'|]. split; [exact Hs|].
  rewrite Hother; [reflexivity|].
  cbn [injected_keys In]. intros [H|[H|[H|[H|[]]]]]; discriminate H.
Defined.


Lemma consecutive_runs_draw_fresh_key_and_time_witness :
  nth_error (heap golden_world) 0 = Some golden_params /\
  run_on golden_world = (Ok golden_envelope, snd golden_run) /\
  (exists d2, nth_error (heap (snd golden_run)) 0 = Some d2) /\
  run_on (snd golden_run) = (Ok second_envelope, snd second_run) /\
  ticks (snd second_run) = 2%nat /\ drawn (snd second_run) = 72%nat.
Proof.
  assert (Hd2 : nth_error (heap (snd golden_run)) 0
                = Some (dict_set
                          (assembled golden_params golden_path 1700000000000)
                          "signature" (VStr golden_signature)))
    by (vm_compute; reflexivity).
  split; [reflexivity|]. split; [exact golden_run_returns|].
  split; [eexists; exact Hd2|]. split; [exact second_run_returns|].
  destruct (consecutive_runs_draw_fresh_key_and_time
              xor_block unit import_pem seed_wrap 0 golden_path 0 golden_path
              golden_world golden_params _ golden_envelope (snd golden_run)
              second_envelope (snd second_run) eq_refl golden_run_returns
              Hd2 second_run_returns) as (Ht & Hdr & _).
  split; [exact Ht|exact Hdr].
Defined.


Lemma data_field_length_witness :
  nth_error (heap golden_world) 0 = Some golden_params /\
  run_on golden_world = (Ok golden_envelope, snd golden_run) /\
  exists data ciphertext,
    dict_get golden_envelope "data" = Some (VStr data) /\
    b64decode data = Some ciphertext /\
    String.length data = (4 * ((List.length ciphertext + 2) / 3))%nat.
Proof.
  split; [reflexivity|]. split; [exact golden_run_returns|].
  destruct (data_field_length
              xor_block unit import_pem seed_wrap 0 golden_path golden_world
              golden_params golden_envelope (snd golden_run)
              xor_block_length eq_refl golden_run_returns)
    as (d' & plaintext & data & ciphertext & _ & _ & He & Hb & _ & Hl).
  exists data, ciphertext. auto.
Defined.

Lemma send_request_posts_once_or_raises_witness :
  nth_error (heap golden_world) 0 = Some golden_params /\
  _send_request xor_block unit import_pem seed_wrap no_network golden_self
    golden_path 0 golden_world
  = (fst golden_request, snd golden_request) /\
  List.length (heap (snd golden_request)) = 2%nat.
Proof.
  split; [reflexivity|]. split; [exact golden_request_outcome|].
  destruct (send_request_posts_once_or_raises
              xor_block unit import_pem seed_wrap no_network golden_self
              golden_path 0 golden_world golden_params (fst golden_request)
              (snd golden_request) eq_refl golden_request_outcome)
    as [Hlen _].
  exact Hlen.
Defined.

Lemma golden_sign_in_outcome :
  sign_in xor_block unit import_pem seed_wrap no_network golden_self
    golden_world
  = (Ok (VDict [("success", VBool false);
                ("error", VStr "connection refused")]),
     snd golden_sign_in).
Proof. vm_compute. reflexivity. Defined.

Lemma sign_in_builds_payload_and_posts_witness :
  sign_in xor_block unit import_pem seed_wrap no_network golden_self
    golden_world
  = (Ok (VDict [("success", VBool false);
                ("error", VStr "connection refused")]),
     snd golden_sign_in) /\
  List.length (heap (snd golden_sign_in)) = 3%nat /\
  exists sent,
    nth_error (heap (snd golden_sign_in)) 2 = Some sent /\
    dict_get sent "token" = Some (VStr "eyJ0eXAiOiJKV1QifQ").
Proof.
  split; [exact golden_sign_in_outcome|].
  destruct (sign_in_builds_payload_and_posts
              xor_block unit import_pem seed_wrap no_network golden_self
              golden_world _ (snd golden_sign_in) golden_sign_in_outcome)
    as (sent & Hlen & Hsent & _ & _ & Htoken & _).
  split; [exact Hlen|]. exists sent. split; [exact Hsent|exact Htoken].
Defined.

(** ** The fields of the envelope *)

Lemma b64_char_is_base64 :
  forall n, is_base64_char (b64_char n) = true.
Proof.
  intros n. unfold b64_char, is_base64_char.
  destruct (nth_in_or_default (N.to_nat n)
              (list_ascii_of_string b64_alphabet) "="%char) as [HIn|Hd].
  - apply orb_true_iff. left. apply existsb_exists.
    eexists. split; [exact HIn|]. apply Ascii.eqb_refl.
  - rewrite Hd. apply orb_true_iff. right. reflexivity.
Qed.

Lemma b64encode_is_base64 :
  forall bs : bytes,
    forallb is_base64_char (list_ascii_of_string (b64encode bs)) = true.
Proof.
  induction bs as [|a|a b|a b c rest IH] using list_ind3;
    cbn [b64encode list_ascii_of_string forallb];
    rewrite ?b64_char_is_base64; try reflexivity.
  exact IH.
Qed.

Lemma byte_xor_zero :
  forall b, byte_xor b x00 = b.
Proof.
  intros b. unfold byte_xor. cbn [Byte.to_N].
  change (Byte.to_N x00) with 0%N. rewrite N.lxor_0_r.
  apply byte_of_N_to_N.
Qed.

Lemma xor_bytes_zero :
  forall (p : bytes) (n : nat),
    (List.length p <= n)%nat -> xor_bytes p (repeat x00 n) = p.
Proof.
  unfold xor_bytes. induction p as [|b p IH]; intros n Hn; [reflexivity|].
  destruct n as [|n]; [simpl in Hn; lia|].
  cbn [repeat combine map fst snd]. rewrite byte_xor_zero. f_equal.
  apply IH. simpl in Hn. lia.
Qed.

Section EnvelopeFields.
Variable aes_encrypt_block : bytes -> bytes -> bytes.
Variable rsa_key : Type.
Variable rsa_import_key : string -> result rsa_key.
Variable oaep_encrypt : rsa_key -> bytes -> bytes -> result bytes.

Local Abbreviation crypto_data :=
  (_crypto_data aes_encrypt_block rsa_key rsa_import_key oaep_encrypt).

(** X16. Both fields of a returned envelope are Base64 texts: they hold
    only the 64 characters of the alphabet and the padding sign, and their
    lengths are multiples of four. *)
Theorem envelope_fields_are_base64 :
  forall params api_path w d envelope w',
    nth_error (heap w) params = Some d ->
    crypto_data params api_path w = (Ok envelope, w') ->
    exists key data,
      envelope = [("key", VStr key); ("data", VStr data)] /\
      forallb is_base64_char (list_ascii_of_string key) = true /\
      forallb is_base64_char (list_ascii_of_string data) = true /\
      (String.length key mod 4 = 0)%nat /\
      (String.length data mod 4 = 0)%nat.
Proof.
  intros params api_path w d envelope w' Hd Hrun.
  destruct (crypto_data_returns _ _ _ _ _ _ _ _ _ _ Hd Hrun)
    as (s & p & rsa & ek & _ & _ & _ & _ & He & _).
  cbv zeta in He. eexists _, _. split; [exact He|].
  split; [apply b64encode_is_base64|]. split; [apply b64encode_is_base64|].
  rewrite !b64encode_length.
  split; rewrite Nat.mul_comm; apply Nat.Div0.mod_mul.
Qed.

(** X17. Because the IV is sixteen zero bytes, the first block of the
    ciphertext in the data field is the block cipher applied, under the
    key just drawn, to the first sixteen bytes of the padded JSON text as
    they are (for a block cipher that gives 16-byte blocks). *)
Theorem first_block_is_encrypted_unchained :
  forall params api_path w d envelope w',
    (forall key block,
        List.length key = 16%nat -> List.length block = 16%nat ->
        List.length (aes_encrypt_block key block) = 16%nat) ->
    nth_error (heap w) params = Some d ->
    crypto_data params api_path w = (Ok envelope, w') ->
    exists d' plaintext data ciphertext,
      nth_error (heap w') params = Some d' /\
      json_compact (json_depth w) (VDict d') = Ok plaintext /\
      dict_get envelope "data" = Some (VStr data) /\
      b64decode data = Some ciphertext /\
      firstn 16 ciphertext
      = aes_encrypt_block (draw w (drawn w) 16)
          (firstn 16 (padded16 (utf8_encode plaintext))).
Proof.
  intros params api_path w d envelope w' HE Hd Hrun.
  destruct (crypto_data_returns _ _ _ _ _ _ _ _ _ _ Hd Hrun)
    as (s & plaintext & rsa & ek & _ & Hj & _ & _ & He & Hw).
  cbv zeta in *.
  eexists _, plaintext, _, _. split.
  { rewrite Hw. cbn [heap]. eapply nth_error_heap_set_same; exact Hd. }
  split; [exact Hj|]. split; [rewrite He; reflexivity|].
  split; [apply b64decode_encode|].
  set (padded := padded16 (utf8_encode plaintext)).
  assert (Hge : (16 <= List.length padded)%nat).
  { subst padded. unfold padded16. cbv zeta.
    rewrite List.length_app, repeat_length.
    pose proof (Nat.mod_upper_bound
                  (List.length (utf8_encode plaintext)) 16 ltac:(lia)) as Hr.
    pose proof (Nat.Div0.mod_le
                  (List.length (utf8_encode plaintext)) 16) as Hle.
    lia. }
  assert (Hf : List.length (firstn 16 padded) = 16%nat)
    by (rewrite length_firstn; lia).
  rewrite <- (firstn_skipn 16 padded) at 1.
  rewrite chunks_app_block by (auto; lia).
  cbn [cbc_encrypt_blocks]. unfold zero_iv.
  rewrite xor_bytes_zero by lia.
  assert (Hc : List.length
                 (aes_encrypt_block (draw w (drawn w) 16) (firstn 16 padded))
               = 16%nat) by (apply HE; [apply draw_length|exact Hf]).
  rewrite firstn_app, Hc. change (16 - 16)%nat with 0%nat.
  rewrite firstn_O, app_nil_r. apply firstn_all2. lia.
Qed.

End EnvelopeFields.

Lemma envelope_fields_are_base64_witness :
  nth_error (heap golden_world) 0 = Some golden_params /\
  run_on golden_world = (Ok golden_envelope, snd golden_run) /\
  exists key data,
    golden_envelope = [("key", VStr key); ("data", VStr data)] /\
    (String.length data mod 4 = 0)%nat.
Proof.
  split; [reflexivity|]. split; [exact golden_run_returns|].
  destruct (envelope_fields_are_base64
              xor_block unit import_pem seed_wrap 0 golden_path golden_world
              golden_params golden_envelope (snd golden_run) eq_refl
              golden_run_returns) as (key & data & He & _ & _ & _ & Hm).
  exists key, data. split; [exact He|exact Hm].
Defined.

Lemma first_block_is_encrypted_unchained_witness :
  nth_error (heap golden_world) 0 = Some golden_params /\
  run_on golden_world = (Ok golden_envelope, snd golden_run) /\
  exists data ciphertext plaintext,
    dict_get golden_envelope "data" = Some (VStr data) /\
    b64decode data = Some ciphertext /\
    firstn 16 ciphertext
    = xor_block (draw golden_world 0 16)
        (firstn 16 (padded16 (utf8_encode plaintext))).
Proof.
  split; [reflexivity|]. split; [exact golden_run_returns|].
  destruct (first_block_is_encrypted_unchained
              xor_block unit import_pem seed_wrap 0 golden_path golden_world
              golden_params golden_envelope (snd golden_run)
              xor_block_length eq_refl golden_run_returns)
    as (d' & plaintext & data & ciphertext & _ & _ & He & Hb & Hf).
  exists data, ciphertext, plaintext. auto.
Defined.
